(** * g502d: side-button remapping daemon (src/g502d.c)

    A shallow embedding of the daemon's event pipeline:
    - the [input_event] record and the event codes it switches on;
    - the binary32/binary64 arithmetic of the motion accumulators;
    - the keyboard ring buffer ([kb_event_buffer], [head], [tail],
      [kb_event_sem]) with its three operations;
    - one loop iteration of each of the three threads;
    - the interleavings of the ring's unsynchronized pieces;
    - start-up ([main]) and the device recovery loop.  *)

From Stdlib Require Import ZArith List Bool Lia SpecFloat.
Import ListNotations.
Open Scope Z_scope.

(** ** Events *)

(** [struct input_event]: a timestamp the daemon never inspects, an unsigned
    16-bit type and code, and a signed 32-bit value. *)
Record input_event := mk_event {
  time : Z;
  type : Z;
  code : Z;
  value : Z
}.

Definition with_code (ev : input_event) (c : Z) : input_event :=
  {| time := time ev; type := type ev; code := c; value := value ev |}.

Definition with_value (ev : input_event) (v : Z) : input_event :=
  {| time := time ev; type := type ev; code := code ev; value := v |}.

(** [struct input_event ev = {0}] and the zero-initialised global array. *)
Definition zero_event : input_event := mk_event 0 0 0 0.

(** Constants of linux/input-event-codes.h used by the daemon. *)
Definition EV_SYN : Z := 0.
Definition EV_KEY : Z := 1.
Definition EV_REL : Z := 2.
Definition EV_MSC : Z := 4.
Definition REL_X : Z := 0.
Definition REL_Y : Z := 1.
Definition MSC_SCAN : Z := 4.
Definition BTN_SIDE : Z := 0x113.
Definition BTN_EXTRA : Z := 0x114.
Definition KEY_LEFTCTRL : Z := 29.
Definition KEY_LEFTSHIFT : Z := 42.

(** Magic scan codes for the mouse side buttons (g502d.c, lines 33-37). *)
Definition SCAN_BTN_SIDE : Z := 0x90004.
Definition SCAN_BTN_EXTRA : Z := 0x90005.
Definition SCAN_KEY_SHIFT : Z := 0x70004.
Definition SCAN_KEY_CTRL : Z := 0x70005.

Definition INT_MIN : Z := - 2 ^ 31.
Definition INT_MAX : Z := 2 ^ 31 - 1.

(** ** Floating point: the motion accumulators

    [accum_x] and [accum_y] are C [float]s (binary32, 24 bits of precision);
    [DPI_SCALE] is the [double] literal 0.5 of config.h, so the product
    [ev.value * DPI_SCALE] and the sum are computed in binary64 and the
    compound assignment rounds the sum back to binary32.  The operations are
    those of the Standard Library's IEEE 754 specification. *)

Definition float_sub := SFsub 24 128.
Definition double_add := SFadd 53 1024.
Definition double_mul := SFmul 53 1024.

(** Integer to floating conversions (round to nearest even). *)
Definition int_to_float (n : Z) : spec_float := binary_normalize 24 128 n 0 false.
Definition int_to_double (n : Z) : spec_float := binary_normalize 53 1024 n 0 false.

(** Widening is exact, narrowing rounds to nearest even. *)
Definition float_to_double (x : spec_float) : spec_float :=
  match x with
  | S754_finite s m e => binary_round 53 1024 s m e
  | _ => x
  end.

Definition double_to_float (x : spec_float) : spec_float :=
  match x with
  | S754_finite s m e => binary_round 24 128 s m e
  | _ => x
  end.

(** [#define DPI_SCALE 0.5], a binary64 constant: 2^52 * 2^-53. *)
Definition DPI_SCALE : spec_float := S754_finite false 4503599627370496 (-53).

(** [roundf]: nearest integer, halfway cases away from zero.  For a finite
    [m * 2^e] with [e < 0] the magnitude of the result is
    [floor (m * 2^e + 1/2)]. *)
Definition roundf (x : spec_float) : spec_float :=
  match x with
  | S754_finite s m e =>
      if 0 <=? e then x
      else binary_normalize 24 128
             (cond_Zopp s ((2 * Zpos m + 2 ^ (- e)) / 2 ^ (1 - e))) 0 s
  | _ => x
  end.

(** The cast [(int)f]: truncation toward zero.  A NaN, an infinity or a value
    outside the range of [int] gives [INT_MIN], as the x86-64 conversion
    instruction does (the C standard leaves those cases undefined). *)
Definition float_to_int (x : spec_float) : Z :=
  match x with
  | S754_zero _ => 0
  | S754_finite s m e =>
      let t := cond_Zopp s (if 0 <=? e then Zpos m * 2 ^ e else Zpos m / 2 ^ (- e)) in
      if (INT_MIN <=? t) && (t <=? INT_MAX) then t else INT_MIN
  | _ => INT_MIN
  end.

(** The body shared by the [REL_X] and [REL_Y] branches (lines 283-293):
<<
    accum += ev.value * DPI_SCALE;
    int int_move = (int)roundf(accum);
    accum -= int_move;
    ev.value = int_move;
>>
    Returns the new accumulator and [int_move]. *)
Definition scale_axis (accum : spec_float) (v : Z) : spec_float * Z :=
  let accum1 :=
    double_to_float
      (double_add (float_to_double accum) (double_mul (int_to_double v) DPI_SCALE)) in
  let int_move := float_to_int (roundf accum1) in
  (float_sub accum1 (int_to_float int_move), int_move).

(** [float accum = 0.0;] *)
Definition float_zero : spec_float := S754_zero false.
Definition float_half : spec_float := S754_finite false 8388608 (-24).
Definition float_minus_half : spec_float := S754_finite true 8388608 (-24).

(** Feeding a whole sequence of raw deltas of one axis through the
    accumulator: the final accumulator and the emitted deltas, in order. *)
Fixpoint scale_run (accum : spec_float) (raw : list Z) : spec_float * list Z :=
  match raw with
  | [] => (accum, [])
  | v :: rest =>
      let '(accum', d) := scale_axis accum v in
      let '(final, ds) := scale_run accum' rest in
      (final, d :: ds)
  end.

Definition zsum (l : list Z) : Z := fold_right Z.add 0 l.

(** ** The keyboard ring buffer *)

Definition EVENT_BUFFER_SIZE : Z := Z.shiftl 1 18.

(** [kb_event_buffer], [head] (write index), [tail] (read index) and the
    value of the semaphore [kb_event_sem]. *)
Record kb_ring := mk_ring {
  kb_event_buffer : Z -> input_event;
  head : Z;
  tail : Z;
  kb_event_sem : Z
}.

Definition ring_init : kb_ring :=
  {| kb_event_buffer := fun _ => zero_event; head := 0; tail := 0; kb_event_sem := 0 |}.

(** [kb_event_buffer[i] = ev] *)
Definition store (buf : Z -> input_event) (i : Z) (ev : input_event) : Z -> input_event :=
  fun j => if j =? i then ev else buf j.

(** A step of the program either leaves the process running or ends it with
    [exit(status)]. *)
Inductive outcome (A : Type) : Type :=
| Running (a : A)
| Exited (status : Z).
Arguments Running {A} a.
Arguments Exited {A} status.

Definition bind {A B : Type} (o : outcome A) (k : A -> outcome B) : outcome B :=
  match o with
  | Running a => k a
  | Exited c => Exited c
  end.

(** The critical section of [send_input_event_to_keyboard] (lines 183-203). *)
Definition enqueue (ev : input_event) (r : kb_ring) : outcome kb_ring :=
  let next_head := (head r + 1) mod EVENT_BUFFER_SIZE in
  if next_head =? tail r then Exited 1
  else Running {| kb_event_buffer := store (kb_event_buffer r) (head r) ev;
                  head := next_head;
                  tail := tail r;
                  kb_event_sem := kb_event_sem r |}.

Definition sem_post (r : kb_ring) : kb_ring :=
  {| kb_event_buffer := kb_event_buffer r; head := head r; tail := tail r;
     kb_event_sem := kb_event_sem r + 1 |}.

(** [sem_trywait]: decrements a positive semaphore, fails otherwise;
    [sem_wait] blocks until it can do so, which [None] stands for. *)
Definition sem_trywait (r : kb_ring) : option kb_ring :=
  if 0 <? kb_event_sem r
  then Some {| kb_event_buffer := kb_event_buffer r; head := head r; tail := tail r;
               kb_event_sem := kb_event_sem r - 1 |}
  else None.

Definition sem_wait := sem_trywait.

Definition send_input_event_to_keyboard (ev : input_event) (r : kb_ring) : outcome kb_ring :=
  bind (enqueue ev r) (fun r' => Running (sem_post r')).

(** The drain loop of [clear_keyboard_buffer] (lines 171-174), with the
    iteration count as fuel. *)
Fixpoint drain (fuel : nat) (r : kb_ring) : kb_ring :=
  match fuel with
  | O => r
  | S fuel' =>
      if 0 <? kb_event_sem r
      then drain fuel' (match sem_trywait r with Some r' => r' | None => r end)
      else r
  end.

Definition clear_keyboard_buffer (r : kb_ring) : kb_ring :=
  let r1 := {| kb_event_buffer := kb_event_buffer r; head := tail r; tail := tail r;
               kb_event_sem := kb_event_sem r |} in
  drain (Z.to_nat (kb_event_sem r1)) r1.

(** The unlocked read of [keyboard_process_o] (lines 420-422). *)
Definition take (r : kb_ring) : input_event * kb_ring :=
  (kb_event_buffer r (tail r),
   {| kb_event_buffer := kb_event_buffer r; head := head r;
      tail := (tail r + 1) mod EVENT_BUFFER_SIZE;
      kb_event_sem := kb_event_sem r |}).

(** [pop]: wait for the semaphore, then read. *)
Definition pop (r : kb_ring) : option (input_event * kb_ring) :=
  match sem_wait r with
  | Some r' => Some (take r')
  | None => None
  end.

(** The entries between the read and the write index, oldest first. *)
Definition pending_count (r : kb_ring) : Z := (head r - tail r) mod EVENT_BUFFER_SIZE.

Definition pending (r : kb_ring) : list input_event :=
  map (fun k => kb_event_buffer r ((tail r + Z.of_nat k) mod EVENT_BUFFER_SIZE))
      (seq 0 (Z.to_nat (pending_count r))).

Definition ring_wf (r : kb_ring) : Prop :=
  0 <= head r < EVENT_BUFFER_SIZE /\ 0 <= tail r < EVENT_BUFFER_SIZE.

(** ** One loop iteration of each thread

    The state the three threads act on: the shared ring, what has been written
    to the virtual mouse ([args->out_fd] of the mouse thread) and to the virtual
    keyboard ([args->out_fd] of the output thread), and the two accumulators,
    local to the mouse thread. *)
Record daemon := mk_daemon {
  ring : kb_ring;
  mouse_out : list input_event;
  kb_out : list input_event;
  accum_x : spec_float;
  accum_y : spec_float
}.

Definition daemon_init : daemon :=
  {| ring := ring_init; mouse_out := []; kb_out := [];
     accum_x := float_zero; accum_y := float_zero |}.

Definition with_ring (d : daemon) (r : kb_ring) : daemon :=
  {| ring := r; mouse_out := mouse_out d; kb_out := kb_out d;
     accum_x := accum_x d; accum_y := accum_y d |}.

(** [send_input_event_to_keyboard(&ev)] called from a thread. *)
Definition to_keyboard (ev : input_event) (d : daemon) : outcome daemon :=
  bind (send_input_event_to_keyboard ev (ring d)) (fun r => Running (with_ring d r)).

(** [write(args->out_fd, &ev, ev_size)] in the mouse thread; a short write is
    only logged. *)
Definition to_mouse (ev : input_event) (d : daemon) : daemon :=
  {| ring := ring d; mouse_out := mouse_out d ++ [ev]; kb_out := kb_out d;
     accum_x := accum_x d; accum_y := accum_y d |}.

(** The [switch (ev.type)] of [mouse_thread_io_func] (lines 263-339), run
    on an event that was read successfully. *)
Definition mouse_event (ev : input_event) (d : daemon) : outcome daemon :=
  if type ev =? EV_KEY then
    if (code ev =? BTN_SIDE) || (code ev =? BTN_EXTRA) then
      let ev' :=
        if code ev =? BTN_SIDE then with_code ev KEY_LEFTSHIFT
        else if code ev =? BTN_EXTRA then with_code ev KEY_LEFTCTRL
        else ev in
      to_keyboard ev' d
    else Running (to_mouse ev d)
  else if type ev =? EV_REL then
    if code ev =? REL_X then
      let '(a, int_move) := scale_axis (accum_x d) (value ev) in
      Running (to_mouse (with_value ev int_move)
                 {| ring := ring d; mouse_out := mouse_out d; kb_out := kb_out d;
                    accum_x := a; accum_y := accum_y d |})
    else if code ev =? REL_Y then
      let '(a, int_move) := scale_axis (accum_y d) (value ev) in
      Running (to_mouse (with_value ev int_move)
                 {| ring := ring d; mouse_out := mouse_out d; kb_out := kb_out d;
                    accum_x := accum_x d; accum_y := a |})
    else Running (to_mouse ev d)
  else if type ev =? EV_MSC then
    if code ev =? MSC_SCAN then
      if value ev =? SCAN_BTN_SIDE then to_keyboard (with_value ev SCAN_KEY_SHIFT) d
      else if value ev =? SCAN_BTN_EXTRA then to_keyboard (with_value ev SCAN_KEY_CTRL) d
      else Running (to_mouse ev d)
    else Running (to_mouse ev d)
  else if type ev =? EV_SYN then
    bind (to_keyboard ev d) (fun d' => Running (to_mouse ev d'))
  else Running (to_mouse ev d).

(** [keyboard_process_i] on an event that was read successfully (line 391). *)
Definition keyboard_event (ev : input_event) (d : daemon) : outcome daemon :=
  to_keyboard ev d.

(** [keyboard_process_i] on a failed read: the buffer is cleared before the
    device is reopened (line 375). *)
Definition keyboard_read_failure (d : daemon) : daemon :=
  with_ring d (clear_keyboard_buffer (ring d)).

(** One iteration of [keyboard_process_o] (lines 410-430); [None] when the
    thread stays blocked in [sem_wait]. *)
Definition keyboard_process_o_iter (d : daemon) : option daemon :=
  match pop (ring d) with
  | Some (ev, r) =>
      Some {| ring := r; mouse_out := mouse_out d; kb_out := kb_out d ++ [ev];
              accum_x := accum_x d; accum_y := accum_y d |}
  | None => None
  end.

(** Running a list of events of one source through its handler. *)
Fixpoint mouse_events (evs : list input_event) (d : daemon) : outcome daemon :=
  match evs with
  | [] => Running d
  | ev :: rest => bind (mouse_event ev d) (mouse_events rest)
  end.

(** Running a list of events read from the keyboard through its handler. *)
Fixpoint keyboard_events (evs : list input_event) (d : daemon) : outcome daemon :=
  match evs with
  | [] => Running d
  | ev :: rest => bind (keyboard_event ev d) (keyboard_events rest)
  end.

(** [n] iterations of the output thread; [None] if it blocks before the end. *)
Fixpoint keyboard_process_o_iters (n : nat) (d : daemon) : option daemon :=
  match n with
  | O => Some d
  | S n' => match keyboard_process_o_iter d with
            | Some d' => keyboard_process_o_iters n' d'
            | None => None
            end
  end.

(** ** Interleavings of the ring's pieces

    The mutex covers the critical section of [send_input_event_to_keyboard]
    and the body of [clear_keyboard_buffer]; [sem_post] comes after the unlock,
    and the output thread's [sem_wait] and its read of [tail] hold no lock.
    A schedule is a sequence of these pieces, each run by the thread that
    owns it.

    [clear_keyboard_buffer] is not one piece: the output thread takes no
    lock, so its [sem_wait] and its read can run between [head = tail]
    (line 166) and any turn of the draining loop (lines 169-174).  The purge
    is therefore three kinds of step, [PurgeReset], [PurgeDrain] and
    [PurgeDone], during which only the producers' critical sections are held
    off by the mutex.  A [sem_trywait] of the loop that fails, because the
    output thread took the semaphore after [sem_getvalue] read it, changes
    nothing and is no step.  [Purge] is the same function run from lock to
    unlock with no step of another thread in between, one of the runs the
    three steps allow (lemma [purge_uninterrupted]). *)
Inductive producer := Mouse | Keyboard.

Inductive action :=
| Enqueue (p : producer) (ev : input_event)  (* critical section of a send *)
| Post (p : producer)                        (* the sem_post that follows it *)
| Purge                                      (* clear_keyboard_buffer, uninterrupted *)
| Wait                                       (* sem_wait returns in the output thread *)
| Take                                       (* lines 420-425 of the output thread *)
| PurgeReset                                 (* lines 163-166: lock, head = tail *)
| PurgeDrain                                 (* lines 170-173: a positive value seen, sem_trywait *)
| PurgeDone.                                 (* no positive value seen, line 176: unlock *)

Record sys := mk_sys {
  s_ring : kb_ring;
  post_due_mouse : bool;     (* mouse thread between unlock and sem_post *)
  post_due_keyboard : bool;  (* keyboard input thread between unlock and sem_post *)
  woken : bool;              (* output thread between sem_wait and its read *)
  delivered : list input_event;
  purging : bool             (* keyboard input thread inside clear_keyboard_buffer *)
}.

Definition sys_init : sys :=
  {| s_ring := ring_init; post_due_mouse := false; post_due_keyboard := false;
     woken := false; delivered := []; purging := false |}.

Definition post_due (p : producer) (s : sys) : bool :=
  match p with Mouse => post_due_mouse s | Keyboard => post_due_keyboard s end.

Definition set_post_due (p : producer) (b : bool) (r : kb_ring) (s : sys) : sys :=
  match p with
  | Mouse => {| s_ring := r; post_due_mouse := b; post_due_keyboard := post_due_keyboard s;
                woken := woken s; delivered := delivered s; purging := purging s |}
  | Keyboard => {| s_ring := r; post_due_mouse := post_due_mouse s; post_due_keyboard := b;
                   woken := woken s; delivered := delivered s; purging := purging s |}
  end.

(** The ring of [s] replaced, the keyboard input thread inside the purge or
    not, everything else as it was. *)
Definition set_purging (b : bool) (r : kb_ring) (s : sys) : sys :=
  {| s_ring := r; post_due_mouse := post_due_mouse s;
     post_due_keyboard := post_due_keyboard s;
     woken := woken s; delivered := delivered s; purging := b |}.

(** Line 166. *)
Definition reset_head (r : kb_ring) : kb_ring :=
  {| kb_event_buffer := kb_event_buffer r; head := tail r; tail := tail r;
     kb_event_sem := kb_event_sem r |}.

(** [None]: the action is not enabled (the thread is elsewhere in its code,
    or it would block: a producer on the mutex while the purge holds it, the
    output thread on the semaphore). *)
Definition step (a : action) (s : sys) : option (outcome sys) :=
  match a with
  | Enqueue p ev =>
      if post_due p s || purging s then None
      else Some (bind (enqueue ev (s_ring s)) (fun r => Running (set_post_due p true r s)))
  | Post p =>
      if post_due p s then Some (Running (set_post_due p false (sem_post (s_ring s)) s))
      else None
  | Purge =>
      if post_due_keyboard s || purging s then None
      else Some (Running (set_purging false (clear_keyboard_buffer (s_ring s)) s))
  | Wait =>
      if woken s then None
      else match sem_wait (s_ring s) with
           | Some r => Some (Running {| s_ring := r;
                                        post_due_mouse := post_due_mouse s;
                                        post_due_keyboard := post_due_keyboard s;
                                        woken := true; delivered := delivered s;
                                        purging := purging s |})
           | None => None
           end
  | Take =>
      if woken s then
        let '(ev, r) := take (s_ring s) in
        Some (Running {| s_ring := r;
                         post_due_mouse := post_due_mouse s;
                         post_due_keyboard := post_due_keyboard s;
                         woken := false; delivered := delivered s ++ [ev];
                         purging := purging s |})
      else None
  | PurgeReset =>
      if post_due_keyboard s || purging s then None
      else Some (Running (set_purging true (reset_head (s_ring s)) s))
  | PurgeDrain =>
      if purging s then
        match sem_trywait (s_ring s) with
        | Some r => Some (Running (set_purging true r s))
        | None => None
        end
      else None
  | PurgeDone =>
      if purging s && negb (0 <? kb_event_sem (s_ring s))
      then Some (Running (set_purging false (s_ring s) s))
      else None
  end.

Fixpoint exec (sched : list action) (s : sys) : option (outcome sys) :=
  match sched with
  | [] => Some (Running s)
  | a :: rest =>
      match step a s with
      | Some (Running s') => exec rest s'
      | other => other
      end
  end.

(** The events a schedule enqueues, in the order their critical sections run. *)
Fixpoint enqueued (sched : list action) : list input_event :=
  match sched with
  | [] => []
  | Enqueue _ ev :: rest => ev :: enqueued rest
  | _ :: rest => enqueued rest
  end.

Definition is_purge (a : action) : bool :=
  match a with
  | Purge | PurgeReset | PurgeDrain | PurgeDone => true
  | _ => false
  end.

Definition purge_free (sched : list action) : bool :=
  forallb (fun a => negb (is_purge a)) sched.

Definition b2z (b : bool) : Z := if b then 1 else 0.

(** What ties the semaphore to the cursors as long as nobody purges: every
    pending entry is accounted for by the semaphore, by a producer that has
    not posted yet, or by the output thread that has been woken for it. *)
Definition sys_inv (s : sys) : Prop :=
  ring_wf (s_ring s) /\ 0 <= kb_event_sem (s_ring s) /\
  pending_count (s_ring s) =
    kb_event_sem (s_ring s) + b2z (woken s) +
    b2z (post_due_mouse s) + b2z (post_due_keyboard s).

(** ** Start-up and device recovery *)

Inductive device := G502 | KeyboardDevice.

(** What the host answers during [main]: whether [find_event_device] finds
    each physical device, and whether each later set-up step succeeds. *)
Record startup_env := mk_env {
  found : device -> bool;          (* find_event_device returns non-NULL *)
  open_uinput_g502 : bool;         (* line 458 *)
  g502_key_bits : bool;            (* lines 464-469 *)
  g502_rel_bits : bool;            (* lines 475-478 *)
  g502_dev_create : bool;          (* lines 492-493 *)
  open_uinput_kb : bool;           (* line 499 *)
  kb_ev_key_bit : bool;            (* line 506 *)
  kb_msc_bits : bool;              (* lines 516-517 *)
  kb_dev_create : bool;            (* lines 531-532 *)
  sem_init_ok : bool;              (* line 539 *)
  create_kb_output : bool;         (* line 551 *)
  create_kb_input : bool;          (* line 565 *)
  create_mouse_io : bool           (* line 580 *)
}.

(** [main] either returns a status (the process ends) or reaches the
    [pthread_join]s with the three threads started. *)
Inductive main_result :=
| Returned (status : Z)
| Supervising.

(** [main] (lines 438-591) up to the joins, with the calls to
    [find_event_device] it makes, in order. *)
Definition main (env : startup_env) : list device * main_result :=
  if negb (found env G502) then ([G502], Returned 1)
  else if negb (found env KeyboardDevice) then ([G502; KeyboardDevice], Returned 1)
  else
    ([G502; KeyboardDevice],
     if negb (open_uinput_g502 env) then Returned 1
     else if negb (g502_key_bits env) then Returned 1
     else if negb (g502_rel_bits env) then Returned 1
     else if negb (g502_dev_create env) then Returned 1
     else if negb (open_uinput_kb env) then Returned 1
     else if negb (kb_ev_key_bit env) then Returned 1
     else if negb (kb_msc_bits env) then Returned 1
     else if negb (kb_dev_create env) then Returned 1
     else if negb (sem_init_ok env) then Returned 1
     else if negb (create_kb_output env) then Returned 1
     else if negb (create_kb_input env) then Returned 1
     else if negb (create_mouse_io env) then Returned 1
     else Supervising).

(** A producer thread: whether it is still in its loop or has called
    [pthread_exit], its descriptor, [consecutive_failures] (which only the
    log lines read), and how many times it has called
    [find_open_and_grab_device] so far. *)
Record thread := mk_thread {
  alive : bool;
  fd : Z;
  consecutive_failures : Z;
  acquire_calls : Z
}.

(** Lines 222-226 and 358-361: [acquired] is what
    [find_open_and_grab_device] returned, a descriptor or -1. *)
Definition thread_start (acquired : Z) : thread :=
  {| alive := negb (acquired <? 0); fd := acquired;
     consecutive_failures := 0; acquire_calls := 1 |}.

(** What [read] gave: a whole event, or anything else with its [errno]. *)
Inductive read_result :=
| ReadEvent (ev : input_event)
| ReadError (errno : Z).

(** [reopen_device] (lines 128-147): the old descriptor is released, the
    device is looked up and grabbed again; [reacquired] is what that gave. *)
Definition reopen_device (reacquired : Z) (t : thread) : thread * Z :=
  ({| alive := alive t; fd := reacquired;
      consecutive_failures := consecutive_failures t;
      acquire_calls := acquire_calls t + 1 |},
   if reacquired <? 0 then -1 else 0).

Definition reset_accumulators (d : daemon) : daemon :=
  {| ring := ring d; mouse_out := mouse_out d; kb_out := kb_out d;
     accum_x := float_zero; accum_y := float_zero |}.

Definition with_failures (t : thread) (n : Z) : thread :=
  {| alive := alive t; fd := fd t; consecutive_failures := n;
     acquire_calls := acquire_calls t |}.

(** One iteration of the [while (1)] of [mouse_thread_io_func]
    (lines 236-340). *)
Definition mouse_thread_io_func_iter (r : read_result) (reacquired : Z)
    (td : thread * daemon) : outcome (thread * daemon) :=
  let '(t, d) := td in
  if negb (alive t) then Running (t, d)
  else match r with
       | ReadError _ =>
           let '(t', rc) := reopen_device reacquired t in
           if rc =? 0
           then Running (with_failures t' 0, reset_accumulators d)
           else Running (with_failures t' (consecutive_failures t' + 1), d)
       | ReadEvent ev =>
           bind (mouse_event ev d) (fun d' => Running (with_failures t 0, d'))
       end.

(** One iteration of the [while (1)] of [keyboard_process_i]
    (lines 365-392). *)
Definition keyboard_process_i_iter (r : read_result) (reacquired : Z)
    (td : thread * daemon) : outcome (thread * daemon) :=
  let '(t, d) := td in
  if negb (alive t) then Running (t, d)
  else match r with
       | ReadError _ =>
           let d1 := keyboard_read_failure d in
           let '(t', rc) := reopen_device reacquired t in
           if rc =? 0
           then Running (with_failures t' 0, d1)
           else Running (with_failures t' (consecutive_failures t' + 1), d1)
       | ReadEvent ev =>
           bind (keyboard_event ev d) (fun d' => Running (with_failures t 0, d'))
       end.

(** A run of failed reads, each given by its [errno] and by what the reopen
    attempt that follows it obtains. *)
Fixpoint mouse_failures (fs : list (Z * Z)) (td : thread * daemon)
    : outcome (thread * daemon) :=
  match fs with
  | [] => Running td
  | (errno, reacquired) :: rest =>
      bind (mouse_thread_io_func_iter (ReadError errno) reacquired td) (mouse_failures rest)
  end.

Fixpoint keyboard_failures (fs : list (Z * Z)) (td : thread * daemon)
    : outcome (thread * daemon) :=
  match fs with
  | [] => Running td
  | (errno, reacquired) :: rest =>
      bind (keyboard_process_i_iter (ReadError errno) reacquired td) (keyboard_failures rest)
  end.

(** [keyboard_process_o] has no [pthread_exit] inside its loop: once
    started it is alive for as long as the process is. *)
Definition keyboard_process_o_alive : bool := true.

(** Lines 589-598: [main] returns 0 once the three joins have returned,
    and waits otherwise. *)
Definition main_join (mouse kb_input : thread) : main_result :=
  if negb (alive mouse) && negb (alive kb_input) && negb keyboard_process_o_alive
  then Returned 0
  else Supervising.

(** ** Exact values of the accumulator arithmetic *)

(** [p * 2^k] on positive mantissas, for any integer [k] (no shift when
    [k <= 0]). *)
Definition pshl (p : positive) (k : Z) : positive :=
  match k with
  | Zpos j => Pos.iter xO p j
  | _ => p
  end.

(** The [prec]-bit float with sign [s] and magnitude [p * 2^e], for a [p]
    of at most [prec] bits. *)
Definition canon (prec : Z) (s : bool) (p : positive) (e : Z) : spec_float :=
  let d := Zpos (digits2_pos p) in
  S754_finite s (pshl p (prec - d)) (e - (prec - d)).

(** The [prec]-bit float of value [z * 2^e]. *)
Definition dyadic (prec : Z) (z : Z) (e : Z) : spec_float :=
  match z with
  | Z0 => S754_zero false
  | Zpos p => canon prec false p e
  | Zneg p => canon prec true p e
  end.

(** Nearest integer to [w / 2], halves away from zero. *)
Definition round_half_away (w : Z) : Z := Z.sgn w * ((Z.abs w + 1) / 2).

(** [-0.5 <= x <= 0.5], by the IEEE comparison. *)
Definition within_half (x : spec_float) : bool :=
  SFleb float_minus_half x && SFleb x float_half.

(** ** Further parts of the program *)

(** *** Where the mouse thread sends an event *)

(** The events of [mouse_thread_io_func] that reach
    [send_input_event_to_keyboard]: the two side buttons, their two scan
    codes, and every [EV_SYN]. *)
Definition goes_to_keyboard (ev : input_event) : bool :=
  ((type ev =? EV_KEY) && ((code ev =? BTN_SIDE) || (code ev =? BTN_EXTRA)))
  || ((type ev =? EV_MSC) && (code ev =? MSC_SCAN)
      && ((value ev =? SCAN_BTN_SIDE) || (value ev =? SCAN_BTN_EXTRA)))
  || (type ev =? EV_SYN).

(** The events whose value is rescaled: [EV_REL] on [REL_X] or [REL_Y]. *)
Definition is_scaled (ev : input_event) : bool :=
  (type ev =? EV_REL) && ((code ev =? REL_X) || (code ev =? REL_Y)).

(** The values of the [EV_REL] events of axis [c] in a list of events. *)
Fixpoint axis_values (c : Z) (evs : list input_event) : list Z :=
  match evs with
  | [] => []
  | ev :: rest =>
      if (type ev =? EV_REL) && (code ev =? c)
      then value ev :: axis_values c rest
      else axis_values c rest
  end.

(** *** The accumulator in half units *)

(** The accumulator step on integers: [a] is twice the accumulator, the
    step emits the nearest integer to [(a + v) / 2] and keeps the rest. *)
Fixpoint exact_run (a : Z) (raw : list Z) : Z * list Z :=
  match raw with
  | [] => (a, [])
  | v :: rest =>
      let n := round_half_away (a + v) in
      let '(final, ds) := exact_run (a + v - 2 * n) rest in
      (final, n :: ds)
  end.

(** *** Whole runs of the producer threads *)

(** Iterations of the [while (1)] of [mouse_thread_io_func], one per
    [read]: what the read gave and, for a failed read, what the reopen
    obtained. *)
Fixpoint mouse_thread_run (inputs : list (read_result * Z)) (td : thread * daemon)
    : outcome (thread * daemon) :=
  match inputs with
  | [] => Running td
  | (r, reacquired) :: rest =>
      bind (mouse_thread_io_func_iter r reacquired td) (mouse_thread_run rest)
  end.

Fixpoint keyboard_thread_run (inputs : list (read_result * Z)) (td : thread * daemon)
    : outcome (thread * daemon) :=
  match inputs with
  | [] => Running td
  | (r, reacquired) :: rest =>
      bind (keyboard_process_i_iter r reacquired td) (keyboard_thread_run rest)
  end.

(** *** Device descriptors *)

(** The descriptors that are open and those on which [EVIOCGRAB] is held. *)
Record host := mk_host {
  open_fds : list Z;
  grabbed_fds : list Z
}.

(** [close(fd)], [ioctl(fd, EVIOCGRAB, 1)] and [ioctl(fd, EVIOCGRAB, 0)]. *)
Definition close_fd (fd : Z) (h : host) : host :=
  {| open_fds := remove Z.eq_dec fd (open_fds h); grabbed_fds := grabbed_fds h |}.

Definition grab_fd (fd : Z) (h : host) : host :=
  {| open_fds := open_fds h; grabbed_fds := fd :: grabbed_fds h |}.

Definition ungrab_fd (fd : Z) (h : host) : host :=
  {| open_fds := open_fds h; grabbed_fds := remove Z.eq_dec fd (grabbed_fds h) |}.

(** [open_and_grab_device] (lines 89-103): [opened] is what [open] returns
    (a new descriptor, or a negative value), [grab_ok] whether the grab
    is granted. *)
Definition open_and_grab_device (opened : Z) (grab_ok : bool) (h : host) : Z * host :=
  if opened <? 0 then (-1, h)
  else
    let h1 := {| open_fds := opened :: open_fds h; grabbed_fds := grabbed_fds h |} in
    if negb grab_ok then (-1, close_fd opened h1)
    else (opened, grab_fd opened h1).

(** [find_open_and_grab_device] (lines 106-116): [located] is whether
    [find_event_device] returned a path. *)
Definition find_open_and_grab_device (located : bool) (opened : Z) (grab_ok : bool)
    (h : host) : Z * host :=
  if negb located then (-1, h)
  else open_and_grab_device opened grab_ok h.

(** [release_and_close_device] (lines 119-125). *)
Definition release_and_close_device (fd : Z) (h : host) : host :=
  if 0 <=? fd then close_fd fd (ungrab_fd fd h) else h.

(** [reopen_device] (lines 128-147) on the descriptors: the return code, the
    new value of [*fd] and the descriptors afterwards. *)
Definition reopen_device_host (located : bool) (opened : Z) (grab_ok : bool)
    (fdh : Z * host) : Z * (Z * host) :=
  let '(fd, h) := fdh in
  let h1 := release_and_close_device fd h in
  let '(fd', h2) := find_open_and_grab_device located opened grab_ok h1 in
  if fd' <? 0 then (-1, (fd', h2)) else (0, (fd', h2)).

(** A run of reopen attempts, one per failed read. *)
Fixpoint reopen_attempts (attempts : list (bool * Z * bool)) (fdh : Z * host) : Z * host :=
  match attempts with
  | [] => fdh
  | (located, opened, grab_ok) :: rest =>
      reopen_attempts rest (snd (reopen_device_host located opened grab_ok fdh))
  end.

(** The descriptors a thread holding [fd] has: none when [fd] is negative. *)
Definition held (fd : Z) : list Z := if fd <? 0 then [] else [fd].

(** *** Start-up, call by call *)

Inductive resource := VirtualG502 | VirtualKeyboard | Semaphore.

Inductive worker := KeyboardOutput | KeyboardInput | MouseIO.

(** The calls of [main] that take or give back a resource, or start a
    thread. *)
Inductive call :=
| Obtain (r : resource)      (* open("/dev/uinput") or sem_init succeeded *)
| Release (r : resource)       (* close or sem_destroy *)
| Start (w : worker).       (* pthread_create succeeded *)

(** [main] (lines 438-591) again, with those calls in order. *)
Definition main_calls (env : startup_env) : list call * main_result :=
  if negb (found env G502) then ([], Returned 1)
  else if negb (found env KeyboardDevice) then ([], Returned 1)
  else if negb (open_uinput_g502 env) then ([], Returned 1)
  else
    let t1 := [Obtain VirtualG502] in
    if negb (g502_key_bits env) then (t1 ++ [Release VirtualG502], Returned 1)
    else if negb (g502_rel_bits env) then (t1 ++ [Release VirtualG502], Returned 1)
    else if negb (g502_dev_create env) then (t1 ++ [Release VirtualG502], Returned 1)
    else if negb (open_uinput_kb env) then (t1 ++ [Release VirtualG502], Returned 1)
    else
      let t2 := t1 ++ [Obtain VirtualKeyboard] in
      let closes := [Release VirtualKeyboard; Release VirtualG502] in
      if negb (kb_ev_key_bit env) then (t2 ++ closes, Returned 1)
      else if negb (kb_msc_bits env) then (t2 ++ closes, Returned 1)
      else if negb (kb_dev_create env) then (t2 ++ closes, Returned 1)
      else if negb (sem_init_ok env) then (t2 ++ closes, Returned 1)
      else
        let t3 := t2 ++ [Obtain Semaphore] in
        let undo := Release Semaphore :: closes in
        if negb (create_kb_output env) then (t3 ++ undo, Returned 1)
        else
          let t4 := t3 ++ [Start KeyboardOutput] in
          if negb (create_kb_input env) then (t4 ++ undo, Returned 1)
          else
            let t5 := t4 ++ [Start KeyboardInput] in
            if negb (create_mouse_io env) then (t5 ++ undo, Returned 1)
            else (t5 ++ [Start MouseIO], Supervising).

Definition resource_eqb (a b : resource) : bool :=
  match a, b with
  | VirtualG502, VirtualG502 | VirtualKeyboard, VirtualKeyboard
  | Semaphore, Semaphore => true
  | _, _ => false
  end.

(** The resources still held after a sequence of calls. *)
Fixpoint still_held (calls : list call) (acc : list resource) : list resource :=
  match calls with
  | [] => acc
  | Obtain r :: rest => still_held rest (acc ++ [r])
  | Release r :: rest => still_held rest (filter (fun x => negb (resource_eqb x r)) acc)
  | Start _ :: rest => still_held rest acc
  end.

Fixpoint started (calls : list call) : list worker :=
  match calls with
  | [] => []
  | Start w :: rest => w :: started rest
  | _ :: rest => started rest
  end.

(** *** Key codes enabled on the virtual keyboard *)

(** Lines 512-514: [for (int code = 0; code < 255; code++)
    ioctl(v_kb_fd, UI_SET_KEYBIT, code);] -- the codes passed, in order. *)
Fixpoint keybit_loop (fuel : nat) (code : Z) : list Z :=
  match fuel with
  | O => []
  | S fuel' => if code <? 255 then code :: keybit_loop fuel' (code + 1) else []
  end.

Definition kb_key_codes : list Z := keybit_loop 256 0.

(** Another button code of linux/input-event-codes.h. *)
Definition BTN_LEFT : Z := 0x110.

(** *** Invariant of every schedule *)

Definition cursors_ok (s : sys) : Prop :=
  ring_wf (s_ring s) /\ 0 <= kb_event_sem (s_ring s).

(** * Properties *)

(** ** The ring buffer *)

Lemma size_eq : EVENT_BUFFER_SIZE = 262144.
Proof. reflexivity. Qed.

Ltac ring_arith :=
  rewrite ?size_eq in *; Z.div_mod_to_equations; lia.

Lemma pending_length (r : kb_ring) :
  length (pending r) = Z.to_nat (pending_count r).
Proof. unfold pending. now rewrite length_map, length_seq. Qed.

Lemma pending_count_range (r : kb_ring) :
  0 <= pending_count r < EVENT_BUFFER_SIZE.
Proof. unfold pending_count. ring_arith. Qed.

Lemma pending_empty (r : kb_ring) :
  head r = tail r -> pending r = [].
Proof.
  intros E. unfold pending, pending_count. rewrite E, Z.sub_diag.
  reflexivity.
Qed.

Lemma full_iff (r : kb_ring) :
  ring_wf r ->
  ((head r + 1) mod EVENT_BUFFER_SIZE = tail r <->
   pending_count r = EVENT_BUFFER_SIZE - 1).
Proof. unfold ring_wf, pending_count. intros [Hh Ht]. split; intros E; ring_arith. Qed.

Lemma enqueue_full (ev : input_event) (r : kb_ring) :
  (head r + 1) mod EVENT_BUFFER_SIZE = tail r -> enqueue ev r = Exited 1.
Proof. intros E. unfold enqueue. now rewrite E, Z.eqb_refl. Qed.

Lemma enqueue_room (ev : input_event) (r : kb_ring) :
  (head r + 1) mod EVENT_BUFFER_SIZE <> tail r ->
  enqueue ev r =
  Running {| kb_event_buffer := store (kb_event_buffer r) (head r) ev;
             head := (head r + 1) mod EVENT_BUFFER_SIZE;
             tail := tail r;
             kb_event_sem := kb_event_sem r |}.
Proof.
  intros E. unfold enqueue.
  destruct (Z.eqb_spec ((head r + 1) mod EVENT_BUFFER_SIZE) (tail r)); [contradiction|reflexivity].
Qed.

Lemma enqueue_inv (ev : input_event) (r r' : kb_ring) :
  enqueue ev r = Running r' ->
  (head r + 1) mod EVENT_BUFFER_SIZE <> tail r /\
  r' = {| kb_event_buffer := store (kb_event_buffer r) (head r) ev;
          head := (head r + 1) mod EVENT_BUFFER_SIZE;
          tail := tail r;
          kb_event_sem := kb_event_sem r |}.
Proof.
  unfold enqueue.
  destruct (Z.eqb_spec ((head r + 1) mod EVENT_BUFFER_SIZE) (tail r)); [discriminate|].
  intros [= <-]. auto.
Qed.

(** Enqueuing appends to the pending entries and moves nothing else. *)
Lemma enqueue_pending (ev : input_event) (r r' : kb_ring) :
  ring_wf r ->
  enqueue ev r = Running r' ->
  pending r' = pending r ++ [ev] /\ ring_wf r' /\
  tail r' = tail r /\ kb_event_sem r' = kb_event_sem r /\
  pending_count r' = pending_count r + 1.
Proof.
  intros [Hh Ht] E. apply enqueue_inv in E. destruct E as [Hne ->].
  assert (Hc : (((head r + 1) mod EVENT_BUFFER_SIZE) - tail r) mod EVENT_BUFFER_SIZE
               = pending_count r + 1)
    by (unfold pending_count; ring_arith).
  unfold ring_wf. cbn [head tail kb_event_sem kb_event_buffer].
  repeat split; try (ring_arith); try assumption.
  unfold pending at 1. unfold pending_count at 1.
  cbn [head tail kb_event_sem kb_event_buffer].
  rewrite Hc.
  pose proof (pending_count_range r) as Hr.
  rewrite Z2Nat.inj_add by lia.
  change (Z.to_nat 1) with 1%nat. rewrite seq_app, map_app. cbn [seq map].
  f_equal.
  - unfold pending. apply map_ext_in. intros k Hk. apply in_seq in Hk.
    unfold store.
    destruct (Z.eqb_spec ((tail r + Z.of_nat k) mod EVENT_BUFFER_SIZE) (head r)) as [Eq|]; [|reflexivity].
    exfalso. unfold pending_count in *. ring_arith.
  - f_equal. unfold store.
    destruct (Z.eqb_spec ((tail r + Z.of_nat (0 + Z.to_nat (pending_count r))) mod EVENT_BUFFER_SIZE) (head r)) as [|Ne]; [reflexivity|].
    exfalso. apply Ne. unfold pending_count in *. ring_arith.
Qed.

(** The unlocked read removes the oldest pending entry. *)
Lemma take_pending (r : kb_ring) :
  ring_wf r ->
  0 < pending_count r ->
  pending r = fst (take r) :: pending (snd (take r)) /\
  ring_wf (snd (take r)) /\
  head (snd (take r)) = head r /\
  kb_event_sem (snd (take r)) = kb_event_sem r /\
  pending_count (snd (take r)) = pending_count r - 1.
Proof.
  intros [Hh Ht] Hpos.
  assert (Hc : (head r - (tail r + 1) mod EVENT_BUFFER_SIZE) mod EVENT_BUFFER_SIZE
               = pending_count r - 1)
    by (unfold pending_count in *; ring_arith).
  unfold ring_wf, take. cbn [fst snd head tail kb_event_sem kb_event_buffer].
  repeat split; try (ring_arith); try assumption.
  unfold pending at 2. unfold pending_count at 1.
  cbn [head tail kb_event_sem kb_event_buffer]. rewrite Hc.
  unfold pending.
  replace (Z.to_nat (pending_count r)) with (S (Z.to_nat (pending_count r - 1))) by lia.
  cbn [seq map]. f_equal.
  - f_equal. ring_arith.
  - rewrite <- seq_shift, map_map. apply map_ext. intros k. f_equal. ring_arith.
Qed.

Lemma drain_sem (fuel : nat) (r : kb_ring) :
  0 <= kb_event_sem r ->
  (Z.to_nat (kb_event_sem r) <= fuel)%nat ->
  kb_event_sem (drain fuel r) = 0 /\
  head (drain fuel r) = head r /\ tail (drain fuel r) = tail r /\
  kb_event_buffer (drain fuel r) = kb_event_buffer r.
Proof.
  revert r. induction fuel as [|fuel IH]; intros r H0 Hle; cbn [drain].
  - repeat split; lia.
  - destruct (Z.ltb_spec 0 (kb_event_sem r)) as [Hpos|Hz].
    + unfold sem_trywait. destruct (Z.ltb_spec 0 (kb_event_sem r)); [|lia].
      match goal with |- context [drain fuel ?x] => destruct (IH x) as (A & B & C & D) end;
        cbn [kb_event_sem]; try lia.
      rewrite A, B, C, D. cbn. auto.
    + repeat split; lia.
Qed.

Lemma clear_keyboard_buffer_spec (r : kb_ring) :
  0 <= kb_event_sem r ->
  head (clear_keyboard_buffer r) = tail r /\
  tail (clear_keyboard_buffer r) = tail r /\
  kb_event_sem (clear_keyboard_buffer r) = 0 /\
  kb_event_buffer (clear_keyboard_buffer r) = kb_event_buffer r.
Proof.
  intros H0. unfold clear_keyboard_buffer.
  match goal with |- context [drain ?n ?x] => destruct (drain_sem n x) as (A & B & C & D) end;
    cbn [kb_event_sem head tail kb_event_buffer] in *; try lia.
  rewrite A, B, C, D. auto.
Qed.

Lemma send_room (ev : input_event) (r : kb_ring) :
  ring_wf r ->
  (head r + 1) mod EVENT_BUFFER_SIZE <> tail r ->
  exists r',
    send_input_event_to_keyboard ev r = Running r' /\
    pending r' = pending r ++ [ev] /\ ring_wf r' /\
    tail r' = tail r /\ kb_event_sem r' = kb_event_sem r + 1 /\
    pending_count r' = pending_count r + 1.
Proof.
  intros Hwf Hne. unfold send_input_event_to_keyboard.
  pose proof (enqueue_room ev r Hne) as E. rewrite E. cbn [bind].
  destruct (enqueue_pending ev r _ Hwf E) as (P & W & T & S & C).
  eexists. split; [reflexivity|].
  unfold sem_post, pending, pending_count, ring_wf in *.
  cbn [head tail kb_event_sem kb_event_buffer] in *.
  repeat split; try tauto; try lia.
Qed.

Lemma to_keyboard_room (ev : input_event) (d : daemon) :
  ring_wf (ring d) ->
  (head (ring d) + 1) mod EVENT_BUFFER_SIZE <> tail (ring d) ->
  exists d',
    to_keyboard ev d = Running d' /\
    pending (ring d') = pending (ring d) ++ [ev] /\ ring_wf (ring d') /\
    tail (ring d') = tail (ring d) /\
    kb_event_sem (ring d') = kb_event_sem (ring d) + 1 /\
    pending_count (ring d') = pending_count (ring d) + 1 /\
    mouse_out d' = mouse_out d /\ kb_out d' = kb_out d /\
    accum_x d' = accum_x d /\ accum_y d' = accum_y d.
Proof.
  intros Hwf Hne. unfold to_keyboard.
  destruct (send_room ev _ Hwf Hne) as (r' & E & P & W & T & S & C).
  rewrite E. cbn [bind]. eexists. split; [reflexivity|].
  cbn [with_ring ring mouse_out kb_out accum_x accum_y]. tauto.
Qed.

Lemma to_keyboard_full (ev : input_event) (d : daemon) :
  (head (ring d) + 1) mod EVENT_BUFFER_SIZE = tail (ring d) ->
  to_keyboard ev d = Exited 1.
Proof.
  intros E. unfold to_keyboard, send_input_event_to_keyboard.
  now rewrite (enqueue_full ev _ E).
Qed.

Lemma room_of_count (r : kb_ring) :
  ring_wf r ->
  pending_count r < EVENT_BUFFER_SIZE - 1 ->
  (head r + 1) mod EVENT_BUFFER_SIZE <> tail r.
Proof. intros Hwf Hc E. apply full_iff in E; [lia|assumption]. Qed.

(** One iteration of the output thread delivers the oldest pending entry. *)
Lemma keyboard_process_o_iter_pending (d : daemon) :
  ring_wf (ring d) ->
  0 < kb_event_sem (ring d) ->
  0 < pending_count (ring d) ->
  exists ev d',
    keyboard_process_o_iter d = Some d' /\
    pending (ring d) = ev :: pending (ring d') /\
    kb_out d' = kb_out d ++ [ev] /\ mouse_out d' = mouse_out d /\
    ring_wf (ring d') /\
    kb_event_sem (ring d') = kb_event_sem (ring d) - 1 /\
    pending_count (ring d') = pending_count (ring d) - 1.
Proof.
  intros Hwf Hs Hc. unfold keyboard_process_o_iter, pop, sem_wait, sem_trywait.
  destruct (Z.ltb_spec 0 (kb_event_sem (ring d))); [|lia].
  match goal with |- context [take ?x] =>
    assert (Hwf' : ring_wf x) by exact Hwf;
    assert (Hc' : 0 < pending_count x) by exact Hc;
    destruct (take_pending x Hwf' Hc') as (P & W & Hh & S & C);
    destruct (take x) as [ev r'] eqn:Et
  end.
  cbn [fst snd] in *. exists ev. eexists. split; [reflexivity|].
  cbn [ring kb_out mouse_out].
  split; [exact P|]. split; [reflexivity|]. split; [reflexivity|].
  split; [exact W|]. split; [exact S|exact C].
Qed.

(** ** C3: push *)

(** C3. [send_input_event_to_keyboard] on a ring of capacity 2^18 whose
    cursors are in range: when the next write position differs from the read
    position it stores the event at the write cursor, advances that cursor by
    one (modulo the capacity), leaves the read cursor alone and increments the
    semaphore, so that the event is the newest pending entry; when the next
    write position equals the read position, which is exactly when 2^18 - 1
    entries are pending, the process exits with status 1. *)
Theorem send_input_event_to_keyboard_spec (ev : input_event) (r : kb_ring) :
  ring_wf r ->
  EVENT_BUFFER_SIZE = 2 ^ 18 /\
  ((head r + 1) mod EVENT_BUFFER_SIZE <> tail r ->
   exists r',
     send_input_event_to_keyboard ev r = Running r' /\
     kb_event_buffer r' (head r) = ev /\
     (forall i, i <> head r -> kb_event_buffer r' i = kb_event_buffer r i) /\
     head r' = (head r + 1) mod EVENT_BUFFER_SIZE /\
     tail r' = tail r /\
     kb_event_sem r' = kb_event_sem r + 1 /\
     ring_wf r' /\
     pending r' = pending r ++ [ev]) /\
  ((head r + 1) mod EVENT_BUFFER_SIZE = tail r ->
   send_input_event_to_keyboard ev r = Exited 1 /\ 1 <> 0) /\
  ((head r + 1) mod EVENT_BUFFER_SIZE = tail r <->
   pending_count r = 2 ^ 18 - 1).
Proof.
  intros Hwf. split; [reflexivity|]. split; [|split].
  - intros Hne.
    destruct (send_room ev r Hwf Hne) as (r' & E & P & W & T & S & C).
    exists r'. split; [exact E|].
    unfold send_input_event_to_keyboard in E.
    rewrite (enqueue_room ev r Hne) in E. cbn [bind] in E.
    injection E as <-. unfold sem_post, store in *.
    cbn [head tail kb_event_sem kb_event_buffer] in *.
    rewrite Z.eqb_refl. split; [reflexivity|]. split.
    { intros i Hi. destruct (Z.eqb_spec i (head r)); [contradiction|reflexivity]. }
    split; [reflexivity|]. split; [reflexivity|]. split; [reflexivity|].
    split; [exact W|exact P].
  - intros E. split; [|discriminate].
    unfold send_input_event_to_keyboard. now rewrite (enqueue_full ev r E).
  - exact (full_iff r Hwf).
Qed.

Lemma send_input_event_to_keyboard_spec_witness :
  ring_wf ring_init /\
  exists r', send_input_event_to_keyboard (mk_event 7 EV_KEY 30 1) ring_init = Running r' /\
             pending r' = [mk_event 7 EV_KEY 30 1].
Proof.
  assert (W : ring_wf ring_init) by (unfold ring_wf; cbn; lia).
  split; [exact W|].
  destruct (send_input_event_to_keyboard_spec (mk_event 7 EV_KEY 30 1) ring_init W)
    as (_ & Hroom & _).
  destruct Hroom as (r' & E & _ & _ & _ & _ & _ & _ & P); [cbn; lia|].
  exists r'. split; [exact E|exact P].
Defined.

Lemma keyboard_read_failure_spec (d : daemon) :
  ring_wf (ring d) ->
  0 <= kb_event_sem (ring d) ->
  let d' := keyboard_read_failure d in
  ring_wf (ring d') /\ head (ring d') = tail (ring d') /\
  kb_event_sem (ring d') = 0 /\ pending_count (ring d') = 0 /\
  pending (ring d') = [] /\
  mouse_out d' = mouse_out d /\ kb_out d' = kb_out d.
Proof.
  intros [Hh Ht] H0. cbv zeta. unfold keyboard_read_failure.
  cbn [with_ring ring mouse_out kb_out].
  destruct (clear_keyboard_buffer_spec (ring d) H0) as (A & B & C & D).
  assert (E : head (clear_keyboard_buffer (ring d)) = tail (clear_keyboard_buffer (ring d)))
    by congruence.
  unfold ring_wf, pending_count. rewrite (pending_empty _ E), A, B, C, Z.sub_diag.
  repeat split; try reflexivity; lia.
Qed.

(** Once the producers are quiet, the output thread delivers every pending
    entry, oldest first. *)
Lemma keyboard_process_o_drains (n : nat) (d : daemon) :
  ring_wf (ring d) ->
  kb_event_sem (ring d) = pending_count (ring d) ->
  n = length (pending (ring d)) ->
  exists d',
    keyboard_process_o_iters n d = Some d' /\
    kb_out d' = kb_out d ++ pending (ring d) /\
    mouse_out d' = mouse_out d /\
    pending (ring d') = [] /\ kb_event_sem (ring d') = 0.
Proof.
  revert d. induction n as [|n IH]; intros d Hwf Hs Hn.
  - cbn [keyboard_process_o_iters]. exists d.
    assert (P : pending (ring d) = [])
      by (symmetry in Hn; now apply length_zero_iff_nil).
    assert (C0 : pending_count (ring d) = 0).
    { pose proof (pending_length (ring d)) as L. rewrite P in L. cbn in L.
      pose proof (pending_count_range (ring d)). lia. }
    rewrite P, app_nil_r. repeat split; try reflexivity; lia.
  - rewrite pending_length in Hn.
    destruct (keyboard_process_o_iter_pending d Hwf) as (ev & d1 & E & P & K & M & W & S & C);
      try lia.
    cbn [keyboard_process_o_iters]. rewrite E.
    destruct (IH d1 W) as (d' & E' & K' & M' & P' & S'); try lia.
    { rewrite pending_length. lia. }
    exists d'. split; [exact E'|].
    rewrite K', K, P, <- app_assoc, M', M. cbn [app]. auto.
Qed.

(** ** C1: side buttons *)

(** C1. A mouse [EV_KEY] event whose code is [BTN_SIDE] or [BTN_EXTRA] is
    pushed once into the keyboard ring with its code replaced by
    [KEY_LEFTSHIFT] or [KEY_LEFTCTRL] and its value (1, 0 or 2) and timestamp
    kept, and nothing is written to the virtual mouse for it (when the ring
    is full the push ends the process instead, and nothing is written
    either).  A second such event for the same button (the release after the
    press) follows it in the ring, and the output thread then writes the two
    remapped events to the virtual keyboard in that order, the virtual mouse
    still having received neither. *)
Theorem side_button_to_modifier (d : daemon) (ev1 ev2 : input_event) :
  ring_wf (ring d) ->
  type ev1 = EV_KEY -> type ev2 = EV_KEY ->
  code ev1 = BTN_SIDE \/ code ev1 = BTN_EXTRA ->
  code ev2 = code ev1 ->
  let k := if code ev1 =? BTN_SIDE then KEY_LEFTSHIFT else KEY_LEFTCTRL in
  value (with_code ev1 k) = value ev1 /\
  ((head (ring d) + 1) mod EVENT_BUFFER_SIZE = tail (ring d) ->
   mouse_event ev1 d = Exited 1) /\
  ((head (ring d) + 1) mod EVENT_BUFFER_SIZE <> tail (ring d) ->
   exists d1,
     mouse_event ev1 d = Running d1 /\
     pending (ring d1) = pending (ring d) ++ [with_code ev1 k] /\
     kb_event_sem (ring d1) = kb_event_sem (ring d) + 1 /\
     mouse_out d1 = mouse_out d /\ kb_out d1 = kb_out d) /\
  (pending_count (ring d) < EVENT_BUFFER_SIZE - 2 ->
   exists d2,
     mouse_events [ev1; ev2] d = Running d2 /\
     pending (ring d2) = pending (ring d) ++ [with_code ev1 k; with_code ev2 k] /\
     mouse_out d2 = mouse_out d /\
     (kb_event_sem (ring d) = pending_count (ring d) ->
      exists d3,
        keyboard_process_o_iters (length (pending (ring d2))) d2 = Some d3 /\
        kb_out d3 = kb_out d ++ pending (ring d) ++ [with_code ev1 k; with_code ev2 k] /\
        mouse_out d3 = mouse_out d)).
Proof.
  intros Hwf T1 T2 B1 B2 k. split; [reflexivity|].
  assert (H1 : forall d0, mouse_event ev1 d0 = to_keyboard (with_code ev1 k) d0).
  { intros d0. unfold mouse_event. rewrite T1. cbn [Z.eqb EV_KEY Pos.eqb].
    subst k. destruct B1 as [B|B]; rewrite B; reflexivity. }
  assert (H2 : forall d0, mouse_event ev2 d0 = to_keyboard (with_code ev2 k) d0).
  { intros d0. unfold mouse_event. rewrite T2. cbn [Z.eqb EV_KEY Pos.eqb].
    subst k. rewrite B2. destruct B1 as [B|B]; rewrite B; reflexivity. }
  split; [|split].
  - intros F. rewrite H1. now apply to_keyboard_full.
  - intros R0.
    destruct (to_keyboard_room (with_code ev1 k) d Hwf R0)
      as (d1 & E1 & P1 & W1 & _ & S1 & C1 & M1 & K1 & _).
    exists d1. rewrite H1. auto.
  - intros Hc.
    assert (R0 : (head (ring d) + 1) mod EVENT_BUFFER_SIZE <> tail (ring d))
      by (apply room_of_count; [assumption|lia]).
    destruct (to_keyboard_room (with_code ev1 k) d Hwf R0)
      as (d1 & E1 & P1 & W1 & _ & S1 & C1 & M1 & K1 & _).
    assert (R1 : (head (ring d1) + 1) mod EVENT_BUFFER_SIZE <> tail (ring d1))
      by (apply room_of_count; [assumption|lia]).
    destruct (to_keyboard_room (with_code ev2 k) d1 W1 R1)
      as (d2 & E2 & P2 & W2 & _ & S2 & C2 & M2 & K2 & _).
    assert (P2' : pending (ring d2) = pending (ring d) ++ [with_code ev1 k; with_code ev2 k])
      by (rewrite P2, P1, <- app_assoc; reflexivity).
    exists d2. cbn [mouse_events]. rewrite H1, E1. cbn [bind]. rewrite H2, E2. cbn [bind].
    split; [reflexivity|]. split; [exact P2'|]. split; [congruence|].
    intros Hs.
    destruct (keyboard_process_o_drains (length (pending (ring d2))) d2 W2)
      as (d3 & E3 & K3 & M3 & _); [lia|reflexivity|].
    exists d3. split; [exact E3|]. split; [|congruence].
    rewrite K3, P2'. congruence.
Qed.

Lemma side_button_to_modifier_witness :
  exists d2 d3,
    mouse_events [mk_event 10 EV_KEY BTN_SIDE 1; mk_event 11 EV_KEY BTN_SIDE 0] daemon_init
    = Running d2 /\
    keyboard_process_o_iters 2 d2 = Some d3 /\
    kb_out d3 = [mk_event 10 EV_KEY KEY_LEFTSHIFT 1; mk_event 11 EV_KEY KEY_LEFTSHIFT 0] /\
    mouse_out d3 = [].
Proof.
  assert (W : ring_wf (ring daemon_init)) by (unfold ring_wf; cbn; lia).
  destruct (side_button_to_modifier daemon_init
              (mk_event 10 EV_KEY BTN_SIDE 1) (mk_event 11 EV_KEY BTN_SIDE 0)
              W eq_refl eq_refl (or_introl eq_refl) eq_refl)
    as (_ & _ & _ & H).
  destruct H as (d2 & E2 & P2 & M2 & H); [cbn; lia|].
  destruct H as (d3 & E3 & K3 & M3); [reflexivity|].
  exists d2, d3. rewrite P2 in E3.
  split; [exact E2|]. split; [exact E3|]. split; [exact K3|exact M3].
Defined.

(** ** C6: synchronization markers *)

(** C6. A mouse [EV_SYN] event is pushed once, unchanged, into the keyboard
    ring and then written once, unchanged, to the virtual mouse. *)
Theorem sync_goes_to_both (d : daemon) (ev : input_event) :
  ring_wf (ring d) ->
  (head (ring d) + 1) mod EVENT_BUFFER_SIZE <> tail (ring d) ->
  type ev = EV_SYN ->
  exists d',
    mouse_event ev d = Running d' /\
    pending (ring d') = pending (ring d) ++ [ev] /\
    kb_event_sem (ring d') = kb_event_sem (ring d) + 1 /\
    mouse_out d' = mouse_out d ++ [ev].
Proof.
  intros Hwf R T.
  destruct (to_keyboard_room ev d Hwf R) as (d1 & E & P & _ & _ & S & _ & M & _).
  exists (to_mouse ev d1).
  unfold mouse_event. rewrite T, E. cbn [Z.eqb EV_SYN EV_KEY EV_REL EV_MSC bind].
  cbn [to_mouse ring mouse_out]. rewrite M. auto.
Qed.

Lemma sync_goes_to_both_witness :
  exists d',
    mouse_event (mk_event 3 EV_SYN 0 0) daemon_init = Running d' /\
    pending (ring d') = [mk_event 3 EV_SYN 0 0] /\
    mouse_out d' = [mk_event 3 EV_SYN 0 0].
Proof.
  assert (W : ring_wf (ring daemon_init)) by (unfold ring_wf; cbn; lia).
  assert (R : (head (ring daemon_init) + 1) mod EVENT_BUFFER_SIZE <> tail (ring daemon_init))
    by (cbn; lia).
  destruct (sync_goes_to_both daemon_init (mk_event 3 EV_SYN 0 0) W R eq_refl)
    as (d' & E & P & _ & M).
  exists d'. split; [exact E|]. split; [exact P|exact M].
Defined.

(** ** C7: scan codes *)

(** C7. A mouse [EV_MSC]/[MSC_SCAN] event whose value is 0x90004 is pushed
    into the keyboard ring with the value 0x70004, one whose value is 0x90005
    with the value 0x70005, and neither is written to the virtual mouse; any
    other scan-code event is written unchanged to the virtual mouse and the
    ring is left alone. *)
Theorem scan_code_routing (d : daemon) (ev : input_event) :
  ring_wf (ring d) ->
  type ev = EV_MSC -> code ev = MSC_SCAN ->
  (SCAN_BTN_SIDE = 0x90004 /\ SCAN_BTN_EXTRA = 0x90005 /\
   SCAN_KEY_SHIFT = 0x70004 /\ SCAN_KEY_CTRL = 0x70005) /\
  (forall scan key,
     (scan = SCAN_BTN_SIDE /\ key = SCAN_KEY_SHIFT) \/
     (scan = SCAN_BTN_EXTRA /\ key = SCAN_KEY_CTRL) ->
     value ev = scan ->
     (head (ring d) + 1) mod EVENT_BUFFER_SIZE <> tail (ring d) ->
     exists d',
       mouse_event ev d = Running d' /\
       pending (ring d') = pending (ring d) ++ [with_value ev key] /\
       kb_event_sem (ring d') = kb_event_sem (ring d) + 1 /\
       mouse_out d' = mouse_out d) /\
  (value ev <> SCAN_BTN_SIDE -> value ev <> SCAN_BTN_EXTRA ->
   exists d',
     mouse_event ev d = Running d' /\
     mouse_out d' = mouse_out d ++ [ev] /\
     ring d' = ring d).
Proof.
  intros Hwf T C. split; [repeat split|]. split.
  - intros scan key Hk V R.
    destruct (to_keyboard_room (with_value ev key) d Hwf R)
      as (d' & E & P & _ & _ & S & _ & M & _).
    exists d'. split; [|auto].
    unfold mouse_event. rewrite T, C, V.
    destruct Hk as [[-> ->]|[-> ->]]; exact E.
  - intros N1 N2. exists (to_mouse ev d).
    unfold mouse_event. rewrite T, C.
    cbn [Z.eqb EV_MSC EV_KEY EV_REL MSC_SCAN Pos.eqb].
    destruct (Z.eqb_spec (value ev) SCAN_BTN_SIDE); [contradiction|].
    destruct (Z.eqb_spec (value ev) SCAN_BTN_EXTRA); [contradiction|].
    auto.
Qed.

Lemma scan_code_routing_witness :
  exists d',
    mouse_event (mk_event 5 EV_MSC MSC_SCAN 0x90004) daemon_init = Running d' /\
    pending (ring d') = [mk_event 5 EV_MSC MSC_SCAN 0x70004] /\
    mouse_out d' = [].
Proof.
  assert (W : ring_wf (ring daemon_init)) by (unfold ring_wf; cbn; lia).
  destruct (scan_code_routing daemon_init (mk_event 5 EV_MSC MSC_SCAN 0x90004)
              W eq_refl eq_refl) as (_ & H & _).
  destruct (H SCAN_BTN_SIDE SCAN_KEY_SHIFT (or_introl (conj eq_refl eq_refl)) eq_refl)
    as (d' & E & P & _ & M); [cbn; lia|].
  exists d'. split; [exact E|]. split; [exact P|exact M].
Defined.

(** ** C9: what a purge discards *)

(** C9. [clear_keyboard_buffer] empties the ring whoever filled it.  A
    remapped side-button event that the mouse thread has pushed and the output
    thread has not yet read is dropped by the purge of a keyboard read
    failure, while the next event for the same button, pushed after the purge,
    is delivered: the virtual keyboard receives the second modifier event
    without the first. *)
Theorem purge_drops_pending_modifier (d : daemon) (ev1 ev2 : input_event) :
  ring_wf (ring d) ->
  0 <= kb_event_sem (ring d) ->
  (head (ring d) + 1) mod EVENT_BUFFER_SIZE <> tail (ring d) ->
  type ev1 = EV_KEY -> type ev2 = EV_KEY ->
  code ev1 = BTN_SIDE \/ code ev1 = BTN_EXTRA ->
  code ev2 = code ev1 ->
  let k := if code ev1 =? BTN_SIDE then KEY_LEFTSHIFT else KEY_LEFTCTRL in
  exists d1 d2 d3,
    mouse_event ev1 d = Running d1 /\
    pending (ring d1) = pending (ring d) ++ [with_code ev1 k] /\
    pending (ring (keyboard_read_failure d1)) = [] /\
    mouse_event ev2 (keyboard_read_failure d1) = Running d2 /\
    pending (ring d2) = [with_code ev2 k] /\
    keyboard_process_o_iter d2 = Some d3 /\
    kb_out d3 = kb_out d ++ [with_code ev2 k] /\
    pending (ring d3) = [] /\
    keyboard_process_o_iter d3 = None.
Proof.
  intros Hwf H0 R0 T1 T2 B1 B2 k.
  destruct (to_keyboard_room (with_code ev1 k) d Hwf R0)
    as (d1 & E1 & P1 & W1 & _ & S1 & C1 & M1 & K1 & _).
  assert (H1 : mouse_event ev1 d = Running d1).
  { unfold mouse_event. rewrite T1. cbn [Z.eqb EV_KEY Pos.eqb].
    rewrite <- E1. subst k.
    destruct B1 as [B|B]; rewrite B; reflexivity. }
  destruct (keyboard_read_failure_spec d1 W1) as (Wp & Ep & Sp & Cp & Pp & Mp & Kp); [lia|].
  set (dp := keyboard_read_failure d1) in *.
  assert (Rp : (head (ring dp) + 1) mod EVENT_BUFFER_SIZE <> tail (ring dp)).
  { apply room_of_count; [assumption|]. rewrite Cp, size_eq. lia. }
  destruct (to_keyboard_room (with_code ev2 k) dp Wp Rp)
    as (d2 & E2 & P2 & W2 & _ & S2 & C2 & M2 & K2 & _).
  assert (H2 : mouse_event ev2 dp = Running d2).
  { unfold mouse_event. rewrite T2. cbn [Z.eqb EV_KEY Pos.eqb].
    rewrite <- E2. subst k. rewrite B2.
    destruct B1 as [B|B]; rewrite B; reflexivity. }
  rewrite Pp in P2. cbn [app] in P2.
  destruct (keyboard_process_o_iter_pending d2 W2) as (ev & d3 & E3 & P3 & K3 & M3 & W3 & S3 & C3);
    try lia.
  rewrite P2 in P3. injection P3 as <- P3.
  exists d1, d2, d3.
  repeat (split; [first [assumption | congruence]|]).
  unfold keyboard_process_o_iter, pop, sem_wait, sem_trywait.
  destruct (Z.ltb_spec 0 (kb_event_sem (ring d3))); [lia|reflexivity].
Qed.

Lemma purge_drops_pending_modifier_witness :
  exists d1 d2 d3,
    mouse_event (mk_event 10 EV_KEY BTN_EXTRA 1) daemon_init = Running d1 /\
    mouse_event (mk_event 11 EV_KEY BTN_EXTRA 0) (keyboard_read_failure d1) = Running d2 /\
    keyboard_process_o_iter d2 = Some d3 /\
    kb_out d3 = [mk_event 11 EV_KEY KEY_LEFTCTRL 0].
Proof.
  assert (W : ring_wf (ring daemon_init)) by (unfold ring_wf; cbn; lia).
  assert (R : (head (ring daemon_init) + 1) mod EVENT_BUFFER_SIZE <> tail (ring daemon_init))
    by (cbn; lia).
  destruct (purge_drops_pending_modifier daemon_init
              (mk_event 10 EV_KEY BTN_EXTRA 1) (mk_event 11 EV_KEY BTN_EXTRA 0)
              W (Z.le_refl 0) R eq_refl eq_refl (or_intror eq_refl) eq_refl)
    as (d1 & d2 & d3 & E1 & _ & _ & E2 & _ & E3 & K & _).
  exists d1, d2, d3. split; [exact E1|]. split; [exact E2|]. split; [exact E3|exact K].
Defined.

(** ** C4: order of delivery *)

Lemma keyboard_events_pending (evs : list input_event) (d : daemon) :
  ring_wf (ring d) ->
  pending_count (ring d) + Z.of_nat (length evs) < EVENT_BUFFER_SIZE ->
  exists d',
    keyboard_events evs d = Running d' /\
    pending (ring d') = pending (ring d) ++ evs /\ ring_wf (ring d') /\
    kb_event_sem (ring d') = kb_event_sem (ring d) + Z.of_nat (length evs) /\
    pending_count (ring d') = pending_count (ring d) + Z.of_nat (length evs) /\
    mouse_out d' = mouse_out d /\ kb_out d' = kb_out d.
Proof.
  revert d. induction evs as [|ev evs IH]; intros d Hwf Hc; cbn [keyboard_events length] in *.
  - exists d. rewrite app_nil_r. repeat split; try assumption; try lia; apply Hwf.
  - assert (R : (head (ring d) + 1) mod EVENT_BUFFER_SIZE <> tail (ring d))
      by (apply room_of_count; [assumption|lia]).
    destruct (to_keyboard_room ev d Hwf R) as (d1 & E1 & P1 & W1 & _ & S1 & C1 & M1 & K1 & _).
    unfold keyboard_event. rewrite E1. cbn [bind].
    destruct (IH d1 W1) as (d' & E & P & W & S & C & M & K); [lia|].
    exists d'. split; [exact E|].
    rewrite P, P1, <- app_assoc. cbn [app].
    repeat split; try apply W; try congruence; lia.
Qed.

Lemma step_inv (a : action) (s s' : sys) :
  sys_inv s ->
  is_purge a = false ->
  step a s = Some (Running s') ->
  sys_inv s' /\
  delivered s' ++ pending (s_ring s') =
  delivered s ++ pending (s_ring s) ++ enqueued [a].
Proof.
  intros (Hwf & H0 & Hc) Hp Hs. unfold sys_inv.
  destruct a as [p ev|p| | | | | |]; cbn [step enqueued] in *; try discriminate.
  - destruct (post_due p s) eqn:Hd; [discriminate|].
    destruct (purging s) eqn:Hg; [discriminate|]. cbn [orb] in Hs.
    destruct (enqueue ev (s_ring s)) as [r|c] eqn:E; cbn [bind] in Hs; [|discriminate].
    injection Hs as <-.
    destruct (enqueue_pending ev _ _ Hwf E) as (P & W & T & S & C).
    destruct p; cbn [post_due set_post_due s_ring woken post_due_mouse post_due_keyboard delivered] in *;
      rewrite P, Hd in *; cbn [b2z] in *;
      (split; [repeat split; try apply W; lia|reflexivity]).
  - destruct (post_due p s) eqn:Hd; [|discriminate].
    injection Hs as <-.
    destruct p; cbn [post_due set_post_due s_ring woken post_due_mouse post_due_keyboard delivered] in *;
      rewrite Hd in *; cbn [b2z] in *;
      change (pending (sem_post (s_ring s))) with (pending (s_ring s));
      change (pending_count (sem_post (s_ring s))) with (pending_count (s_ring s));
      change (ring_wf (sem_post (s_ring s))) with (ring_wf (s_ring s));
      cbn [sem_post kb_event_sem]; rewrite app_nil_r;
      (split; [repeat split; try apply Hwf; lia|reflexivity]).
  - destruct (woken s) eqn:Hw; [discriminate|].
    unfold sem_wait, sem_trywait in Hs.
    destruct (Z.ltb_spec 0 (kb_event_sem (s_ring s))); [|discriminate].
    injection Hs as <-.
    cbn [s_ring woken post_due_mouse post_due_keyboard delivered].
    match goal with |- context [pending ?x] => change (pending x) with (pending (s_ring s)) end.
    match goal with |- context [pending_count ?x] =>
      change (pending_count x) with (pending_count (s_ring s)) end.
    match goal with |- context [ring_wf ?x] => change (ring_wf x) with (ring_wf (s_ring s)) end.
    cbn [kb_event_sem b2z] in *. rewrite app_nil_r.
    split; [repeat split; try apply Hwf; lia|reflexivity].
  - destruct (woken s) eqn:Hw; [|discriminate].
    cbn [b2z] in Hc.
    assert (Hpos : 0 < pending_count (s_ring s))
      by (destruct (post_due_mouse s), (post_due_keyboard s); cbn [b2z] in Hc; lia).
    destruct (take_pending (s_ring s) Hwf Hpos) as (P & W & Hh & S & C).
    destruct (take (s_ring s)) as [ev r] eqn:Et. cbn [fst snd] in *.
    injection Hs as <-.
    cbn [s_ring woken post_due_mouse post_due_keyboard delivered b2z].
    rewrite P, app_nil_r, <- app_assoc. cbn [app].
    split; [repeat split; try apply W; lia|reflexivity].
Qed.

Lemma exec_inv (sched : list action) (s s' : sys) :
  sys_inv s ->
  purge_free sched = true ->
  exec sched s = Some (Running s') ->
  sys_inv s' /\
  delivered s' ++ pending (s_ring s') =
  delivered s ++ pending (s_ring s) ++ enqueued sched.
Proof.
  revert s. induction sched as [|a sched IH]; intros s Hi Hp He; cbn [exec] in He.
  - injection He as <-. cbn [enqueued]. now rewrite app_nil_r.
  - cbn [purge_free forallb] in Hp. apply andb_true_iff in Hp as [Ha Hp].
    apply negb_true_iff in Ha.
    destruct (step a s) as [[s1|c]|] eqn:Hs; try discriminate.
    destruct (step_inv a s s1 Hi Ha Hs) as (Hi1 & D1).
    destruct (IH s1 Hi1 Hp He) as (Hi' & D').
    split; [exact Hi'|].
    rewrite D', app_assoc, D1, <- !app_assoc. f_equal. f_equal.
    destruct a; reflexivity.
Qed.

Lemma sys_init_inv : sys_inv sys_init.
Proof. unfold sys_inv, ring_wf. cbn. lia. Qed.

(** C4. The ring is first-in first-out.  In every interleaving of the
    producers' critical sections and posts with the output thread's waits and
    reads that contains no purge, what the output thread has delivered so
    far, followed by what is still pending, is the sequence of enqueued
    events in the order they were enqueued; once nothing is pending the
    delivered sequence is that order.  In particular any run of fewer than
    2^18 - 1 keyboard events is accepted and then delivered to the virtual
    keyboard by as many iterations of the output thread, in the order read. *)
Theorem transport_is_fifo :
  (forall sched s,
     purge_free sched = true ->
     exec sched sys_init = Some (Running s) ->
     delivered s ++ pending (s_ring s) = enqueued sched /\
     (pending (s_ring s) = [] -> delivered s = enqueued sched)) /\
  (forall evs,
     Z.of_nat (length evs) < EVENT_BUFFER_SIZE - 1 ->
     exists d1 d2,
       keyboard_events evs daemon_init = Running d1 /\
       keyboard_process_o_iters (length evs) d1 = Some d2 /\
       kb_out d2 = evs).
Proof.
  split.
  - intros sched s Hp He.
    destruct (exec_inv sched sys_init s sys_init_inv Hp He) as (_ & D).
    cbn [sys_init delivered s_ring app] in D.
    rewrite (pending_empty ring_init eq_refl) in D. cbn [app] in D.
    split; [exact D|]. intros E. now rewrite E, app_nil_r in D.
  - intros evs Hlen.
    assert (W : ring_wf (ring daemon_init)) by (unfold ring_wf; cbn; lia).
    destruct (keyboard_events_pending evs daemon_init W) as (d1 & E1 & P1 & W1 & S1 & C1 & M1 & K1).
    { change (pending_count (ring daemon_init)) with 0. lia. }
    rewrite (pending_empty (ring daemon_init) eq_refl) in P1. cbn [app] in P1.
    destruct (keyboard_process_o_drains (length evs) d1 W1) as (d2 & E2 & K2 & _).
    { rewrite S1, C1. reflexivity. }
    { now rewrite P1. }
    exists d1, d2. split; [exact E1|]. split; [exact E2|].
    rewrite K2, K1, P1. reflexivity.
Qed.

Lemma transport_is_fifo_witness :
  let e1 := mk_event 1 EV_KEY 30 1 in
  let e2 := mk_event 2 EV_KEY KEY_LEFTSHIFT 1 in
  let sched := [Enqueue Keyboard e1; Post Keyboard; Enqueue Mouse e2; Wait; Take;
                Post Mouse; Wait; Take] in
  purge_free sched = true /\
  exists s,
    exec sched sys_init = Some (Running s) /\
    delivered s ++ pending (s_ring s) = [e1; e2].
Proof.
  intros e1 e2 sched. split; [reflexivity|].
  eexists. split; [vm_compute; reflexivity|].
  match goal with
  | |- delivered ?s ++ _ = _ =>
      exact (proj1 (proj1 transport_is_fifo sched s eq_refl eq_refl))
  end.
Defined.

(** ** C5: purge *)

(** Run on its own, [clear_keyboard_buffer] leaves the two cursors equal, the
    semaphore at zero and nothing pending. *)
Lemma purge_postcondition (r : kb_ring) :
  0 <= kb_event_sem r ->
  head (clear_keyboard_buffer r) = tail (clear_keyboard_buffer r) /\
  kb_event_sem (clear_keyboard_buffer r) = 0 /\
  pending (clear_keyboard_buffer r) = [].
Proof.
  intros H0. destruct (clear_keyboard_buffer_spec r H0) as (A & B & C & _).
  assert (E : head (clear_keyboard_buffer r) = tail (clear_keyboard_buffer r)) by congruence.
  split; [exact E|]. split; [exact C|]. now apply pending_empty.
Qed.

(** C5. The purge can run between the output thread's [sem_wait] and its
    unlocked read of [tail].  The keyboard thread enqueues [e] and posts, the
    output thread is woken, the keyboard read fails and the buffer is
    cleared: when the purge returns the cursors are equal and the semaphore
    is zero, yet the output thread then delivers [e], which was enqueued
    before the purge, and moves [tail] past [head]; the next send from either
    producer finds the next write position equal to [tail] and ends the
    process with status 1.  The same happens when the purge runs between the
    mouse thread's unlock and its [sem_post]. *)
Theorem purge_races_with_output (e : input_event) :
  (exists s4 s5,
     exec [Enqueue Keyboard e; Post Keyboard; Wait; Purge] sys_init = Some (Running s4) /\
     head (s_ring s4) = tail (s_ring s4) /\
     kb_event_sem (s_ring s4) = 0 /\
     delivered s4 = [] /\
     step Take s4 = Some (Running s5) /\
     delivered s5 = [e] /\
     head (s_ring s5) = 0 /\ tail (s_ring s5) = 1 /\
     kb_event_sem (s_ring s5) = 0 /\
     forall p e', step (Enqueue p e') s5 = Some (Exited 1)) /\
  (exists s2 s5,
     exec [Enqueue Mouse e; Purge] sys_init = Some (Running s2) /\
     head (s_ring s2) = tail (s_ring s2) /\
     kb_event_sem (s_ring s2) = 0 /\
     delivered s2 = [] /\
     exec [Post Mouse; Wait; Take] s2 = Some (Running s5) /\
     delivered s5 = [e] /\
     head (s_ring s5) = 0 /\ tail (s_ring s5) = 1 /\
     forall p e', step (Enqueue p e') s5 = Some (Exited 1)).
Proof.
  split.
  - eexists. eexists.
    split; [vm_compute; reflexivity|].
    repeat (split; [reflexivity|]).
    intros [|] e'; reflexivity.
  - eexists. eexists.
    split; [vm_compute; reflexivity|].
    do 3 (split; [reflexivity|]).
    split; [vm_compute; reflexivity|].
    repeat (split; [reflexivity|]).
    intros [|] e'; reflexivity.
Qed.

(** ** C8: terminal exits *)

Lemma mouse_failures_alive (fs : list (Z * Z)) (t : thread) (d : daemon) :
  alive t = true ->
  exists t' d',
    mouse_failures fs (t, d) = Running (t', d') /\
    alive t' = true /\
    acquire_calls t' = acquire_calls t + Z.of_nat (length fs) /\
    ring d' = ring d /\ mouse_out d' = mouse_out d /\ kb_out d' = kb_out d.
Proof.
  revert t d. induction fs as [|[errno f] fs IH]; intros t d Ha; cbn [mouse_failures length].
  - exists t, d. repeat split; try assumption; lia.
  - unfold mouse_thread_io_func_iter, reopen_device. rewrite Ha. cbn [negb].
    destruct (f <? 0); cbn [Z.eqb bind];
      match goal with |- context [mouse_failures fs (?t1, ?d1)] =>
        destruct (IH t1 d1 eq_refl) as (t' & d' & E & A & C & R & M & K)
      end;
      exists t', d'; rewrite E;
      cbn [with_failures acquire_calls reset_accumulators ring mouse_out kb_out] in *;
      repeat split; try assumption; try congruence; lia.
Qed.

Lemma keyboard_failures_alive (fs : list (Z * Z)) (t : thread) (d : daemon) :
  alive t = true ->
  exists t' d',
    keyboard_failures fs (t, d) = Running (t', d') /\
    alive t' = true /\
    acquire_calls t' = acquire_calls t + Z.of_nat (length fs) /\
    mouse_out d' = mouse_out d /\ kb_out d' = kb_out d.
Proof.
  revert t d. induction fs as [|[errno f] fs IH]; intros t d Ha; cbn [keyboard_failures length].
  - exists t, d. repeat split; try assumption; lia.
  - unfold keyboard_process_i_iter, reopen_device. rewrite Ha. cbn [negb].
    destruct (f <? 0); cbn [Z.eqb bind];
      match goal with |- context [keyboard_failures fs (?t1, ?d1)] =>
        destruct (IH t1 d1 eq_refl) as (t' & d' & E & A & C & M & K)
      end;
      exists t', d'; rewrite E;
      cbn [with_failures acquire_calls keyboard_read_failure with_ring ring mouse_out kb_out] in *;
      repeat split; try assumption; try congruence; lia.
Qed.

(** C8 as stated, refuted: [main] does not return a status only when one of
    the two physical devices is not found.  With both devices found and
    [/dev/uinput] refusing to open it returns 1 as well. *)
Lemma locate_failure_is_not_the_only_startup_exit :
  let env := mk_env (fun _ => true) false true true true true true true true true true true true in
  found env G502 = true /\ found env KeyboardDevice = true /\
  main env = ([G502; KeyboardDevice], Returned 1) /\
  ~ (forall env c,
       snd (main env) = Returned c ->
       found env G502 = false \/ found env KeyboardDevice = false).
Proof.
  intros env. split; [reflexivity|]. split; [reflexivity|]. split; [reflexivity|].
  intros H. destruct (H env 1 eq_refl) as [E|E]; discriminate E.
Qed.

(** C8, amended.  When [find_event_device] does not find a physical device
    at start-up, [main] returns 1 having looked for that device once.  Every
    status [main] returns before the joins is 1, and it returns one exactly
    when a device is not found or a later set-up step (virtual devices,
    semaphore, threads) fails.  A failed read in a running producer thread,
    whatever its [errno] and whether or not the reopen succeeds, leaves the
    thread in its loop and the process running, with one more attempt to
    reacquire the device per failure. *)
Theorem startup_and_read_failures (env : startup_env) (dev : device)
    (fs : list (Z * Z)) (t : thread) (d : daemon) :
  alive t = true ->
  (found env dev = false ->
   snd (main env) = Returned 1 /\
   NoDup (fst (main env)) /\
   exists before missing,
     fst (main env) = before ++ [missing] /\
     found env missing = false /\
     forall x, In x before -> found env x = true) /\
  (forall c, snd (main env) = Returned c -> c = 1) /\
  (snd (main env) = Supervising <->
   found env G502 && found env KeyboardDevice &&
   open_uinput_g502 env && g502_key_bits env && g502_rel_bits env &&
   g502_dev_create env && open_uinput_kb env && kb_ev_key_bit env &&
   kb_msc_bits env && kb_dev_create env && sem_init_ok env &&
   create_kb_output env && create_kb_input env && create_mouse_io env = true) /\
  (exists t' d',
     mouse_failures fs (t, d) = Running (t', d') /\ alive t' = true /\
     acquire_calls t' = acquire_calls t + Z.of_nat (length fs)) /\
  (exists t' d',
     keyboard_failures fs (t, d) = Running (t', d') /\ alive t' = true /\
     acquire_calls t' = acquire_calls t + Z.of_nat (length fs)).
Proof.
  intros Ha. split; [|split; [|split; [|split]]].
  - intros Hf. unfold main.
    assert (N1 : NoDup [G502]) by (repeat constructor; cbn; tauto).
    assert (N2 : NoDup [G502; KeyboardDevice])
      by (repeat constructor; cbn; intuition discriminate).
    destruct (found env G502) eqn:F1; cbn [negb fst snd].
    + assert (F2 : found env KeyboardDevice = false) by (destruct dev; congruence).
      rewrite F2. cbn [negb fst snd].
      split; [reflexivity|]. split; [exact N2|].
      exists [G502], KeyboardDevice. split; [reflexivity|]. split; [exact F2|].
      intros x [<-|[]]. exact F1.
    + split; [reflexivity|]. split; [exact N1|].
      exists [], G502. split; [reflexivity|]. split; [exact F1|].
      intros x [].
  - intros c. unfold main.
    repeat match goal with
           | |- context [negb ?b] =>
               destruct b; cbn [negb fst snd]; [|congruence]
           end.
    congruence.
  - unfold main.
    repeat match goal with
           | |- context [negb ?b] =>
               destruct b; cbn [negb fst snd andb]; [|split; congruence]
           end.
    split; congruence.
  - destruct (mouse_failures_alive fs t d Ha) as (t' & d' & E & A & C & _).
    exists t', d'. auto.
  - destruct (keyboard_failures_alive fs t d Ha) as (t' & d' & E & A & C & _).
    exists t', d'. auto.
Qed.

Lemma startup_and_read_failures_witness :
  let env := mk_env (fun dev => match dev with G502 => true | KeyboardDevice => false end)
                    true true true true true true true true true true true true in
  snd (main env) = Returned 1 /\
  exists t' d',
    mouse_failures [(19, -1); (19, -1); (5, 4)] (thread_start 3, daemon_init)
    = Running (t', d') /\ alive t' = true /\ acquire_calls t' = 4.
Proof.
  intros env.
  destruct (startup_and_read_failures env KeyboardDevice [(19, -1); (19, -1); (5, 4)]
              (thread_start 3) daemon_init eq_refl)
    as (L & _ & _ & (t' & d' & E & A & C) & _).
  split; [exact (proj1 (L eq_refl))|].
  exists t', d'. split; [exact E|]. split; [exact A|exact C].
Defined.

(** ** C10: a producer thread that cannot open its device *)

(** C10. When [find_open_and_grab_device] fails at the start of a producer
    thread, the thread calls [pthread_exit] after that single attempt: it is
    no longer alive, its loop iterations do nothing (no reopen, no purge, no
    event handled), and [main] stays in its joins whatever the other producer
    does, so the process keeps running without that thread. *)
Theorem producer_start_failure (acquired : Z) :
  acquired < 0 ->
  let t := thread_start acquired in
  alive t = false /\ acquire_calls t = 1 /\
  (forall r f d, mouse_thread_io_func_iter r f (t, d) = Running (t, d)) /\
  (forall r f d, keyboard_process_i_iter r f (t, d) = Running (t, d)) /\
  (forall other, main_join t other = Supervising /\ main_join other t = Supervising).
Proof.
  intros Hneg t. subst t. unfold thread_start.
  destruct (Z.ltb_spec acquired 0); [|lia]. cbn [negb].
  split; [reflexivity|]. split; [reflexivity|].
  split; [reflexivity|]. split; [reflexivity|].
  intros other. unfold main_join, keyboard_process_o_alive.
  cbn [alive negb]. rewrite !andb_false_r. split; reflexivity.
Qed.

Lemma producer_start_failure_witness :
  alive (thread_start (-1)) = false /\
  main_join (thread_start (-1)) (thread_start 5) = Supervising.
Proof.
  destruct (producer_start_failure (-1) eq_refl) as (A & _ & _ & _ & J).
  split; [exact A|]. exact (proj1 (J (thread_start 5))).
Defined.

(** ** C2: motion scaling *)

(** *** Shifts and digits *)

Lemma pshl_val (p : positive) (k : Z) :
  0 <= k -> Zpos (pshl p k) = Zpos p * 2 ^ k.
Proof.
  intros Hk. destruct k as [|j|j]; [cbn; lia| |lia].
  unfold pshl.
  rewrite (Pos.iter_swap_gen _ _ Zpos xO (Z.mul 2)) by reflexivity.
  change (Pos.iter (Z.mul 2) (Zpos p) j) with (Z.shiftl (Zpos p) (Zpos j)).
  apply Z.shiftl_mul_pow2. lia.
Qed.

Lemma iter_succ_add (d j : positive) :
  Pos.iter Pos.succ d j = (d + j)%positive.
Proof.
  induction j as [|j IH] using Pos.peano_ind.
  - cbn. lia.
  - rewrite Pos.iter_succ, IH. lia.
Qed.

Lemma pshl_digits (p : positive) (k : Z) :
  0 <= k -> Zpos (digits2_pos (pshl p k)) = Zpos (digits2_pos p) + k.
Proof.
  intros Hk. destruct k as [|j|j]; [cbn; lia| |lia].
  unfold pshl.
  rewrite (Pos.iter_swap_gen _ _ digits2_pos xO Pos.succ) by reflexivity.
  rewrite iter_succ_add. lia.
Qed.

Lemma pshl_pshl (p : positive) (a b : Z) :
  0 <= a -> 0 <= b -> pshl (pshl p a) b = pshl p (a + b).
Proof.
  intros Ha Hb. apply Pos2Z.inj. rewrite !pshl_val by lia.
  rewrite Z.pow_add_r by lia. ring.
Qed.

Lemma digits2_pos_size (p : positive) : digits2_pos p = Pos.size p.
Proof. induction p; cbn; congruence. Qed.

Lemma digits_le (p : positive) (n : Z) :
  0 <= n -> Zpos p < 2 ^ n -> Zpos (digits2_pos p) <= n.
Proof.
  intros Hn Hp. rewrite digits2_pos_size.
  pose proof (Pos.size_le p) as H.
  apply Pos2Z.pos_le_pos in H. rewrite Pos2Z.inj_pow in H.
  change (Zpos p~0) with (2 * Zpos p) in H.
  destruct (Z.le_gt_cases (Zpos (Pos.size p)) n) as [|G]; [assumption|].
  assert (2 ^ (n + 1) <= 2 ^ Zpos (Pos.size p)) by (apply Z.pow_le_mono_r; lia).
  rewrite Z.pow_add_r in * by lia. lia.
Qed.

Lemma iter_pos_iter {A : Type} (f : A -> A) (n : positive) (x : A) :
  iter_pos f n x = Pos.iter f x n.
Proof.
  revert x. induction n as [n IH|n IH|]; intros x; cbn [iter_pos Pos.iter].
  - rewrite !IH. now rewrite <- !Pos.iter_swap.
  - now rewrite !IH.
  - reflexivity.
Qed.

(** Shifting out [j] zero bits is exact. *)
Lemma shr_zeros (p j : positive) :
  iter_pos shr_1 j (Build_shr_record (Zpos (Pos.iter xO p j)) false false)
  = Build_shr_record (Zpos p) false false.
Proof.
  rewrite iter_pos_iter. revert p.
  induction j as [|j IH] using Pos.peano_ind; intros p.
  - reflexivity.
  - rewrite Pos.iter_succ_r, Pos.iter_succ. cbn [shr_1 orb]. apply IH.
Qed.

(** *** Rounding a value that fits is exact *)


Section Exact.
Variables prec emax : Z.
Hypothesis prec_pos : 0 < prec.

Lemma shr_fexp_exact (p : positive) (k e : Z) :
  let d := Zpos (digits2_pos p) in
  d <= prec -> prec - d <= k ->
  3 - emax - prec <= e + k - (prec - d) ->
  shr_fexp prec emax (Zpos (pshl p k)) e loc_Exact
  = (Build_shr_record (Zpos (pshl p (prec - d))) false false, e + k - (prec - d)).
Proof.
  intros d Hd Hk Hmin. unfold shr_fexp, fexp, emin. cbn [Zdigits2 shr_record_of_loc].
  rewrite pshl_digits by lia. fold d.
  replace (Z.max (d + k + e - prec) (3 - emax - prec) - e) with (k - (prec - d)) by lia.
  destruct (k - (prec - d)) as [|n|n] eqn:Hn; [| |lia]; cbn [shr].
  - replace k with (prec - d) by lia. f_equal. lia.
  - replace (pshl p k) with (Pos.iter xO (pshl p (prec - d)) n).
    + rewrite shr_zeros. f_equal. lia.
    + change (Pos.iter xO (pshl p (prec - d)) n) with (pshl (pshl p (prec - d)) (Zpos n)).
      rewrite pshl_pshl by lia. f_equal. lia.
Qed.

Lemma binary_round_aux_exact (s : bool) (p : positive) (k e : Z) :
  let d := Zpos (digits2_pos p) in
  d <= prec -> prec - d <= k ->
  3 - emax - prec <= e + k - (prec - d) <= emax - prec ->
  binary_round_aux prec emax s (Zpos (pshl p k)) e loc_Exact = canon prec s p (e + k).
Proof.
  intros d Hd Hk [Hmin Hmax]. unfold binary_round_aux.
  rewrite shr_fexp_exact by (fold d; lia). fold d.
  cbn [shr_m loc_of_shr_record round_nearest_even].
  rewrite (shr_fexp_exact p (prec - d) (e + k - (prec - d))) by (fold d; lia).
  fold d. cbn [shr_m].
  replace (e + k - (prec - d) + (prec - d) - (prec - d)) with (e + k - (prec - d)) by lia.
  destruct (Z.leb_spec (e + k - (prec - d)) (emax - prec)); [|lia].
  reflexivity.
Qed.

Lemma binary_round_exact (s : bool) (p : positive) (k e : Z) :
  let d := Zpos (digits2_pos p) in
  d <= prec -> 0 <= k ->
  3 - emax - prec <= e + k - (prec - d) <= emax - prec ->
  binary_round prec emax s (pshl p k) e = canon prec s p (e + k).
Proof.
  intros d Hd Hk Hr. unfold binary_round, shl_align, fexp, emin.
  rewrite pshl_digits by lia. fold d.
  replace (Z.max (d + k + e - prec) (3 - emax - prec) - e) with (k - (prec - d)) by lia.
  destruct (k - (prec - d)) as [|n|n] eqn:Hn.
  - apply binary_round_aux_exact; fold d; lia.
  - apply binary_round_aux_exact; fold d; lia.
  - change (Pos.iter xO (pshl p k) n) with (pshl (pshl p k) (Zpos n)).
    rewrite pshl_pshl by lia.
    replace (Z.max (d + k + e - prec) (3 - emax - prec)) with (e + k - (prec - d)) by lia.
    replace (e + k) with ((e + k - (prec - d)) + (k + Zpos n)) at 2 by lia.
    apply binary_round_aux_exact; fold d; lia.
Qed.

(** Normalizing [z * 2^k] at exponent [e] gives the float of that value. *)
Lemma binary_normalize_exact (z k e : Z) :
  0 <= k ->
  (z <> 0 ->
   Z.abs z < 2 ^ prec /\
   3 - emax - prec <= e + k - prec /\ e + k <= emax - prec) ->
  binary_normalize prec emax (z * 2 ^ k) e false = dyadic prec z (e + k).
Proof.
  intros Hk Hz. destruct z as [|p|p]; [reflexivity| |].
  - destruct Hz as (Hp & Hmin & Hmax); [discriminate|].
    rewrite <- pshl_val by lia. cbn [binary_normalize dyadic].
    pose proof (digits_le p prec ltac:(lia) Hp).
    apply binary_round_exact; lia.
  - destruct Hz as (Hp & Hmin & Hmax); [discriminate|].
    change (Zneg p) with (- Zpos p). rewrite Z.mul_opp_l, <- pshl_val by lia.
    cbn [Z.opp binary_normalize dyadic].
    pose proof (digits_le p prec ltac:(lia) Hp).
    apply binary_round_exact; lia.
Qed.

Lemma shl_align_val (m : positive) (ex ez : Z) :
  ez <= ex -> Zpos (fst (shl_align m ex ez)) = Zpos m * 2 ^ (ex - ez).
Proof.
  intros H. unfold shl_align.
  destruct (ez - ex) as [|n|n] eqn:E; cbn [fst].
  - replace (ex - ez) with 0 by lia. cbn. lia.
  - lia.
  - change (Pos.iter xO m n) with (pshl m (Zpos n)). rewrite pshl_val by lia.
    f_equal. f_equal. lia.
Qed.
End Exact.

(** *** The operations of one step *)


Lemma binary_normalize_szero (prec emax z e : Z) (sz : bool) :
  z <> 0 -> binary_normalize prec emax z e sz = binary_normalize prec emax z e false.
Proof. destruct z; [contradiction|reflexivity|reflexivity]. Qed.

Lemma int_to_double_exact (v : Z) :
  Z.abs v < 2 ^ 53 -> int_to_double v = dyadic 53 v 0.
Proof.
  intros H. unfold int_to_double.
  replace v with (v * 2 ^ 0) at 1 by (cbn; lia).
  rewrite binary_normalize_exact; [reflexivity|lia|lia|lia].
Qed.

Lemma int_to_float_exact (n : Z) :
  Z.abs n < 2 ^ 24 -> int_to_float n = dyadic 24 n 0.
Proof.
  intros H. unfold int_to_float.
  replace n with (n * 2 ^ 0) at 1 by (cbn; lia).
  rewrite binary_normalize_exact; [reflexivity|lia|lia|lia].
Qed.

(** Multiplying by [DPI_SCALE] halves exactly. *)
Lemma double_mul_half (v : Z) :
  Z.abs v < 2 ^ 53 -> double_mul (dyadic 53 v 0) DPI_SCALE = dyadic 53 v (-1).
Proof.
  intros H. unfold double_mul, DPI_SCALE.
  assert (M : forall m, Pos.mul m 4503599627370496 = pshl m 52).
  { intros m. apply Pos2Z.inj. rewrite pshl_val by lia. reflexivity. }
  destruct v as [|p|p]; [reflexivity| |];
    pose proof (digits_le p 53 ltac:(lia) H) as Hd;
    unfold dyadic, canon; cbn [SFmul xorb];
    rewrite M, pshl_pshl by lia;
    rewrite binary_round_aux_exact by lia;
    unfold canon; f_equal; lia.
Qed.

Section Ops.
Variables prec emax : Z.
Hypothesis prec_pos : 0 < prec.

Lemma aligned_val (p : positive) (e ez : Z) :
  Zpos (digits2_pos p) <= prec ->
  ez <= e - (prec - Zpos (digits2_pos p)) ->
  Zpos (fst (shl_align (pshl p (prec - Zpos (digits2_pos p)))
                       (e - (prec - Zpos (digits2_pos p))) ez))
  = Zpos p * 2 ^ (e - ez).
Proof.
  intros Hd He. rewrite shl_align_val by lia. rewrite pshl_val by lia.
  rewrite <- Z.mul_assoc, <- Z.pow_add_r by lia. do 2 f_equal. lia.
Qed.

Lemma cond_Zopp_mul (s : bool) (x y : Z) : cond_Zopp s (x * y) = cond_Zopp s x * y.
Proof. destruct s; cbn; lia. Qed.

Lemma SFadd_exact (a b e : Z) :
  Z.abs a < 2 ^ prec -> Z.abs b < 2 ^ prec -> Z.abs (a + b) < 2 ^ prec ->
  3 - emax - prec <= e - prec -> e <= emax - prec ->
  SFadd prec emax (dyadic prec a e) (dyadic prec b e) = dyadic prec (a + b) e.
Proof.
  intros Ha Hb Hab Hmin Hmax.
  destruct a as [|p|p]; [destruct b; reflexivity| |];
    (destruct b as [|q|q]; [reflexivity| |]);
    pose proof (digits_le p prec ltac:(lia) Ha) as Hdp;
    pose proof (digits_le q prec ltac:(lia) Hb) as Hdq;
    unfold dyadic at 1 2; unfold canon; cbn [SFadd];
    match goal with |- context [Z.min ?x ?y] =>
      set (ez := Z.min x y);
      assert (Hz1 : ez <= x) by apply Z.le_min_l;
      assert (Hz2 : ez <= y) by apply Z.le_min_r
    end;
    rewrite !aligned_val by lia;
    rewrite !cond_Zopp_mul, <- Z.mul_add_distr_r;
    cbn [cond_Zopp Z.opp];
    match goal with
    | |- binary_normalize _ _ (?z * 2 ^ ?k) ?e0 false = _ =>
        rewrite (binary_normalize_exact prec emax prec_pos z k e0) by lia
    end;
    f_equal; lia.
Qed.
End Ops.


(** Narrowing a double that fits in 24 bits, and widening a float. *)
Lemma double_to_float_exact (w e : Z) :
  Z.abs w < 2 ^ 24 -> -125 <= e <= 104 ->
  double_to_float (dyadic 53 w e) = dyadic 24 w e.
Proof.
  intros H He.
  destruct w as [|p|p]; [reflexivity| |];
    pose proof (digits_le p 24 ltac:(lia) H) as Hd;
    unfold dyadic, canon at 1; cbn [double_to_float];
    rewrite binary_round_exact by lia; f_equal; lia.
Qed.

Lemma float_to_double_exact (a e : Z) :
  Z.abs a < 2 ^ 24 -> -125 <= e <= 104 ->
  float_to_double (dyadic 24 a e) = dyadic 53 a e.
Proof.
  intros H He.
  destruct a as [|p|p]; [reflexivity| |];
    pose proof (digits_le p 24 ltac:(lia) H) as Hd;
    unfold dyadic, canon at 1; cbn [float_to_double];
    rewrite binary_round_exact by lia; f_equal; lia.
Qed.

Lemma roundf_exact (w : Z) :
  Z.abs w < 2 ^ 24 ->
  roundf (dyadic 24 w (-1)) = dyadic 24 (round_half_away w) 0.
Proof.
  intros H.
  assert (A : forall (s : bool) (p : positive),
             Zpos p < 2 ^ 24 ->
             roundf (canon 24 s p (-1)) = dyadic 24 (cond_Zopp s ((Zpos p + 1) / 2)) 0).
  { intros s p Hp. pose proof (digits_le p 24 ltac:(lia) Hp) as Hd.
    unfold canon. cbn [roundf].
    set (j := 24 - Zpos (digits2_pos p)) in *.
    destruct (Z.leb_spec 0 (-1 - j)); [lia|].
    rewrite pshl_val by lia.
    replace (2 * (Zpos p * 2 ^ j) + 2 ^ (- (-1 - j))) with ((Zpos p + 1) * 2 ^ (j + 1))
      by (rewrite Z.pow_add_r by lia; replace (- (-1 - j)) with (j + 1) by lia;
          rewrite Z.pow_add_r by lia; ring).
    replace (2 ^ (1 - (-1 - j))) with (2 * 2 ^ (j + 1))
      by (replace (1 - (-1 - j)) with (1 + (j + 1)) by lia;
          rewrite (Z.pow_add_r 2 1) by lia; reflexivity).
    rewrite Z.div_mul_cancel_r by (try apply Z.pow_nonzero; lia).
    assert (1 <= (Zpos p + 1) / 2 < 2 ^ 24).
    { split; [apply Z.div_le_lower_bound; lia|apply Z.div_lt_upper_bound; lia]. }
    rewrite binary_normalize_szero by (destruct s; cbn; lia).
    match goal with |- binary_normalize _ _ ?z _ _ = _ =>
      replace z with (z * 2 ^ 0) at 1 by (cbn; lia) end.
    rewrite binary_normalize_exact; [reflexivity|lia|lia|].
    intros _. destruct s; cbn [cond_Zopp]; lia. }
  destruct w as [|p|p]; [reflexivity| |]; unfold dyadic at 1; rewrite A by lia;
    unfold round_half_away; cbn [Z.sgn Z.abs cond_Zopp]; f_equal; lia.
Qed.

Lemma float_to_int_exact (n : Z) :
  Z.abs n < 2 ^ 24 -> float_to_int (dyadic 24 n 0) = n.
Proof.
  intros H.
  assert (A : forall (s : bool) (q : positive),
             Zpos q < 2 ^ 24 ->
             float_to_int (canon 24 s q 0) = cond_Zopp s (Zpos q)).
  { intros s q Hq. pose proof (digits_le q 24 ltac:(lia) Hq) as Hd.
    unfold canon. cbn [float_to_int].
    set (j := 24 - Zpos (digits2_pos q)) in *.
    rewrite pshl_val by lia.
    assert (T : (if 0 <=? 0 - j then Zpos q * 2 ^ j * 2 ^ (0 - j)
                 else Zpos q * 2 ^ j / 2 ^ (- (0 - j))) = Zpos q).
    { destruct (Z.leb_spec 0 (0 - j)).
      - replace j with 0 by lia. cbn. lia.
      - replace (- (0 - j)) with j by lia.
        apply Z.div_mul. apply Z.pow_nonzero; lia. }
    rewrite T.
    assert (R : INT_MIN <= cond_Zopp s (Zpos q) <= INT_MAX)
      by (unfold INT_MIN, INT_MAX; destruct s; cbn [cond_Zopp]; lia).
    destruct (Z.leb_spec INT_MIN (cond_Zopp s (Zpos q))); [|lia].
    destruct (Z.leb_spec (cond_Zopp s (Zpos q)) INT_MAX); [|lia].
    reflexivity. }
  destruct n as [|q|q]; [reflexivity| |]; unfold dyadic; rewrite A by lia; reflexivity.
Qed.

(** Subtracting an integer from a half-integer. *)
Lemma float_sub_exact (w n : Z) :
  Z.abs w < 2 ^ 24 -> Z.abs n < 2 ^ 24 -> Z.abs (w - 2 * n) < 2 ^ 24 ->
  (w = 0 -> n = 0) ->
  float_sub (dyadic 24 w (-1)) (dyadic 24 n 0) = dyadic 24 (w - 2 * n) (-1).
Proof.
  intros Hw Hn Hd H0. unfold float_sub.
  destruct w as [|p|p]; [rewrite H0 by reflexivity; reflexivity| |];
    (destruct n as [|q|q]; [reflexivity| |]);
    pose proof (digits_le p 24 ltac:(lia) Hw) as Hdp;
    pose proof (digits_le q 24 ltac:(lia) Hn) as Hdq;
    unfold dyadic at 1 2; unfold canon; cbn [SFsub];
    match goal with |- context [Z.min ?x ?y] =>
      set (ez := Z.min x y);
      assert (Hz1 : ez <= x) by apply Z.le_min_l;
      assert (Hz2 : ez <= y) by apply Z.le_min_r
    end;
    rewrite !(aligned_val 24) by lia;
    replace (0 - ez) with (1 + (-1 - ez)) by lia;
    rewrite (Z.pow_add_r 2 1 (-1 - ez)) by lia;
    rewrite !cond_Zopp_mul;
    cbn [cond_Zopp Z.opp];
    match goal with
    | |- binary_normalize _ _ ?z ?e0 false = dyadic _ ?c _ =>
        replace z with (c * 2 ^ (-1 - ez)) by (change (2 ^ 1) with 2; ring);
        rewrite (binary_normalize_exact 24 128 ltac:(lia) c (-1 - ez) e0) by lia
    end;
    f_equal; lia.
Qed.

(** One step of the accumulator on exact values: from the accumulator
    [a / 2] and the raw delta [v], the step emits the nearest integer to
    [(a + v) / 2] and keeps the remainder. *)
Lemma scale_axis_exact (a v : Z) :
  -1 <= a <= 1 -> Z.abs (a + v) < 2 ^ 24 ->
  scale_axis (dyadic 24 a (-1)) v
  = (dyadic 24 (a + v - 2 * round_half_away (a + v)) (-1), round_half_away (a + v)).
Proof.
  intros Ha Hw. unfold scale_axis.
  assert (Hv : Z.abs v < 2 ^ 53) by (change (2 ^ 53) with 9007199254740992; change (2 ^ 24) with 16777216 in Hw; lia).
  assert (Hr : Z.abs (round_half_away (a + v)) < 2 ^ 24 /\
               Z.abs (a + v - 2 * round_half_away (a + v)) <= 1 /\
               (a + v = 0 -> round_half_away (a + v) = 0)).
  { unfold round_half_away. change (2 ^ 24) with 16777216 in *.
    destruct (Z.sgn_spec (a + v)) as [[? ->]|[[? ->]|[? ->]]];
      pose proof (Z.div_mod (Z.abs (a + v) + 1) 2 ltac:(lia));
      pose proof (Z.mod_pos_bound (Z.abs (a + v) + 1) 2 ltac:(lia)); lia. }
  destruct Hr as (Hr1 & Hr2 & Hr3).
  rewrite int_to_double_exact, double_mul_half by assumption.
  rewrite float_to_double_exact by (change (2 ^ 24) with 16777216; lia).
  unfold double_add. rewrite SFadd_exact; try lia;
    try (change (2 ^ 53) with 9007199254740992; change (2 ^ 24) with 16777216 in *; lia).
  rewrite double_to_float_exact by lia.
  rewrite roundf_exact by assumption.
  rewrite float_to_int_exact by assumption.
  rewrite int_to_float_exact by assumption.
  rewrite float_sub_exact; try assumption; try reflexivity.
  change (2 ^ 24) with 16777216. lia.
Qed.

Lemma scale_axis_bounded (a v : Z) :
  -1 <= a <= 1 -> Z.abs v < 2 ^ 24 ->
  exists a' n,
    scale_axis (dyadic 24 a (-1)) v = (dyadic 24 a' (-1), n) /\
    -1 <= a' <= 1 /\ 2 * n + a' = a + v.
Proof.
  intros Ha Hv. change (2 ^ 24) with 16777216 in Hv.
  destruct (Z.lt_ge_cases (Z.abs (a + v)) (2 ^ 24)) as [Hw|Hw].
  - rewrite scale_axis_exact by assumption.
    do 2 eexists. split; [reflexivity|].
    unfold round_half_away. change (2 ^ 24) with 16777216 in *.
    destruct (Z.sgn_spec (a + v)) as [[? ->]|[[? ->]|[? ->]]];
      pose proof (Z.div_mod (Z.abs (a + v) + 1) 2 ltac:(lia));
      pose proof (Z.mod_pos_bound (Z.abs (a + v) + 1) 2 ltac:(lia)); lia.
  - change (2 ^ 24) with 16777216 in Hw.
    assert (C : (a = 1 /\ v = 16777215) \/ (a = -1 /\ v = -16777215)) by lia.
    destruct C as [[-> ->]|[-> ->]].
    + exists 0, 8388608. split; [vm_compute; reflexivity|lia].
    + exists 0, (-8388608). split; [vm_compute; reflexivity|lia].
Qed.

Lemma scale_run_exact (raw : list Z) (a : Z) :
  -1 <= a <= 1 ->
  Forall (fun v => Z.abs v < 2 ^ 24) raw ->
  exists a',
    -1 <= a' <= 1 /\
    fst (scale_run (dyadic 24 a (-1)) raw) = dyadic 24 a' (-1) /\
    2 * zsum (snd (scale_run (dyadic 24 a (-1)) raw)) + a' = a + zsum raw.
Proof.
  revert a. induction raw as [|v raw IH]; intros a Ha Hall; cbn [scale_run].
  - exists a. cbn [fst snd zsum fold_right]. split; [lia|]. split; [reflexivity|lia].
  - inversion Hall as [|? ? Hv Hrest]; subst.
    destruct (scale_axis_bounded a v Ha Hv) as (a1 & n & E & Ha1 & S1).
    rewrite E.
    destruct (IH a1 Ha1 Hrest) as (a' & Ha' & F & S).
    destruct (scale_run (dyadic 24 a1 (-1)) raw) as [final ds].
    cbn [fst snd] in *. exists a'.
    change (zsum (n :: ds)) with (n + zsum ds).
    change (zsum (v :: raw)) with (v + zsum raw).
    split; [lia|]. split; [assumption|lia].
Qed.

Lemma round_half_away_rem (w : Z) :
  -1 <= w - 2 * round_half_away w <= 1 /\
  (w - 2 * round_half_away w = 0 \/ Z.sgn (w - 2 * round_half_away w) = - Z.sgn w).
Proof.
  unfold round_half_away.
  destruct (Z.sgn_spec w) as [[? ->]|[[? ->]|[? ->]]];
    pose proof (Z.div_mod (Z.abs w + 1) 2 ltac:(lia));
    pose proof (Z.mod_pos_bound (Z.abs w + 1) 2 ltac:(lia)); lia.
Qed.

Lemma round_half_away_nearest (w : Z) :
  Z.abs (2 * round_half_away w - w) <= 1 /\ Z.abs w <= Z.abs (2 * round_half_away w).
Proof.
  unfold round_half_away.
  destruct (Z.sgn_spec w) as [[? ->]|[[? ->]|[? ->]]];
    pose proof (Z.div_mod (Z.abs w + 1) 2 ltac:(lia));
    pose proof (Z.mod_pos_bound (Z.abs w + 1) 2 ltac:(lia)); lia.
Qed.

Lemma scale_axis_half_units (a v : Z) :
  -1 <= a <= 1 -> Z.abs v < 2 ^ 24 ->
  scale_axis (dyadic 24 a (-1)) v
  = (dyadic 24 (a + v - 2 * round_half_away (a + v)) (-1), round_half_away (a + v)).
Proof.
  intros Ha Hv. change (2 ^ 24) with 16777216 in Hv.
  destruct (Z.lt_ge_cases (Z.abs (a + v)) (2 ^ 24)) as [Hw|Hw].
  - now apply scale_axis_exact.
  - change (2 ^ 24) with 16777216 in Hw.
    assert (C : (a = 1 /\ v = 16777215) \/ (a = -1 /\ v = -16777215)) by lia.
    destruct C as [[-> ->]|[-> ->]]; vm_compute; reflexivity.
Qed.

(** *** Rounding a value that does not fit *)

Lemma digits_gt (p : positive) (n : Z) :
  2 ^ n <= Zpos p -> n < Zpos (digits2_pos p).
Proof.
  intros Hp. rewrite digits2_pos_size.
  pose proof (Pos.size_gt p) as H.
  apply Pos2Z.pos_lt_pos in H. rewrite Pos2Z.inj_pow in H.
  destruct (Z.lt_ge_cases n (Zpos (Pos.size p))) as [|G]; [assumption|].
  assert (2 ^ Zpos (Pos.size p) <= 2 ^ n) by (apply Z.pow_le_mono_r; lia).
  lia.
Qed.

Lemma digits_eq (p : positive) (n : Z) :
  0 < n -> 2 ^ (n - 1) <= Zpos p < 2 ^ n -> Zpos (digits2_pos p) = n.
Proof.
  intros Hn [Hl Hu].
  pose proof (digits_le p n ltac:(lia) Hu).
  pose proof (digits_gt p (n - 1) Hl). lia.
Qed.

Lemma digits_bounds (p : positive) :
  2 ^ (Zpos (digits2_pos p) - 1) <= Zpos p < 2 ^ Zpos (digits2_pos p).
Proof.
  rewrite digits2_pos_size.
  pose proof (Pos.size_gt p) as Hu. apply Pos2Z.pos_lt_pos in Hu.
  pose proof (Pos.size_le p) as Hl. apply Pos2Z.pos_le_pos in Hl.
  rewrite Pos2Z.inj_pow in Hu, Hl.
  change (Zpos p~0) with (2 * Zpos p) in Hl.
  split; [|exact Hu].
  replace (Zpos (Pos.size p)) with (1 + (Zpos (Pos.size p) - 1)) in Hl by lia.
  rewrite Z.pow_add_r in Hl by lia. change (2 ^ 1) with 2 in Hl. lia.
Qed.

Lemma shr_1_m (mrs : shr_record) :
  0 <= shr_m mrs -> shr_m (shr_1 mrs) = shr_m mrs / 2.
Proof.
  destruct mrs as [m r s]. cbn [shr_m]. intros H.
  destruct m as [|[p|p|]|p]; cbn [shr_1 shr_m]; try lia; try reflexivity.
  - rewrite Pos2Z.inj_xI. apply Z.div_unique with 1; lia.
  - rewrite Pos2Z.inj_xO. apply Z.div_unique with 0; lia.
Qed.

Lemma iter_shr_m (n : positive) (mrs : shr_record) :
  0 <= shr_m mrs ->
  shr_m (iter_pos shr_1 n mrs) = shr_m mrs / 2 ^ Zpos n.
Proof.
  intros H. rewrite iter_pos_iter.
  induction n as [|n IH] using Pos.peano_ind.
  - cbn [Pos.iter]. now rewrite shr_1_m.
  - rewrite Pos.iter_succ, shr_1_m.
    + rewrite IH, Z.div_div by (try apply Z.pow_pos_nonneg; lia).
      f_equal. rewrite Pos2Z.inj_succ, Z.pow_succ_r by lia. ring.
    + rewrite IH. apply Z.div_pos; [lia|apply Z.pow_pos_nonneg; lia].
Qed.

Lemma round_nearest_even_bounds (m : Z) (l : location) :
  m <= round_nearest_even m l <= m + 1.
Proof.
  destruct l as [|[| |]]; cbn [round_nearest_even]; try lia.
  destruct (Z.even m); lia.
Qed.

(** Narrowing to binary32 a finite value of more than 24 bits and of
    magnitude at least 2^23: the result is a normal number with an
    exponent that is not negative, no further from the truncated mantissa
    than one unit in the last place. *)
Lemma binary_round_inexact (s : bool) (m : positive) (e : Z) :
  let D := Zpos (digits2_pos m) in
  24 < D -> 0 <= D + e - 24 <= 103 ->
  exists m' e' m1,
    binary_round 24 128 s m e = S754_finite s m' e' /\
    D + e - 24 <= e' <= D + e - 23 /\
    2 ^ 23 <= Zpos m' < 2 ^ 24 /\
    Zpos m' * 2 ^ e' = m1 * 2 ^ (D + e - 24) /\
    Zpos m / 2 ^ (D - 24) <= m1 <= Zpos m / 2 ^ (D - 24) + 1.
Proof.
  intros D HD He.
  pose proof (digits_bounds m) as Hm. fold D in Hm.
  unfold binary_round, shl_align, fexp, emin. fold D.
  replace (Z.max (D + e - 24) (3 - 128 - 24) - e) with (D - 24) by lia.
  destruct (D - 24) as [|n|n] eqn:Hn; [lia| |lia].
  unfold binary_round_aux, shr_fexp at 1, fexp, emin.
  cbn [Zdigits2 shr_record_of_loc]. fold D.
  replace (Z.max (D + e - 24) (3 - 128 - 24) - e) with (Zpos n) by lia.
  cbn [shr].
  set (mrs := iter_pos shr_1 n {| shr_m := Zpos m; shr_r := false; shr_s := false |}).
  assert (Hmm : shr_m mrs = Zpos m / 2 ^ Zpos n)
    by (unfold mrs; rewrite iter_shr_m; cbn [shr_m]; [reflexivity|lia]).
  set (mm := Zpos m / 2 ^ Zpos n) in *.
  assert (Bmm : 2 ^ 23 <= mm < 2 ^ 24).
  { assert (P : 0 < 2 ^ Zpos n) by (apply Z.pow_pos_nonneg; lia).
    replace D with (24 + Zpos n) in Hm by lia.
    replace (24 + Zpos n - 1) with (23 + Zpos n) in Hm by lia.
    rewrite !Z.pow_add_r in Hm by lia.
    split; [apply Z.div_le_lower_bound; lia|apply Z.div_lt_upper_bound; lia]. }
  pose proof (round_nearest_even_bounds (shr_m mrs) (loc_of_shr_record mrs)) as Hr.
  set (m1 := round_nearest_even (shr_m mrs) (loc_of_shr_record mrs)) in *.
  rewrite Hmm in Hr.
  replace (D + e - 24) with (e + Zpos n) in * by lia.
  change (2 ^ 23) with 8388608 in *. change (2 ^ 24) with 16777216 in *.
  destruct (Z.eq_dec m1 16777216) as [E|NE].
  - rewrite E. unfold shr_fexp, fexp, emin. cbn [Zdigits2 digits2_pos Pos.succ].
    replace (Z.max (25 + (e + Zpos n) - 24) (3 - 128 - 24) - (e + Zpos n)) with 1 by lia.
    cbn [shr_record_of_loc shr iter_pos shr_1 shr_m orb].
    destruct (Z.leb_spec (e + Zpos n + 1) (128 - 24)); [|lia].
    exists 8388608%positive, (e + Zpos n + 1), m1.
    split; [reflexivity|]. split; [lia|]. split; [lia|]. split; [|lia].
    rewrite E, Z.pow_add_r by lia. change (2 ^ 1) with 2. lia.
  - destruct m1 as [|q|q] eqn:Eq; [lia| |lia].
    assert (Dq : Zpos (digits2_pos q) = 24)
      by (apply digits_eq; [lia|change (2 ^ (24 - 1)) with 8388608;
                                change (2 ^ 24) with 16777216; lia]).
    unfold shr_fexp, fexp, emin. cbn [Zdigits2]. rewrite Dq.
    replace (Z.max (24 + (e + Zpos n) - 24) (3 - 128 - 24) - (e + Zpos n)) with 0 by lia.
    cbn [shr_record_of_loc shr shr_m].
    destruct (Z.leb_spec (e + Zpos n) (128 - 24)); [|lia].
    exists q, (e + Zpos n), (Zpos q).
    split; [reflexivity|]. split; [lia|]. split; [lia|]. split; [reflexivity|lia].
Qed.

(** The double [p / 2] narrowed to binary32, for [p] between 2^24 and
    2^31 + 1: an integer that fits in an [int], at most 128 from [p / 2]. *)
Lemma double_to_float_large (s : bool) (p : positive) :
  2 ^ 24 <= Zpos p <= 2 ^ 31 + 1 ->
  exists m' e',
    double_to_float (canon 53 s p (-1)) = S754_finite s m' e' /\
    0 <= e' <= 8 /\
    2 ^ 23 <= Zpos m' < 2 ^ 24 /\
    Zpos m' * 2 ^ e' <= 2 ^ 30 + 128 /\
    Z.abs (2 * (Zpos m' * 2 ^ e') - Zpos p) <= 256.
Proof.
  intros [Hl Hu].
  pose proof (digits_gt p 24 Hl) as Hd1.
  assert (Hd2 : Zpos (digits2_pos p) <= 32)
    by (apply digits_le; [lia|change (2 ^ 32) with 4294967296;
                               change (2 ^ 31) with 2147483648 in Hu; lia]).
  unfold canon. cbn [double_to_float].
  set (d := Zpos (digits2_pos p)) in *.
  destruct (binary_round_inexact s (pshl p (53 - d)) (-1 - (53 - d)))
    as (m' & e' & m1 & E & He & Hm & V & H1);
    rewrite ?pshl_digits by lia; fold d; try lia.
  rewrite pshl_digits in He, V, H1 by lia. fold d in He, V, H1.
  rewrite pshl_val in H1 by lia.
  replace (d + (53 - d) - 24) with 29 in H1 by lia.
  replace (d + (53 - d) + (-1 - (53 - d)) - 24) with (d - 25) in * by lia.
  exists m', e'. split; [exact E|]. split; [lia|]. split; [exact Hm|].
  rewrite V. clear E V He Hm.
  change (2 ^ 24) with 16777216 in *. change (2 ^ 31) with 2147483648 in *.
  change (2 ^ 30) with 1073741824. change (2 ^ 29) with 536870912 in *.
  assert (C : d = 25 \/ d = 26 \/ d = 27 \/ d = 28 \/ d = 29 \/ d = 30 \/ d = 31 \/ d = 32)
    by lia.
  clearbody d.
  destruct C as [->|[->|[->|[->|[->|[->|[->| ->]]]]]]];
    repeat match goal with
           | H : context [2 ^ ?k] |- _ =>
               let c := eval compute in (2 ^ k) in change (2 ^ k) with c in H
           | |- context [2 ^ ?k] =>
               let c := eval compute in (2 ^ k) in change (2 ^ k) with c
           end;
    (split; Z.div_mod_to_equations; lia).
Qed.

Lemma SFsub_diag (prec emax : Z) (s : bool) (m : positive) (e : Z) :
  SFsub prec emax (S754_finite s m e) (S754_finite s m e) = S754_zero false.
Proof.
  cbn [SFsub]. rewrite Z.min_id.
  match goal with |- binary_normalize _ _ ?z _ _ = _ => replace z with 0 end;
    [reflexivity|destruct s; cbn [negb cond_Zopp]; lia].
Qed.

(** One step on an accumulator that is an integer of 24 bits times a power
    of two: [roundf] changes nothing, the cast and the conversion back are
    exact, and nothing is left in the accumulator. *)
Lemma integral_step (s : bool) (m : positive) (e : Z) :
  0 <= e <= 8 -> 2 ^ 23 <= Zpos m < 2 ^ 24 -> Zpos m * 2 ^ e <= 2 ^ 30 + 128 ->
  let x := S754_finite s m e in
  float_to_int (roundf x) = cond_Zopp s (Zpos m * 2 ^ e) /\
  float_sub x (int_to_float (float_to_int (roundf x))) = float_zero.
Proof.
  intros He Hm Hv x.
  assert (R : roundf x = x)
    by (unfold x; cbn [roundf]; destruct (Z.leb_spec 0 e); [reflexivity|lia]).
  assert (P : 0 < 2 ^ e) by (apply Z.pow_pos_nonneg; lia).
  assert (I : float_to_int x = cond_Zopp s (Zpos m * 2 ^ e)).
  { unfold x. cbn [float_to_int].
    destruct (Z.leb_spec 0 e); [|lia].
    set (t := cond_Zopp s (Zpos m * 2 ^ e)).
    assert (B : INT_MIN <= t <= INT_MAX).
    { unfold t, INT_MIN, INT_MAX. change (2 ^ 31) with 2147483648.
      change (2 ^ 30) with 1073741824 in Hv.
      destruct s; cbn [cond_Zopp]; nia. }
    destruct (Z.leb_spec INT_MIN t); [|lia].
    destruct (Z.leb_spec t INT_MAX); [|lia]. reflexivity. }
  rewrite R, I. split; [reflexivity|].
  assert (F : int_to_float (cond_Zopp s (Zpos m * 2 ^ e)) = x).
  { unfold int_to_float. rewrite cond_Zopp_mul.
    rewrite binary_normalize_exact; [|lia|lia|].
    - assert (Dm : Zpos (digits2_pos m) = 24) by (apply digits_eq; [lia|exact Hm]).
      destruct s; cbn [cond_Zopp Z.opp dyadic]; unfold canon; rewrite Dm;
        cbn [Z.sub Z.add Z.opp Z.pos_sub pshl]; unfold x; f_equal; lia.
    - intros _. split; [destruct s; cbn [cond_Zopp]; lia|lia]. }
  rewrite F. apply SFsub_diag.
Qed.

(** One step whose sum does not fit in 24 bits: the accumulator is left at
    zero. *)
Lemma scale_axis_large (a v : Z) :
  -1 <= a <= 1 -> INT_MIN <= v <= INT_MAX -> 2 ^ 24 <= Z.abs (a + v) ->
  exists n,
    scale_axis (dyadic 24 a (-1)) v = (float_zero, n) /\
    Z.abs (2 * n - (a + v)) <= 256.
Proof.
  intros Ha Hv Hw. unfold INT_MIN, INT_MAX in Hv.
  change (2 ^ 31) with 2147483648 in Hv. change (2 ^ 24) with 16777216 in Hw.
  unfold scale_axis.
  rewrite int_to_double_exact, double_mul_half
    by (change (2 ^ 53) with 9007199254740992; lia).
  rewrite float_to_double_exact by (change (2 ^ 24) with 16777216; lia).
  unfold double_add. rewrite SFadd_exact;
    try (change (2 ^ 53) with 9007199254740992; lia).
  assert (A : forall (s : bool) (p : positive),
             2 ^ 24 <= Zpos p <= 2 ^ 31 + 1 ->
             exists n,
               (let accum1 := double_to_float (canon 53 s p (-1)) in
                (float_sub accum1 (int_to_float (float_to_int (roundf accum1))),
                 float_to_int (roundf accum1))) = (float_zero, n) /\
               Z.abs (2 * n - cond_Zopp s (Zpos p)) <= 256).
  { intros s p Hp.
    destruct (double_to_float_large s p Hp) as (m' & e' & E & He & Hm & V & C).
    destruct (integral_step s m' e' He Hm V) as [I F].
    cbn zeta in *. rewrite E, F, I.
    eexists. split; [reflexivity|]. destruct s; cbn [cond_Zopp]; lia. }
  destruct (a + v) as [|p|p] eqn:E; [lia| |].
  - apply (A false p). change (2 ^ 24) with 16777216.
    change (2 ^ 31) with 2147483648. lia.
  - apply (A true p). change (2 ^ 24) with 16777216.
    change (2 ^ 31) with 2147483648. lia.
Qed.

(** One step on any value an [int] can hold. *)
Lemma scale_axis_int (a v : Z) :
  -1 <= a <= 1 -> INT_MIN <= v <= INT_MAX ->
  exists a' n,
    scale_axis (dyadic 24 a (-1)) v = (dyadic 24 a' (-1), n) /\ -1 <= a' <= 1.
Proof.
  intros Ha Hv.
  destruct (Z.lt_ge_cases (Z.abs (a + v)) (2 ^ 24)) as [Hw|Hw].
  - rewrite scale_axis_exact by assumption.
    do 2 eexists. split; [reflexivity|].
    unfold round_half_away. change (2 ^ 24) with 16777216 in *.
    destruct (Z.sgn_spec (a + v)) as [[? ->]|[[? ->]|[? ->]]];
      pose proof (Z.div_mod (Z.abs (a + v) + 1) 2 ltac:(lia));
      pose proof (Z.mod_pos_bound (Z.abs (a + v) + 1) 2 ltac:(lia)); lia.
  - destruct (scale_axis_large a v Ha Hv Hw) as (n & E & _).
    exists 0, n. split; [exact E|lia].
Qed.

Lemma scale_run_int (raw : list Z) (a : Z) :
  -1 <= a <= 1 ->
  Forall (fun v => INT_MIN <= v <= INT_MAX) raw ->
  exists a', -1 <= a' <= 1 /\ fst (scale_run (dyadic 24 a (-1)) raw) = dyadic 24 a' (-1).
Proof.
  revert a. induction raw as [|v raw IH]; intros a Ha Hall; cbn [scale_run].
  - exists a. split; [lia|reflexivity].
  - inversion Hall as [|? ? Hv Hrest]; subst.
    destruct (scale_axis_int a v Ha Hv) as (a1 & n & E & Ha1).
    rewrite E.
    destruct (IH a1 Ha1 Hrest) as (a' & Ha' & F).
    destruct (scale_run (dyadic 24 a1 (-1)) raw) as [final ds].
    cbn [fst] in *. exists a'. split; assumption.
Qed.

Lemma Forall_firstn_bound {A : Type} (P : A -> Prop) (n : nat) (l : list A) :
  Forall P l -> Forall P (firstn n l).
Proof.
  revert n. induction l as [|x l IH]; intros [|n] H; cbn [firstn]; try constructor.
  - now inversion H.
  - apply IH. now inversion H.
Qed.

Lemma within_half_dyadic (a : Z) :
  -1 <= a <= 1 -> within_half (dyadic 24 a (-1)) = true.
Proof.
  intros H. assert (C : a = -1 \/ a = 0 \/ a = 1) by lia.
  destruct C as [->|[->| ->]]; reflexivity.
Qed.

Lemma rel_x_step (ev : input_event) (d : daemon) :
  type ev = EV_REL -> code ev = REL_X ->
  mouse_event ev d =
  Running (to_mouse (with_value ev (snd (scale_axis (accum_x d) (value ev))))
             {| ring := ring d; mouse_out := mouse_out d; kb_out := kb_out d;
                accum_x := fst (scale_axis (accum_x d) (value ev));
                accum_y := accum_y d |}).
Proof.
  intros T C. unfold mouse_event. rewrite T, C.
  cbn [Z.eqb EV_REL EV_KEY REL_X Pos.eqb].
  now destruct (scale_axis (accum_x d) (value ev)).
Qed.

Lemma rel_y_step (ev : input_event) (d : daemon) :
  type ev = EV_REL -> code ev = REL_Y ->
  mouse_event ev d =
  Running (to_mouse (with_value ev (snd (scale_axis (accum_y d) (value ev))))
             {| ring := ring d; mouse_out := mouse_out d; kb_out := kb_out d;
                accum_x := accum_x d;
                accum_y := fst (scale_axis (accum_y d) (value ev)) |}).
Proof.
  intros T C. unfold mouse_event. rewrite T, C.
  cbn [Z.eqb EV_REL EV_KEY REL_X REL_Y Pos.eqb].
  now destruct (scale_axis (accum_y d) (value ev)).
Qed.

(** C2 as stated, refuted: it is not true that, whatever the raw deltas, the
    emitted sum is within 1 of a nearest integer to half their sum.  On the
    single delta 2^26 + 4, half of it, 2^25 + 2, is not a binary32 number:
    the accumulator rounds to 2^25 and the step emits 33554432 where
    33554434 is due. *)
Lemma motion_drifts_on_large_deltas :
  scale_run float_zero [67108868] = (float_zero, [33554432]) /\
  2 * 33554434 = zsum [67108868] /\
  ~ (forall raw r,
       Z.abs (2 * r - zsum raw) <= 1 ->
       Z.abs (zsum (snd (scale_run float_zero raw)) - r) <= 1).
Proof.
  split; [vm_compute; reflexivity|]. split; [reflexivity|].
  intros H.
  assert (P : Z.abs (2 * 33554434 - zsum [67108868]) <= 1) by (vm_compute; discriminate).
  specialize (H [67108868] 33554434 P).
  vm_compute in H. now apply H.
Qed.

(** C2, amended.  An [EV_REL] event on [REL_X] (resp. [REL_Y]) runs one
    accumulator step on [accum_x] (resp. [accum_y]) alone and writes the event
    with the emitted integer as its value to the virtual mouse.  With the
    scale factor 0.5 and any raw deltas an [int] can hold, of any number, the
    accumulator started at 0.0 is -0.5, 0 or 0.5 after every step.  A step on
    a raw delta of magnitude below 2^24 emits the nearest integer to the
    accumulator plus half the delta, halves away from zero, and keeps the
    exact remainder; a step whose sum reaches 2^23 in magnitude emits the
    sum as binary32 holds it, an integer within 128 of the exact one, and
    leaves zero.  For raw deltas of magnitude below 2^24 the sum of the
    emitted deltas differs by at most 1 from any nearest integer to half the
    sum of the raw deltas. *)
Theorem motion_fidelity (raw : list Z) (d : daemon) (ev : input_event) :
  Forall (fun v => INT_MIN <= v <= INT_MAX) raw ->
  type ev = EV_REL ->
  (code ev = REL_X ->
   exists d',
     mouse_event ev d = Running d' /\
     accum_x d' = fst (scale_axis (accum_x d) (value ev)) /\
     accum_y d' = accum_y d /\ ring d' = ring d /\
     mouse_out d' = mouse_out d ++ [with_value ev (snd (scale_axis (accum_x d) (value ev)))]) /\
  (code ev = REL_Y ->
   exists d',
     mouse_event ev d = Running d' /\
     accum_y d' = fst (scale_axis (accum_y d) (value ev)) /\
     accum_x d' = accum_x d /\ ring d' = ring d /\
     mouse_out d' = mouse_out d ++ [with_value ev (snd (scale_axis (accum_y d) (value ev)))]) /\
  (forall n, exists a,
     -1 <= a <= 1 /\
     fst (scale_run float_zero (firstn n raw)) = dyadic 24 a (-1) /\
     within_half (fst (scale_run float_zero (firstn n raw))) = true) /\
  (forall a v,
     -1 <= a <= 1 -> Z.abs v < 2 ^ 24 ->
     scale_axis (dyadic 24 a (-1)) v
     = (dyadic 24 (a + v - 2 * round_half_away (a + v)) (-1), round_half_away (a + v)) /\
     Z.abs (2 * round_half_away (a + v) - (a + v)) <= 1 /\
     Z.abs (a + v) <= Z.abs (2 * round_half_away (a + v))) /\
  (forall a v,
     -1 <= a <= 1 -> INT_MIN <= v <= INT_MAX -> 2 ^ 24 <= Z.abs (a + v) ->
     exists n,
       scale_axis (dyadic 24 a (-1)) v = (float_zero, n) /\
       Z.abs (2 * n - (a + v)) <= 256) /\
  (Forall (fun v => Z.abs v < 2 ^ 24) raw ->
   forall r,
     Z.abs (2 * r - zsum raw) <= 1 ->
     Z.abs (zsum (snd (scale_run float_zero raw)) - r) <= 1).
Proof.
  intros Hall T. split; [|split; [|split; [|split; [|split]]]].
  - intros C. eexists. split; [apply (rel_x_step ev d T C)|].
    cbn [to_mouse accum_x accum_y ring mouse_out]. auto.
  - intros C. eexists. split; [apply (rel_y_step ev d T C)|].
    cbn [to_mouse accum_x accum_y ring mouse_out]. auto.
  - intros n.
    destruct (scale_run_int (firstn n raw) 0 ltac:(lia) (Forall_firstn_bound _ n raw Hall))
      as (a' & Ha' & F).
    change (dyadic 24 0 (-1)) with float_zero in F.
    exists a'. split; [exact Ha'|]. split; [exact F|].
    rewrite F. now apply within_half_dyadic.
  - intros a v Ha Hv. split; [now apply scale_axis_half_units|].
    apply round_half_away_nearest.
  - intros a v Ha Hv Hw. now apply scale_axis_large.
  - intros Hsmall r Hr.
    destruct (scale_run_exact raw 0 ltac:(lia) Hsmall) as (a' & Ha' & _ & S).
    change (dyadic 24 0 (-1)) with float_zero in S. lia.
Qed.

Lemma motion_fidelity_witness :
  within_half (fst (scale_run float_zero [1; 2147483647; -2147483648; 3])) = true /\
  scale_axis float_half 3 = (float_zero, 2) /\
  Z.abs (zsum (snd (scale_run float_zero [1; 1; 1; 3; -5; 2])) - 2) <= 1.
Proof.
  assert (B : Forall (fun v => INT_MIN <= v <= INT_MAX) [1; 2147483647; -2147483648; 3])
    by (repeat constructor; vm_compute; discriminate).
  assert (B' : Forall (fun v => INT_MIN <= v <= INT_MAX) [1; 1; 1; 3; -5; 2])
    by (repeat constructor; vm_compute; discriminate).
  assert (S' : Forall (fun v => Z.abs v < 2 ^ 24) [1; 1; 1; 3; -5; 2])
    by (repeat constructor).
  destruct (motion_fidelity [1; 2147483647; -2147483648; 3] daemon_init
              (mk_event 0 EV_REL REL_X 3) B eq_refl) as (_ & _ & W & N & _).
  destruct (motion_fidelity [1; 1; 1; 3; -5; 2] daemon_init
              (mk_event 0 EV_REL REL_X 3) B' eq_refl) as (_ & _ & _ & _ & _ & S).
  split; [destruct (W 4%nat) as (a & _ & _ & H); exact H|].
  split; [exact (proj1 (N 1 3 ltac:(lia) ltac:(cbn; lia)))|].
  apply (S S'). vm_compute. discriminate.
Defined.

(** * Further properties *)

(** ** The mouse thread's routing, event by event *)

Lemma to_keyboard_inv (ev : input_event) (d d' : daemon) :
  ring_wf (ring d) ->
  to_keyboard ev d = Running d' ->
  (head (ring d) + 1) mod EVENT_BUFFER_SIZE <> tail (ring d) /\
  pending (ring d') = pending (ring d) ++ [ev] /\ ring_wf (ring d') /\
  mouse_out d' = mouse_out d /\ kb_out d' = kb_out d /\
  accum_x d' = accum_x d /\ accum_y d' = accum_y d.
Proof.
  intros Hwf E.
  destruct (Z.eq_dec ((head (ring d) + 1) mod EVENT_BUFFER_SIZE) (tail (ring d))) as [F|R].
  - rewrite (to_keyboard_full ev d F) in E. discriminate.
  - destruct (to_keyboard_room ev d Hwf R) as (d1 & E1 & P & W & _ & _ & _ & M & K & X & Y).
    rewrite E1 in E. injection E as <-. auto 10.
Qed.

Lemma to_keyboard_exit (ev : input_event) (d : daemon) (c : Z) :
  to_keyboard ev d = Exited c <->
  c = 1 /\ (head (ring d) + 1) mod EVENT_BUFFER_SIZE = tail (ring d).
Proof.
  unfold to_keyboard, send_input_event_to_keyboard, enqueue.
  destruct (Z.eqb_spec ((head (ring d) + 1) mod EVENT_BUFFER_SIZE) (tail (ring d)));
    cbn [bind]; split.
  - intros [= <-]. auto.
  - intros [-> _]. reflexivity.
  - discriminate.
  - intros [_ F]. contradiction.
Qed.

(** The four ways the [switch] treats an event. *)
Lemma mouse_event_cases (ev : input_event) (d : daemon) :
  (goes_to_keyboard ev = true /\ type ev <> EV_SYN /\
   exists ev', mouse_event ev d = to_keyboard ev' d /\
               time ev' = time ev /\ type ev' = type ev) \/
  (type ev = EV_SYN /\ goes_to_keyboard ev = true /\
   mouse_event ev d = bind (to_keyboard ev d) (fun d' => Running (to_mouse ev d'))) \/
  (goes_to_keyboard ev = false /\ is_scaled ev = true /\
   exists d1 n, mouse_event ev d = Running (to_mouse (with_value ev n) d1) /\
                ring d1 = ring d /\ mouse_out d1 = mouse_out d /\ kb_out d1 = kb_out d) \/
  (goes_to_keyboard ev = false /\ is_scaled ev = false /\
   mouse_event ev d = Running (to_mouse ev d)).
Proof.
  unfold mouse_event, goes_to_keyboard, is_scaled.
  destruct (Z.eqb_spec (type ev) EV_KEY) as [Tk|Tk].
  - rewrite Tk. cbn [Z.eqb EV_KEY EV_REL EV_MSC EV_SYN Pos.eqb andb orb].
    destruct (Z.eqb_spec (code ev) BTN_SIDE) as [Cs|Cs]; cbn [orb andb].
    + left. split; [reflexivity|]. split; [discriminate|]. eexists. split; [reflexivity|].
      split; reflexivity || (cbn [with_code type]; congruence).
    + destruct (Z.eqb_spec (code ev) BTN_EXTRA) as [Ce|Ce]; cbn [orb andb].
      * left. split; [reflexivity|]. split; [discriminate|]. eexists. split; [reflexivity|].
        split; reflexivity || (cbn [with_code type]; congruence).
      * right. right. right. auto.
  - destruct (Z.eqb_spec (type ev) EV_REL) as [Tr|Tr].
    + rewrite Tr. cbn [Z.eqb EV_KEY EV_REL EV_MSC EV_SYN Pos.eqb andb orb].
      destruct (Z.eqb_spec (code ev) REL_X) as [Cx|Cx]; cbn [orb andb].
      * right. right. left. split; [reflexivity|]. split; [reflexivity|].
        destruct (scale_axis (accum_x d) (value ev)) as [a n].
        eexists. exists n. split; [reflexivity|]. auto.
      * destruct (Z.eqb_spec (code ev) REL_Y) as [Cy|Cy]; cbn [orb andb].
        -- right. right. left. split; [reflexivity|]. split; [reflexivity|].
           destruct (scale_axis (accum_y d) (value ev)) as [a n].
           eexists. exists n. split; [reflexivity|]. auto.
        -- right. right. right. auto.
    + destruct (Z.eqb_spec (type ev) EV_MSC) as [Tm|Tm].
      * rewrite Tm. cbn [Z.eqb EV_KEY EV_REL EV_MSC EV_SYN Pos.eqb andb orb].
        destruct (Z.eqb_spec (code ev) MSC_SCAN) as [Cs|Cs]; cbn [orb andb].
        -- destruct (Z.eqb_spec (value ev) SCAN_BTN_SIDE) as [Vs|Vs]; cbn [orb andb].
           ++ left. split; [reflexivity|]. split; [discriminate|]. eexists.
              split; [reflexivity|]. split; reflexivity || (cbn [with_value type]; congruence).
           ++ destruct (Z.eqb_spec (value ev) SCAN_BTN_EXTRA) as [Ve|Ve]; cbn [orb andb].
              ** left. split; [reflexivity|]. split; [discriminate|]. eexists.
                 split; [reflexivity|]. split; reflexivity || (cbn [with_value type]; congruence).
              ** right. right. right. auto.
        -- right. right. right. auto.
      * destruct (Z.eqb_spec (type ev) EV_SYN) as [Ts|Ts]; cbn [orb andb].
        -- right. left. auto.
        -- right. right. right. auto.
Qed.

(** X1. An event that is none of the side buttons, their scan codes, a
    synchronization marker or a motion on [REL_X]/[REL_Y] (other buttons, the
    wheel, other [EV_MSC] codes, any other type) is written once, unchanged,
    to the virtual mouse; the ring, the accumulators and the virtual keyboard
    are left alone, and this holds even when the ring is full. *)
Theorem other_events_pass_through (ev : input_event) (d : daemon) :
  goes_to_keyboard ev = false ->
  is_scaled ev = false ->
  exists d',
    mouse_event ev d = Running d' /\
    mouse_out d' = mouse_out d ++ [ev] /\
    ring d' = ring d /\ kb_out d' = kb_out d /\
    accum_x d' = accum_x d /\ accum_y d' = accum_y d.
Proof.
  intros G S.
  destruct (mouse_event_cases ev d) as [(G' & _)|[(_ & G' & _)|[(_ & S' & _)|(_ & _ & E)]]];
    try congruence.
  exists (to_mouse ev d). rewrite E. cbn [to_mouse mouse_out ring kb_out accum_x accum_y]. auto 10.
Qed.

Lemma other_events_pass_through_witness :
  exists d',
    mouse_event (mk_event 4 EV_KEY BTN_LEFT 1) daemon_init = Running d' /\
    mouse_out d' = [mk_event 4 EV_KEY BTN_LEFT 1] /\
    ring d' = ring_init.
Proof.
  destruct (other_events_pass_through (mk_event 4 EV_KEY BTN_LEFT 1) daemon_init
              eq_refl eq_refl) as (d' & E & M & R & _).
  exists d'. split; [exact E|]. split; [exact M|exact R].
Defined.

(** X2. Handling a mouse event ends the process exactly when the event is one
    that is sent to the keyboard and the ring is full; the status is then 1.
    No other event and no other state of the ring makes the handler exit. *)
Theorem mouse_event_exits_only_on_overflow (ev : input_event) (d : daemon) (c : Z) :
  mouse_event ev d = Exited c <->
  c = 1 /\ goes_to_keyboard ev = true /\
  (head (ring d) + 1) mod EVENT_BUFFER_SIZE = tail (ring d).
Proof.
  destruct (mouse_event_cases ev d)
    as [(G & _ & ev' & E & _)|[(_ & G & E)|[(G & _ & d1 & n & E & _)|(G & _ & E)]]];
    rewrite E, G.
  - rewrite to_keyboard_exit. tauto.
  - split.
    + intros H. destruct (to_keyboard ev d) as [d1|c1] eqn:E2; cbn [bind] in H; [discriminate|].
      injection H as <-. apply to_keyboard_exit in E2. tauto.
    + intros (-> & _ & F).
      rewrite (proj2 (to_keyboard_exit ev d 1) (conj eq_refl F)). reflexivity.
  - split; [discriminate|intros (_ & F & _); discriminate].
  - split; [discriminate|intros (_ & F & _); discriminate].
Qed.

Lemma mouse_event_running (ev : input_event) (d d' : daemon) :
  ring_wf (ring d) ->
  mouse_event ev d = Running d' ->
  exists outs kbs,
    mouse_out d' = mouse_out d ++ outs /\
    pending (ring d') = pending (ring d) ++ kbs /\
    kb_out d' = kb_out d /\ ring_wf (ring d') /\
    (length outs <= 1)%nat /\ (length kbs <= 1)%nat /\
    (1 <= length outs + length kbs)%nat /\
    (kbs <> [] <-> goes_to_keyboard ev = true) /\
    Forall (fun e => time e = time ev /\ type e = type ev) (outs ++ kbs).
Proof.
  intros Hwf E.
  destruct (mouse_event_cases ev d)
    as [(G & _ & ev' & E1 & Ht & Hy)|[(_ & G & E1)|[(G & _ & d1 & n & E1 & R & M & K)|(G & _ & E1)]]];
    rewrite E1 in E.
  - destruct (to_keyboard_inv ev' d d' Hwf E) as (_ & P & W & M & K & _).
    exists [], [ev']. rewrite app_nil_r. cbn [length app].
    split; [exact M|]. split; [exact P|]. split; [exact K|]. split; [exact W|].
    split; [lia|]. split; [lia|]. split; [lia|].
    split; [split; [intros _; exact G|discriminate]|].
    constructor; [split; assumption|constructor].
  - destruct (to_keyboard ev d) as [d1|] eqn:E2; cbn [bind] in E; [|discriminate].
    injection E as <-.
    destruct (to_keyboard_inv ev d d1 Hwf E2) as (_ & P & W & M & K & _).
    exists [ev], [ev]. cbn [to_mouse mouse_out ring kb_out length app].
    split; [now rewrite M|]. split; [exact P|]. split; [exact K|]. split; [exact W|].
    split; [lia|]. split; [lia|]. split; [lia|].
    split; [split; [intros _; exact G|discriminate]|].
    repeat constructor.
  - injection E as <-. exists [with_value ev n], [].
    cbn [to_mouse mouse_out ring kb_out length app]. rewrite R, M, app_nil_r.
    split; [reflexivity|]. split; [reflexivity|]. split; [exact K|]. split; [exact Hwf|].
    split; [lia|]. split; [lia|]. split; [lia|].
    split; [split; [intros H; now contradiction H|congruence]|].
    repeat constructor.
  - injection E as <-. exists [ev], [].
    cbn [to_mouse mouse_out ring kb_out length app]. rewrite app_nil_r.
    split; [reflexivity|]. split; [reflexivity|]. split; [reflexivity|]. split; [exact Hwf|].
    split; [lia|]. split; [lia|]. split; [lia|].
    split; [split; [intros H; now contradiction H|congruence]|].
    repeat constructor.
Qed.


(** X3. When the handler does not exit it issues, for the event read, at
    most one [write] to the virtual mouse and at most one push to the keyboard
    ring, at least one of the two, a push exactly for the events sent to the
    keyboard, and each carries the timestamp and the type of the event read;
    the mouse thread issues no write to the virtual keyboard.  [mouse_out]
    lists the events handed to [write]: whether the device takes them is not
    modelled, the code only logs a short write and goes on. *)
Theorem mouse_event_forwards (ev : input_event) (d d' : daemon) :
  ring_wf (ring d) ->
  mouse_event ev d = Running d' ->
  exists outs kbs,
    mouse_out d' = mouse_out d ++ outs /\
    pending (ring d') = pending (ring d) ++ kbs /\
    kb_out d' = kb_out d /\
    (length outs <= 1)%nat /\ (length kbs <= 1)%nat /\
    (1 <= length outs + length kbs)%nat /\
    (kbs <> [] <-> goes_to_keyboard ev = true) /\
    Forall (fun e => time e = time ev /\ type e = type ev) (outs ++ kbs).
Proof.
  intros Hwf E.
  destruct (mouse_event_running ev d d' Hwf E) as (outs & kbs & M & P & K & _ & R).
  exists outs, kbs. auto.
Qed.

Lemma mouse_event_forwards_witness :
  exists d' outs kbs,
    mouse_event (mk_event 9 EV_SYN 0 0) daemon_init = Running d' /\
    mouse_out d' = outs /\ pending (ring d') = kbs /\
    (1 <= length outs + length kbs)%nat.
Proof.
  assert (W : ring_wf (ring daemon_init)) by (unfold ring_wf; cbn; lia).
  destruct (mouse_event (mk_event 9 EV_SYN 0 0) daemon_init) as [d'|c] eqn:E.
  - destruct (mouse_event_forwards (mk_event 9 EV_SYN 0 0) daemon_init d' W E)
      as (outs & kbs & M & P & _ & _ & _ & L & _).
    exists d', outs, kbs. split; [reflexivity|]. split; [exact M|]. split; [exact P|exact L].
  - vm_compute in E. discriminate E.
Defined.

(** ** The two axes over a run of events *)

Lemma to_keyboard_shape (ev : input_event) (d d' : daemon) :
  to_keyboard ev d = Running d' ->
  mouse_out d' = mouse_out d /\ kb_out d' = kb_out d /\
  accum_x d' = accum_x d /\ accum_y d' = accum_y d.
Proof.
  unfold to_keyboard.
  destruct (send_input_event_to_keyboard ev (ring d)); cbn [bind]; [|discriminate].
  intros [= <-]. auto.
Qed.

Lemma scale_run_app (a : spec_float) (l1 l2 : list Z) :
  scale_run a (l1 ++ l2) =
  (fst (scale_run (fst (scale_run a l1)) l2),
   snd (scale_run a l1) ++ snd (scale_run (fst (scale_run a l1)) l2)).
Proof.
  revert a. induction l1 as [|v l1 IH]; intros a; cbn [app scale_run fst snd].
  - now destruct (scale_run a l2).
  - destruct (scale_axis a v) as [a1 n]. rewrite IH.
    destruct (scale_run a1 l1) as [a2 ds]. cbn [fst snd].
    destruct (scale_run a2 l2). reflexivity.
Qed.

Lemma axis_values_app (c : Z) (l1 l2 : list input_event) :
  axis_values c (l1 ++ l2) = axis_values c l1 ++ axis_values c l2.
Proof.
  induction l1 as [|ev l1 IH]; cbn [app axis_values]; [reflexivity|].
  destruct ((type ev =? EV_REL) && (code ev =? c)); cbn [app]; congruence.
Qed.

Lemma mouse_event_axis_step (ev : input_event) (d d1 : daemon) :
  mouse_event ev d = Running d1 ->
  exists out1,
    mouse_out d1 = mouse_out d ++ out1 /\
    accum_x d1 = fst (scale_run (accum_x d) (axis_values REL_X [ev])) /\
    axis_values REL_X out1 = snd (scale_run (accum_x d) (axis_values REL_X [ev])) /\
    accum_y d1 = fst (scale_run (accum_y d) (axis_values REL_Y [ev])) /\
    axis_values REL_Y out1 = snd (scale_run (accum_y d) (axis_values REL_Y [ev])).
Proof.
  intros E. cbn [axis_values].
  destruct ((type ev =? EV_REL) && (code ev =? REL_X)) eqn:HX;
    [|destruct ((type ev =? EV_REL) && (code ev =? REL_Y)) eqn:HY].
  - apply andb_true_iff in HX as [T C]. apply Z.eqb_eq in T, C.
    rewrite (rel_x_step ev d T C) in E.
    assert (HY : (type ev =? EV_REL) && (code ev =? REL_Y) = false)
      by (rewrite C; apply andb_false_r).
    rewrite HY. cbn [scale_run].
    destruct (scale_axis (accum_x d) (value ev)) as [a n]. cbn [fst snd] in *.
    injection E as <-.
    exists [with_value ev n].
    cbn [to_mouse mouse_out accum_x accum_y axis_values with_value type code value].
    rewrite T, C. cbn [Z.eqb EV_REL REL_X REL_Y Pos.eqb andb]. auto.
  - apply andb_true_iff in HY as [T C]. apply Z.eqb_eq in T, C.
    rewrite (rel_y_step ev d T C) in E.
    cbn [scale_run].
    destruct (scale_axis (accum_y d) (value ev)) as [a n]. cbn [fst snd] in *.
    injection E as <-.
    exists [with_value ev n].
    cbn [to_mouse mouse_out accum_x accum_y axis_values with_value type code value].
    rewrite T, C. cbn [Z.eqb EV_REL REL_X REL_Y Pos.eqb andb]. auto.
  - cbn [scale_run fst snd].
    assert (S : is_scaled ev = false).
    { unfold is_scaled. destruct (type ev =? EV_REL); cbn [andb] in *; [|reflexivity].
      rewrite HX, HY. reflexivity. }
    destruct (mouse_event_cases ev d)
      as [(_ & _ & ev' & E1 & _)|[(_ & _ & E1)|[(_ & S' & _)|(_ & _ & E1)]]];
      try congruence; rewrite E1 in E.
    + destruct (to_keyboard_shape ev' d d1 E) as (M & _ & X & Y).
      exists []. rewrite app_nil_r. cbn [axis_values]. auto.
    + destruct (to_keyboard ev d) as [d2|] eqn:E2; cbn [bind] in E; [|discriminate].
      injection E as <-.
      destruct (to_keyboard_shape ev d d2 E2) as (M & _ & X & Y).
      exists [ev]. cbn [to_mouse mouse_out accum_x accum_y axis_values].
      rewrite HX, HY, M. auto.
    + injection E as <-. exists [ev].
      cbn [to_mouse mouse_out accum_x accum_y axis_values].
      rewrite HX, HY. auto.
Qed.

Lemma mouse_events_axes (evs : list input_event) (d d' : daemon) :
  mouse_events evs d = Running d' ->
  exists outs,
    mouse_out d' = mouse_out d ++ outs /\
    accum_x d' = fst (scale_run (accum_x d) (axis_values REL_X evs)) /\
    axis_values REL_X outs = snd (scale_run (accum_x d) (axis_values REL_X evs)) /\
    accum_y d' = fst (scale_run (accum_y d) (axis_values REL_Y evs)) /\
    axis_values REL_Y outs = snd (scale_run (accum_y d) (axis_values REL_Y evs)).
Proof.
  revert d. induction evs as [|ev evs IH]; intros d E; cbn [mouse_events] in E.
  - injection E as <-. exists []. rewrite app_nil_r. cbn. auto.
  - destruct (mouse_event ev d) as [d1|] eqn:E1; cbn [bind] in E; [|discriminate].
    destruct (mouse_event_axis_step ev d d1 E1) as (o1 & M1 & X1 & VX1 & Y1 & VY1).
    destruct (IH d1 E) as (o2 & M2 & X2 & VX2 & Y2 & VY2).
    exists (o1 ++ o2).
    change (ev :: evs) with ([ev] ++ evs).
    rewrite !axis_values_app, !scale_run_app. cbn [fst snd].
    rewrite <- X1, <- Y1, <- VX1, <- VY1, <- X2, <- Y2, <- VX2, <- VY2.
    rewrite M2, M1, app_assoc. auto.
Qed.

(** X4. The two axes do not interfere.  Over any run of mouse events that
    does not end the process, whatever else is interleaved (buttons, wheel,
    markers, motion on the other axis), [accum_x] ends as if the accumulator
    had been fed the [REL_X] values alone, the [REL_X] values written to the
    virtual mouse are the deltas that feeding emits, in order, and the same
    holds for [REL_Y]. *)
Theorem axes_are_independent (evs : list input_event) (d d' : daemon) :
  mouse_events evs d = Running d' ->
  exists outs,
    mouse_out d' = mouse_out d ++ outs /\
    (accum_x d', axis_values REL_X outs) = scale_run (accum_x d) (axis_values REL_X evs) /\
    (accum_y d', axis_values REL_Y outs) = scale_run (accum_y d) (axis_values REL_Y evs).
Proof.
  intros E. destruct (mouse_events_axes evs d d' E) as (outs & M & X & VX & Y & VY).
  exists outs. split; [exact M|]. rewrite X, VX, Y, VY.
  split; symmetry; apply surjective_pairing.
Qed.

Lemma axes_are_independent_witness :
  exists d' outs,
    mouse_events [mk_event 1 EV_REL REL_X 3; mk_event 1 EV_REL REL_Y (-1);
                  mk_event 1 EV_SYN 0 0; mk_event 2 EV_REL REL_X 2] daemon_init
    = Running d' /\
    mouse_out d' = outs /\
    (accum_x d', axis_values REL_X outs) = (float_minus_half, [2; 1]).
Proof.
  assert (S : scale_run float_zero [3; 2] = (float_minus_half, [2; 1]))
    by (vm_compute; reflexivity).
  destruct (mouse_events [mk_event 1 EV_REL REL_X 3; mk_event 1 EV_REL REL_Y (-1);
                          mk_event 1 EV_SYN 0 0; mk_event 2 EV_REL REL_X 2] daemon_init)
    as [d'|c] eqn:E.
  - destruct (axes_are_independent _ _ _ E) as (outs & M & X & _).
    exists d', outs. split; [reflexivity|]. split; [exact M|].
    exact (eq_trans X S).
  - vm_compute in E. discriminate E.
Defined.

(** ** The accumulator against exact arithmetic *)

Lemma round_half_away_opp (w : Z) :
  round_half_away (- w) = - round_half_away w.
Proof. unfold round_half_away. rewrite Z.sgn_opp, Z.abs_opp. ring. Qed.

Lemma scale_run_half_units (raw : list Z) (a : Z) :
  -1 <= a <= 1 ->
  Forall (fun v => Z.abs v < 2 ^ 24) raw ->
  scale_run (dyadic 24 a (-1)) raw
  = (dyadic 24 (fst (exact_run a raw)) (-1), snd (exact_run a raw)) /\
  -1 <= fst (exact_run a raw) <= 1.
Proof.
  revert a. induction raw as [|v raw IH]; intros a Ha Hall; cbn [scale_run exact_run].
  - cbn [fst snd]. auto.
  - inversion Hall as [|? ? Hv Hrest]; subst.
    rewrite (scale_axis_half_units a v Ha Hv).
    pose proof (round_half_away_rem (a + v)) as [Hr _].
    destruct (IH _ Hr Hrest) as [E B]. rewrite E.
    destruct (exact_run (a + v - 2 * round_half_away (a + v)) raw) as [f ds].
    cbn [fst snd] in *. auto.
Qed.

Lemma exact_run_sum (raw : list Z) (a : Z) :
  2 * zsum (snd (exact_run a raw)) + fst (exact_run a raw) = a + zsum raw.
Proof.
  revert a. induction raw as [|v raw IH]; intros a; cbn [exact_run].
  - cbn. lia.
  - specialize (IH (a + v - 2 * round_half_away (a + v))).
    destruct (exact_run (a + v - 2 * round_half_away (a + v)) raw) as [f ds].
    cbn [fst snd] in *.
    change (zsum (round_half_away (a + v) :: ds)) with (round_half_away (a + v) + zsum ds).
    change (zsum (v :: raw)) with (v + zsum raw). lia.
Qed.

Lemma exact_run_opp (raw : list Z) (a : Z) :
  exact_run (- a) (map Z.opp raw)
  = (- fst (exact_run a raw), map Z.opp (snd (exact_run a raw))).
Proof.
  revert a. induction raw as [|v raw IH]; intros a; cbn [exact_run map].
  - reflexivity.
  - replace (- a + - v) with (- (a + v)) by lia. rewrite round_half_away_opp.
    replace (- (a + v) - 2 * - round_half_away (a + v))
      with (- (a + v - 2 * round_half_away (a + v))) by lia.
    rewrite IH.
    destruct (exact_run (a + v - 2 * round_half_away (a + v)) raw) as [f ds].
    reflexivity.
Qed.

(** X5. For raw deltas of magnitude below 2^24 the binary32 accumulator
    computes exactly: started at 0.0 it emits, step by step, the integers
    of the recurrence [n = nearest integer to (a + v) / 2, halves away from
    zero; a := a + v - 2 n] on twice the accumulator, and it ends holding
    exactly half the final [a], which is -1, 0 or 1. *)
Theorem accumulator_is_exact (raw : list Z) :
  Forall (fun v => Z.abs v < 2 ^ 24) raw ->
  scale_run float_zero raw
  = (dyadic 24 (fst (exact_run 0 raw)) (-1), snd (exact_run 0 raw)) /\
  (fst (scale_run float_zero raw) = float_minus_half \/
   fst (scale_run float_zero raw) = float_zero \/
   fst (scale_run float_zero raw) = float_half).
Proof.
  intros Hall.
  destruct (scale_run_half_units raw 0 ltac:(lia) Hall) as [E B].
  change (dyadic 24 0 (-1)) with float_zero in E.
  split; [exact E|]. rewrite E. cbn [fst].
  assert (C : fst (exact_run 0 raw) = -1 \/ fst (exact_run 0 raw) = 0 \/
              fst (exact_run 0 raw) = 1) by lia.
  destruct C as [->|[->| ->]]; auto.
Qed.

Lemma accumulator_is_exact_witness :
  scale_run float_zero [5; -2; 7] = (float_zero, [3; -2; 4]).
Proof.
  assert (B : Forall (fun v => Z.abs v < 2 ^ 24) [5; -2; 7]) by (repeat constructor).
  exact (proj1 (accumulator_is_exact [5; -2; 7] B)).
Defined.

(** X6. Nothing is lost: for raw deltas of magnitude below 2^24, twice the
    sum of the emitted deltas plus twice the accumulator left over equals the
    sum of the raw deltas, after any number of steps. *)
Theorem motion_is_conserved (raw : list Z) :
  Forall (fun v => Z.abs v < 2 ^ 24) raw ->
  exists a,
    fst (scale_run float_zero raw) = dyadic 24 a (-1) /\
    -1 <= a <= 1 /\
    2 * zsum (snd (scale_run float_zero raw)) + a = zsum raw.
Proof.
  intros Hall.
  destruct (scale_run_half_units raw 0 ltac:(lia) Hall) as [E B].
  change (dyadic 24 0 (-1)) with float_zero in E.
  exists (fst (exact_run 0 raw)). rewrite E. cbn [fst snd].
  split; [reflexivity|]. split; [exact B|].
  rewrite exact_run_sum. lia.
Qed.

Lemma motion_is_conserved_witness :
  exists a,
    fst (scale_run float_zero [1; 1; 1]) = dyadic 24 a (-1) /\
    2 * zsum (snd (scale_run float_zero [1; 1; 1])) + a = 3.
Proof.
  assert (B : Forall (fun v => Z.abs v < 2 ^ 24) [1; 1; 1]) by (repeat constructor).
  destruct (motion_is_conserved [1; 1; 1] B) as (a & E & _ & S).
  exists a. split; [exact E|exact S].
Defined.

(** X7. Scaling has no preferred direction: for raw deltas of magnitude
    below 2^24, negating every raw delta negates every emitted delta. *)
Theorem scaling_is_symmetric (raw : list Z) :
  Forall (fun v => Z.abs v < 2 ^ 24) raw ->
  snd (scale_run float_zero (map Z.opp raw)) = map Z.opp (snd (scale_run float_zero raw)).
Proof.
  intros Hall.
  assert (Hopp : Forall (fun v => Z.abs v < 2 ^ 24) (map Z.opp raw)).
  { apply Forall_map. eapply Forall_impl; [|exact Hall].
    intros v Hv. cbv beta. now rewrite Z.abs_opp. }
  destruct (scale_run_half_units raw 0 ltac:(lia) Hall) as [E _].
  destruct (scale_run_half_units (map Z.opp raw) 0 ltac:(lia) Hopp) as [E' _].
  change (dyadic 24 0 (-1)) with float_zero in E, E'.
  rewrite E, E'. cbn [snd].
  change 0 with (- 0) at 1. now rewrite exact_run_opp.
Qed.

Lemma scaling_is_symmetric_witness :
  snd (scale_run float_zero (map Z.opp [1; 2; 1])) =
  map Z.opp (snd (scale_run float_zero [1; 2; 1])).
Proof.
  assert (B : Forall (fun v => Z.abs v < 2 ^ 24) [1; 2; 1]) by (repeat constructor).
  exact (scaling_is_symmetric [1; 2; 1] B).
Defined.

(** ** The ring at its limits *)

(** X8. Overflow is determined by the count alone: a run of keyboard events
    ends the process, with status 1, exactly when the entries already pending
    plus the events of the run reach the capacity 2^18; otherwise every event
    of the run is accepted, in order.  An empty ring thus takes 2^18 - 1
    events and exits on the next. *)
Theorem overflow_is_deterministic (evs : list input_event) (d : daemon) :
  ring_wf (ring d) ->
  (EVENT_BUFFER_SIZE <= pending_count (ring d) + Z.of_nat (length evs) ->
   keyboard_events evs d = Exited 1) /\
  (pending_count (ring d) + Z.of_nat (length evs) < EVENT_BUFFER_SIZE ->
   exists d', keyboard_events evs d = Running d' /\
              pending (ring d') = pending (ring d) ++ evs).
Proof.
  intros Hwf. split.
  - revert d Hwf. induction evs as [|ev evs IH]; intros d Hwf Hc; cbn [keyboard_events length] in *.
    + pose proof (pending_count_range (ring d)). lia.
    + unfold keyboard_event.
      destruct (Z.eq_dec ((head (ring d) + 1) mod EVENT_BUFFER_SIZE) (tail (ring d))) as [F|R].
      * now rewrite (to_keyboard_full ev d F).
      * destruct (to_keyboard_room ev d Hwf R) as (d1 & E1 & _ & W1 & _ & _ & C1 & _).
        rewrite E1. cbn [bind]. apply IH; [exact W1|lia].
  - intros Hc.
    destruct (keyboard_events_pending evs d Hwf Hc) as (d' & E & P & _).
    exists d'. auto.
Qed.

Lemma overflow_is_deterministic_witness :
  exists d',
    keyboard_events [mk_event 1 EV_KEY 30 1; mk_event 2 EV_KEY 30 0] daemon_init = Running d' /\
    pending (ring d') = [mk_event 1 EV_KEY 30 1; mk_event 2 EV_KEY 30 0].
Proof.
  assert (W : ring_wf (ring daemon_init)) by (unfold ring_wf; cbn; lia).
  destruct (overflow_is_deterministic
              [mk_event 1 EV_KEY 30 1; mk_event 2 EV_KEY 30 0] daemon_init W) as [_ H].
  destruct H as (d' & E & P); [cbn; lia|].
  exists d'. split; [exact E|exact P].
Defined.

(** The purge's three kinds of step run with nothing in between are
    [clear_keyboard_buffer] run on its own. *)
Lemma drain_steps (n : nat) (rest : list action) (s : sys) :
  purging s = true ->
  kb_event_sem (s_ring s) = Z.of_nat n ->
  exec (repeat PurgeDrain n ++ rest) s =
  exec rest (set_purging true (drain n (s_ring s)) s).
Proof.
  revert s. induction n as [|n IH]; intros s Hg Hn; cbn [repeat app drain].
  - destruct s; cbn in Hg; subst; reflexivity.
  - cbn [exec step]. rewrite Hg. unfold sem_trywait.
    destruct (Z.ltb_spec 0 (kb_event_sem (s_ring s))); [|lia].
    rewrite IH; [reflexivity|reflexivity|cbn [set_purging s_ring kb_event_sem]; lia].
Qed.

Lemma purge_uninterrupted (rest : list action) (s : sys) :
  0 <= kb_event_sem (s_ring s) ->
  exec (PurgeReset :: repeat PurgeDrain (Z.to_nat (kb_event_sem (s_ring s)))
          ++ PurgeDone :: rest) s =
  exec (Purge :: rest) s.
Proof.
  intros H0. cbn [exec step].
  destruct (post_due_keyboard s || purging s); [reflexivity|].
  rewrite drain_steps;
    [|reflexivity|cbn [set_purging s_ring reset_head kb_event_sem]; lia].
  cbn [exec step set_purging purging s_ring andb].
  change (drain (Z.to_nat (kb_event_sem (s_ring s))) (reset_head (s_ring s)))
    with (clear_keyboard_buffer (s_ring s)).
  destruct (clear_keyboard_buffer_spec (s_ring s) H0) as (_ & _ & C & _).
  rewrite C. reflexivity.
Qed.

(** The draining turns and the unlock, with nothing in between: the cursors
    and the buffer are untouched and a semaphore that was not negative is
    left at zero. *)
Lemma drain_then_done (n : nat) (rest : list action) (s s' : sys) :
  0 <= kb_event_sem (s_ring s) ->
  exec (repeat PurgeDrain n ++ PurgeDone :: rest) s = Some (Running s') ->
  exists r,
    head r = head (s_ring s) /\ tail r = tail (s_ring s) /\
    kb_event_buffer r = kb_event_buffer (s_ring s) /\ kb_event_sem r = 0 /\
    exec rest (set_purging false r s) = Some (Running s').
Proof.
  revert s. induction n as [|n IH]; intros s H0 He; cbn [repeat app exec step] in He.
  - destruct (purging s); [|discriminate]. cbn [andb] in He.
    destruct (Z.ltb_spec 0 (kb_event_sem (s_ring s))); cbn [negb] in He; [discriminate|].
    exists (s_ring s). repeat split; [lia|exact He].
  - destruct (purging s); [|discriminate]. unfold sem_trywait in He.
    destruct (Z.ltb_spec 0 (kb_event_sem (s_ring s))); [|discriminate].
    apply IH in He; [|cbn [set_purging s_ring kb_event_sem]; lia].
    destruct He as (r & Hh & Ht & Hb & Hs & He).
    exists r. cbn [set_purging s_ring head tail kb_event_buffer] in *.
    repeat split; assumption.
Qed.

(** X9. A purge is clean if the other threads are at rest when it starts
    and the output thread takes no step while it runs.  Take any state
    reached without a purge in which no [sem_post] is due and the output
    thread is not between its [sem_wait] and its read.  Let
    [clear_keyboard_buffer] run there from [head = tail] through the turns of
    its draining loop to the unlock, with no step of another thread in
    between.  Whatever purge-free interleaving follows, the events delivered
    are those delivered before the purge followed only by events enqueued
    after it, in order: nothing enqueued before the purge comes out. *)
Theorem quiescent_purge_is_clean (before after : list action) (n : nat) (s s' : sys) :
  purge_free before = true -> purge_free after = true ->
  exec before sys_init = Some (Running s) ->
  woken s = false -> post_due_mouse s = false -> post_due_keyboard s = false ->
  exec (PurgeReset :: repeat PurgeDrain n ++ PurgeDone :: after) s = Some (Running s') ->
  delivered s' ++ pending (s_ring s') = delivered s ++ enqueued after.
Proof.
  intros Pb Pa Eb Hw Hm Hk Ea.
  destruct (exec_inv before sys_init s sys_init_inv Pb Eb) as ((Hwf & H0 & Hc) & _).
  cbn [exec step] in Ea. rewrite Hk in Ea.
  destruct (purging s); cbn [orb] in Ea; [discriminate|].
  apply drain_then_done in Ea; [|exact H0].
  destruct Ea as (r & Hh & Ht & _ & Hs & Ea).
  cbn [set_purging s_ring reset_head head tail] in Hh, Ht, Ea.
  match type of Ea with exec after ?x = _ => set (s1 := x) in * end.
  assert (E0 : head (s_ring s1) = tail (s_ring s1)).
  { subst s1. cbn [s_ring set_purging]. congruence. }
  assert (I1 : sys_inv s1).
  { unfold sys_inv, ring_wf, pending_count. rewrite E0, Z.sub_diag.
    subst s1. cbn [set_purging s_ring woken post_due_mouse post_due_keyboard].
    rewrite Ht, Hs, Hw, Hm, Hk. cbn [b2z]. destruct Hwf as [_ Hr].
    repeat split; lia. }
  destruct (exec_inv after s1 s' I1 Pa Ea) as (_ & D).
  rewrite D, (pending_empty _ E0). reflexivity.
Qed.

Lemma quiescent_purge_is_clean_witness :
  let e1 := mk_event 1 EV_KEY 30 1 in
  let e2 := mk_event 2 EV_KEY 31 1 in
  exists s s',
    exec [Enqueue Keyboard e1; Post Keyboard] sys_init = Some (Running s) /\
    exec [PurgeReset; PurgeDrain; PurgeDone;
          Enqueue Keyboard e2; Post Keyboard; Wait; Take] s = Some (Running s') /\
    delivered s' ++ pending (s_ring s') = [e2].
Proof.
  intros e1 e2.
  eexists. eexists.
  split; [vm_compute; reflexivity|]. split; [vm_compute; reflexivity|].
  match goal with
  | |- delivered ?s' ++ _ = _ =>
      exact (quiescent_purge_is_clean
               [Enqueue Keyboard e1; Post Keyboard]
               [Enqueue Keyboard e2; Post Keyboard; Wait; Take] 1
               _ s' eq_refl eq_refl eq_refl eq_refl eq_refl eq_refl eq_refl)
  end.
Defined.

(** X19. The condition of X9 on the output thread cannot be dropped.  With
    the other threads at rest and one event [e] pending, let the output
    thread be woken and read between [head = tail] and the draining loop.
    The purge then finds the semaphore at zero and returns; [e], enqueued
    before the purge, has been delivered; the read cursor is one past the
    write cursor; and the next send, whoever makes it, finds the buffer full
    and ends the process with status 1. *)
Theorem interleaved_purge_is_not_clean (e e' : input_event) (p : producer) :
  exists s s',
    exec [Enqueue Keyboard e; Post Keyboard] sys_init = Some (Running s) /\
    woken s = false /\ post_due_mouse s = false /\ post_due_keyboard s = false /\
    pending (s_ring s) = [e] /\
    exec [PurgeReset; Wait; Take; PurgeDone] s = Some (Running s') /\
    purging s' = false /\
    delivered s' = [e] /\
    head (s_ring s') = 0 /\ tail (s_ring s') = 1 /\ kb_event_sem (s_ring s') = 0 /\
    step (Enqueue p e') s' = Some (Exited 1).
Proof.
  eexists. eexists.
  split; [vm_compute; reflexivity|].
  do 3 (split; [reflexivity|]).
  split; [vm_compute; reflexivity|].
  split; [vm_compute; reflexivity|].
  do 5 (split; [reflexivity|]).
  destruct p; vm_compute; reflexivity.
Qed.

(** X10. Run on its own, a failed keyboard read discards what is pending
    and nothing else: whether or not the reopen succeeds, the thread stays in
    its loop, and the keyboard events read afterwards are the only ones the
    output thread then delivers, in order, after which it blocks. *)
Theorem keyboard_failure_discards_pending (errno reacquired : Z) (t : thread)
    (d : daemon) (evs : list input_event) :
  alive t = true ->
  ring_wf (ring d) -> 0 <= kb_event_sem (ring d) ->
  Z.of_nat (length evs) < EVENT_BUFFER_SIZE ->
  exists t1 d1 d2 d3,
    keyboard_process_i_iter (ReadError errno) reacquired (t, d) = Running (t1, d1) /\
    alive t1 = true /\ fd t1 = reacquired /\
    keyboard_events evs d1 = Running d2 /\
    keyboard_process_o_iters (length evs) d2 = Some d3 /\
    kb_out d3 = kb_out d ++ evs /\
    mouse_out d3 = mouse_out d /\
    keyboard_process_o_iter d3 = None.
Proof.
  intros Ha Hwf H0 Hlen.
  destruct (keyboard_read_failure_spec d Hwf H0) as (Wp & Ep & Sp & Cp & Pp & Mp & Kp).
  set (d1 := keyboard_read_failure d) in *.
  destruct (keyboard_events_pending evs d1 Wp) as (d2 & E2 & P2 & W2 & S2 & C2 & M2 & K2);
    [lia|].
  rewrite Pp in P2. cbn [app] in P2.
  destruct (keyboard_process_o_drains (length evs) d2 W2) as (d3 & E3 & K3 & M3 & P3 & S3);
    [lia|now rewrite P2|].
  assert (I : exists t1, keyboard_process_i_iter (ReadError errno) reacquired (t, d)
                         = Running (t1, d1) /\ alive t1 = true /\ fd t1 = reacquired).
  { unfold keyboard_process_i_iter, reopen_device. rewrite Ha. cbn [negb].
    fold d1. destruct (reacquired <? 0); cbn [Z.eqb];
      eexists; (split; [reflexivity|]); cbn [with_failures alive fd]; auto. }
  destruct I as (t1 & E1 & A1 & F1).
  exists t1, d1, d2, d3.
  split; [exact E1|]. split; [exact A1|]. split; [exact F1|].
  split; [exact E2|]. split; [exact E3|].
  split; [rewrite K3, K2, Kp, P2; reflexivity|].
  split; [congruence|].
  unfold keyboard_process_o_iter, pop, sem_wait, sem_trywait.
  destruct (Z.ltb_spec 0 (kb_event_sem (ring d3))); [lia|reflexivity].
Qed.

Lemma keyboard_failure_discards_pending_witness :
  exists d0 t1 d1 d2 d3,
    keyboard_events [mk_event 1 EV_KEY 30 1] daemon_init = Running d0 /\
    keyboard_process_i_iter (ReadError 19) (-1) (thread_start 3, d0) = Running (t1, d1) /\
    keyboard_events [mk_event 5 EV_KEY 31 1] d1 = Running d2 /\
    keyboard_process_o_iters 1 d2 = Some d3 /\
    kb_out d3 = [mk_event 5 EV_KEY 31 1].
Proof.
  assert (W : ring_wf (ring daemon_init)) by (unfold ring_wf; cbn; lia).
  destruct (keyboard_events_pending [mk_event 1 EV_KEY 30 1] daemon_init W)
    as (d0 & E0 & _ & W0 & S0 & _ & _ & K0); [cbn; lia|].
  destruct (keyboard_failure_discards_pending 19 (-1) (thread_start 3) d0
              [mk_event 5 EV_KEY 31 1] eq_refl W0)
    as (t1 & d1 & d2 & d3 & E1 & _ & _ & E2 & E3 & K3 & _).
  { rewrite S0. cbn. lia. }
  { cbn. lia. }
  exists d0, t1, d1, d2, d3.
  split; [exact E0|]. split; [exact E1|]. split; [exact E2|]. split; [exact E3|].
  rewrite K3, K0. reflexivity.
Defined.

(** ** Invariants of every schedule *)

Lemma step_cursors_ok (a : action) (s : sys) :
  cursors_ok s ->
  (forall c, step a s = Some (Exited c) -> c = 1 /\ exists p ev, a = Enqueue p ev) /\
  (forall s', step a s = Some (Running s') -> cursors_ok s').
Proof.
  intros ([Hh Ht] & H0). unfold cursors_ok, ring_wf.
  destruct a as [p ev|p| | | | | |]; cbn [step].
  - destruct (post_due p s || purging s); [split; discriminate|].
    unfold enqueue.
    destruct (Z.eqb_spec ((head (s_ring s) + 1) mod EVENT_BUFFER_SIZE) (tail (s_ring s)));
      cbn [bind]; split; try discriminate.
    + intros c [= <-]. eauto.
    + intros s' [= <-]. destruct p; cbn [set_post_due s_ring head tail kb_event_sem];
        repeat split; try lia; ring_arith.
  - destruct (post_due p s); split; try discriminate.
    intros s' [= <-]. destruct p; cbn [set_post_due s_ring sem_post head tail kb_event_sem];
      repeat split; lia.
  - destruct (post_due_keyboard s || purging s); split; try discriminate.
    intros s' [= <-]. cbn [set_purging s_ring].
    destruct (clear_keyboard_buffer_spec (s_ring s) H0) as (A & B & C & _).
    rewrite A, B, C. repeat split; lia.
  - destruct (woken s); [split; discriminate|].
    unfold sem_wait, sem_trywait.
    destruct (Z.ltb_spec 0 (kb_event_sem (s_ring s))); split; try discriminate.
    intros s' [= <-]. cbn [s_ring head tail kb_event_sem]. repeat split; lia.
  - destruct (woken s); [|split; discriminate].
    unfold take. split; [discriminate|].
    intros s' [= <-]. cbn [s_ring head tail kb_event_sem].
    repeat split; try lia; ring_arith.
  - destruct (post_due_keyboard s || purging s); split; try discriminate.
    intros s' [= <-]. cbn [set_purging s_ring reset_head head tail kb_event_sem].
    repeat split; lia.
  - destruct (purging s); [|split; discriminate].
    unfold sem_trywait.
    destruct (Z.ltb_spec 0 (kb_event_sem (s_ring s))); split; try discriminate.
    intros s' [= <-]. cbn [set_purging s_ring head tail kb_event_sem]. repeat split; lia.
  - destruct (purging s && negb (0 <? kb_event_sem (s_ring s))); split; try discriminate.
    intros s' [= <-]. cbn [set_purging s_ring]. repeat split; lia.
Qed.

(** X11. In every schedule, races and purges included, whether a purge runs
    uninterrupted or step by step among the other threads, the two cursors stay
    inside the buffer and the semaphore never goes negative, so no step
    reads or writes outside [kb_event_buffer]; and the only way a schedule
    ends the process is the overflow exit of a send, with status 1. *)
Theorem cursors_stay_in_range (sched : list action) :
  (forall s, exec sched sys_init = Some (Running s) ->
             0 <= head (s_ring s) < EVENT_BUFFER_SIZE /\
             0 <= tail (s_ring s) < EVENT_BUFFER_SIZE /\
             0 <= kb_event_sem (s_ring s)) /\
  (forall c, exec sched sys_init = Some (Exited c) -> c = 1).
Proof.
  assert (G : forall sched s0, cursors_ok s0 ->
            (forall s, exec sched s0 = Some (Running s) -> cursors_ok s) /\
            (forall c, exec sched s0 = Some (Exited c) -> c = 1)).
  { clear. induction sched as [|a sched IH]; intros s0 H0; cbn [exec].
    - split; [intros s [= <-]; exact H0|discriminate].
    - destruct (step_cursors_ok a s0 H0) as [X R].
      destruct (step a s0) as [[s1|c1]|]; [|split; [discriminate|]|split; discriminate].
      + apply IH. now apply R.
      + intros c [= <-]. now apply X. }
  assert (I : cursors_ok sys_init) by (unfold cursors_ok, ring_wf; cbn; lia).
  destruct (G sched sys_init I) as [R X]. split; [|exact X].
  intros s E. destruct (R s E) as ((Hh & Ht) & H0). auto.
Qed.

(** X12. Without a purge the semaphore accounts for the pending entries: in
    every purge-free schedule its value plus the posts still due plus the
    entry the woken output thread is about to read equals the number of
    entries between the cursors.  The output thread is therefore never woken
    for a slot that has not been written, and the semaphore never exceeds what
    is pending. *)
Theorem semaphore_counts_pending (sched : list action) (s : sys) :
  purge_free sched = true ->
  exec sched sys_init = Some (Running s) ->
  pending_count (s_ring s) =
    kb_event_sem (s_ring s) + b2z (woken s) + b2z (post_due_mouse s)
    + b2z (post_due_keyboard s) /\
  0 <= kb_event_sem (s_ring s) <= pending_count (s_ring s) /\
  (woken s = true -> pending (s_ring s) <> []).
Proof.
  intros Hp He.
  destruct (exec_inv sched sys_init s sys_init_inv Hp He) as ((Hwf & H0 & Hc) & _).
  split; [exact Hc|].
  assert (B : forall b, 0 <= b2z b <= 1) by (intros []; cbn; lia).
  pose proof (B (woken s)). pose proof (B (post_due_mouse s)).
  pose proof (B (post_due_keyboard s)).
  split; [lia|]. intros Hw P.
  pose proof (pending_length (s_ring s)) as L. rewrite P, Hw in *. cbn [length b2z] in *.
  lia.
Qed.

Lemma semaphore_counts_pending_witness :
  let e := mk_event 1 EV_KEY 30 1 in
  exists s,
    exec [Enqueue Keyboard e; Enqueue Mouse e; Post Mouse; Wait] sys_init = Some (Running s) /\
    pending_count (s_ring s) = 2 /\ kb_event_sem (s_ring s) = 0.
Proof.
  intros e. eexists. split; [vm_compute; reflexivity|].
  match goal with
  | |- pending_count (s_ring ?s) = _ /\ _ =>
      pose proof (semaphore_counts_pending
                    [Enqueue Keyboard e; Enqueue Mouse e; Post Mouse; Wait] s
                    eq_refl eq_refl) as (C & _)
  end.
  split; [exact C|reflexivity].
Defined.

(** ** Whole runs of the producer threads *)

Lemma mouse_iter_step (r : read_result) (f : Z) (t : thread) (d : daemon) :
  alive t = true -> ring_wf (ring d) ->
  (forall c, mouse_thread_io_func_iter r f (t, d) = Exited c -> c = 1) /\
  (forall t' d',
     mouse_thread_io_func_iter r f (t, d) = Running (t', d') ->
     alive t' = true /\ ring_wf (ring d') /\ kb_out d' = kb_out d /\
     exists kbs, pending (ring d') = pending (ring d) ++ kbs).
Proof.
  intros Ha Hwf. unfold mouse_thread_io_func_iter, reopen_device. rewrite Ha. cbn [negb].
  destruct r as [ev|errno].
  - split.
    + intros c E. destruct (mouse_event ev d) as [d1|c1] eqn:E1; cbn [bind] in E; [discriminate|].
      injection E as <-.
      destruct (mouse_event_cases ev d)
        as [(_ & _ & ev' & E2 & _)|[(_ & _ & E2)|[(_ & _ & d2 & n & E2 & _)|(_ & _ & E2)]]];
        rewrite E2 in E1; try discriminate.
      * now apply to_keyboard_exit in E1.
      * destruct (to_keyboard ev d) as [d2|c2] eqn:E3; cbn [bind] in E1; [discriminate|].
        injection E1 as <-. now apply to_keyboard_exit in E3.
    + intros t' d' E. destruct (mouse_event ev d) as [d1|c1] eqn:E1; cbn [bind] in E; [|discriminate].
      injection E as <- <-.
      destruct (mouse_event_running ev d d1 Hwf E1) as (outs & kbs & _ & P & K & W & _).
      cbn [with_failures alive]. split; [exact Ha|]. split; [exact W|]. split; [exact K|].
      exists kbs. exact P.
  - split.
    + intros c E. destruct (f <? 0); cbn [Z.eqb] in E; discriminate.
    + intros t' d' E.
      destruct (f <? 0); cbn [Z.eqb] in E; injection E as <- <-;
        cbn [with_failures alive reset_accumulators ring kb_out];
        (split; [reflexivity|]); (split; [exact Hwf|]); (split; [reflexivity|]);
        exists []; now rewrite app_nil_r.
Qed.

Lemma keyboard_iter_step (r : read_result) (f : Z) (t : thread) (d : daemon) :
  alive t = true ->
  (forall c, keyboard_process_i_iter r f (t, d) = Exited c -> c = 1) /\
  (forall t' d',
     keyboard_process_i_iter r f (t, d) = Running (t', d') ->
     alive t' = true /\ kb_out d' = kb_out d /\ mouse_out d' = mouse_out d /\
     accum_x d' = accum_x d /\ accum_y d' = accum_y d).
Proof.
  intros Ha. unfold keyboard_process_i_iter, reopen_device, keyboard_event. rewrite Ha.
  cbn [negb]. destruct r as [ev|errno].
  - split.
    + intros c E. destruct (to_keyboard ev d) as [d1|c1] eqn:E1; cbn [bind] in E; [discriminate|].
      injection E as <-. now apply to_keyboard_exit in E1.
    + intros t' d' E. destruct (to_keyboard ev d) as [d1|c1] eqn:E1; cbn [bind] in E; [|discriminate].
      injection E as <- <-. destruct (to_keyboard_shape ev d d1 E1) as (M & K & X & Y).
      cbn [with_failures alive]. auto.
  - split.
    + intros c E. destruct (f <? 0); cbn [Z.eqb] in E; discriminate.
    + intros t' d' E.
      destruct (f <? 0); cbn [Z.eqb] in E; injection E as <- <-;
        cbn [with_failures alive keyboard_read_failure with_ring kb_out mouse_out accum_x accum_y];
        auto.
Qed.

(** X13. A producer thread that has entered its loop only leaves it with
    the process.  Over any sequence of reads, successful or failed, with
    reopens that succeed or fail, a run of either thread either ends the
    process with status 1 or leaves the thread in its loop.  The mouse thread
    writes nothing to the virtual keyboard and only ever appends to the ring
    (its read failures purge nothing); the keyboard thread touches neither the
    virtual mouse, nor the virtual keyboard, nor the accumulators. *)
Theorem producer_threads_stay_in_loop (inputs : list (read_result * Z))
    (t : thread) (d : daemon) :
  alive t = true -> ring_wf (ring d) ->
  (forall c, mouse_thread_run inputs (t, d) = Exited c -> c = 1) /\
  (forall t' d',
     mouse_thread_run inputs (t, d) = Running (t', d') ->
     alive t' = true /\ kb_out d' = kb_out d /\
     exists kbs, pending (ring d') = pending (ring d) ++ kbs) /\
  (forall c, keyboard_thread_run inputs (t, d) = Exited c -> c = 1) /\
  (forall t' d',
     keyboard_thread_run inputs (t, d) = Running (t', d') ->
     alive t' = true /\ kb_out d' = kb_out d /\ mouse_out d' = mouse_out d /\
     accum_x d' = accum_x d /\ accum_y d' = accum_y d).
Proof.
  intros Ha Hwf.
  assert (M : forall inputs t d, alive t = true -> ring_wf (ring d) ->
            (forall c, mouse_thread_run inputs (t, d) = Exited c -> c = 1) /\
            (forall t' d', mouse_thread_run inputs (t, d) = Running (t', d') ->
               alive t' = true /\ kb_out d' = kb_out d /\
               exists kbs, pending (ring d') = pending (ring d) ++ kbs)).
  { clear. induction inputs as [|[r f] inputs IH]; intros t d Ha Hwf; cbn [mouse_thread_run].
    - split; [discriminate|]. intros t' d' [= <- <-]. split; [exact Ha|]. split; [reflexivity|].
      exists []. now rewrite app_nil_r.
    - destruct (mouse_iter_step r f t d Ha Hwf) as [X R].
      destruct (mouse_thread_io_func_iter r f (t, d)) as [[t1 d1]|c1]; cbn [bind].
      + destruct (R t1 d1 eq_refl) as (A1 & W1 & K1 & kbs1 & P1).
        destruct (IH t1 d1 A1 W1) as [X2 R2]. split; [exact X2|].
        intros t' d' E. destruct (R2 t' d' E) as (A2 & K2 & kbs2 & P2).
        split; [exact A2|]. split; [congruence|].
        exists (kbs1 ++ kbs2). now rewrite P2, P1, app_assoc.
      + split; [|discriminate]. intros c [= <-]. now apply X. }
  assert (K : forall inputs t d, alive t = true ->
            (forall c, keyboard_thread_run inputs (t, d) = Exited c -> c = 1) /\
            (forall t' d', keyboard_thread_run inputs (t, d) = Running (t', d') ->
               alive t' = true /\ kb_out d' = kb_out d /\ mouse_out d' = mouse_out d /\
               accum_x d' = accum_x d /\ accum_y d' = accum_y d)).
  { clear. induction inputs as [|[r f] inputs IH]; intros t d Ha; cbn [keyboard_thread_run].
    - split; [discriminate|]. intros t' d' [= <- <-]. auto.
    - destruct (keyboard_iter_step r f t d Ha) as [X R].
      destruct (keyboard_process_i_iter r f (t, d)) as [[t1 d1]|c1]; cbn [bind].
      + destruct (R t1 d1 eq_refl) as (A1 & K1 & M1 & X1 & Y1).
        destruct (IH t1 d1 A1) as [X2 R2]. split; [exact X2|].
        intros t' d' E. destruct (R2 t' d' E) as (A2 & K2 & M2 & X3 & Y3).
        repeat split; congruence.
      + split; [|discriminate]. intros c [= <-]. now apply X. }
  destruct (M inputs t d Ha Hwf) as [M1 M2].
  destruct (K inputs t d Ha) as [K1 K2].
  auto.
Qed.

Lemma producer_threads_stay_in_loop_witness :
  exists t' d',
    mouse_thread_run [(ReadEvent (mk_event 1 EV_KEY BTN_SIDE 1), 0); (ReadError 19, -1);
                      (ReadError 9, 6); (ReadEvent (mk_event 2 EV_SYN 0 0), 0)]
                     (thread_start 4, daemon_init)
    = Running (t', d') /\ alive t' = true /\ kb_out d' = [].
Proof.
  assert (W : ring_wf (ring daemon_init)) by (unfold ring_wf; cbn; lia).
  destruct (producer_threads_stay_in_loop
              [(ReadEvent (mk_event 1 EV_KEY BTN_SIDE 1), 0); (ReadError 19, -1);
               (ReadError 9, 6); (ReadEvent (mk_event 2 EV_SYN 0 0), 0)]
              (thread_start 4) daemon_init eq_refl W) as (_ & R & _).
  destruct (mouse_thread_run _ _) as [[t' d']|c] eqn:E.
  - destruct (R t' d' eq_refl) as (A & K & _). exists t', d'. auto.
  - vm_compute in E. discriminate E.
Defined.

(** X14. A reconnection starts the scaling afresh.  A failed mouse read whose
    reopen succeeds clears [consecutive_failures] and both accumulators and
    leaves the ring and the outputs alone, so the deltas written for the
    motion read afterwards are those of accumulators started at 0.0; when
    the reopen fails the accumulators are kept and [consecutive_failures]
    grows by one. *)
Theorem reconnect_restarts_scaling (errno reacquired : Z) (t : thread) (d : daemon) :
  alive t = true ->
  exists t1 d1,
    mouse_thread_io_func_iter (ReadError errno) reacquired (t, d) = Running (t1, d1) /\
    fd t1 = reacquired /\ ring d1 = ring d /\
    mouse_out d1 = mouse_out d /\ kb_out d1 = kb_out d /\
    (reacquired < 0 ->
     consecutive_failures t1 = consecutive_failures t + 1 /\
     accum_x d1 = accum_x d /\ accum_y d1 = accum_y d) /\
    (0 <= reacquired ->
     consecutive_failures t1 = 0 /\
     forall evs d2,
       mouse_events evs d1 = Running d2 ->
       exists outs,
         mouse_out d2 = mouse_out d ++ outs /\
         axis_values REL_X outs = snd (scale_run float_zero (axis_values REL_X evs)) /\
         axis_values REL_Y outs = snd (scale_run float_zero (axis_values REL_Y evs))).
Proof.
  intros Ha. unfold mouse_thread_io_func_iter, reopen_device. rewrite Ha. cbn [negb].
  destruct (Z.ltb_spec reacquired 0) as [Hn|Hp]; cbn [Z.eqb].
  - do 2 eexists. split; [reflexivity|].
    cbn [with_failures fd consecutive_failures].
    repeat split; try reflexivity; lia.
  - do 2 eexists. split; [reflexivity|].
    cbn [with_failures fd consecutive_failures reset_accumulators ring mouse_out kb_out].
    repeat split; try reflexivity; try lia.
    intros evs d2 E.
    destruct (mouse_events_axes evs _ d2 E) as (outs & M & _ & VX & _ & VY).
    exists outs. cbn [mouse_out accum_x accum_y] in *. auto.
Qed.

Lemma reconnect_restarts_scaling_witness :
  exists t1 d1,
    mouse_thread_io_func_iter (ReadError 19) 5 (thread_start 3, daemon_init) = Running (t1, d1) /\
    fd t1 = 5 /\ consecutive_failures t1 = 0.
Proof.
  destruct (reconnect_restarts_scaling 19 5 (thread_start 3) daemon_init eq_refl)
    as (t1 & d1 & E & F & _ & _ & _ & _ & P).
  exists t1, d1. split; [exact E|]. split; [exact F|]. exact (proj1 (P ltac:(lia))).
Defined.

(** ** Device descriptors *)

Lemma remove_fresh (fd : Z) (l : list Z) :
  ~ In fd l -> remove Z.eq_dec fd (fd :: l) = l.
Proof.
  intros H. cbn [remove]. destruct (Z.eq_dec fd fd); [|contradiction].
  now apply notin_remove.
Qed.

Lemma open_and_grab_cases (opened : Z) (grab_ok : bool) (h : host) :
  (0 <= opened -> ~ In opened (open_fds h)) ->
  (0 <= opened /\ grab_ok = true /\
   open_and_grab_device opened grab_ok h =
   (opened, {| open_fds := opened :: open_fds h; grabbed_fds := opened :: grabbed_fds h |})) \/
  ((opened < 0 \/ grab_ok = false) /\
   fst (open_and_grab_device opened grab_ok h) = -1 /\
   open_fds (snd (open_and_grab_device opened grab_ok h)) = open_fds h /\
   grabbed_fds (snd (open_and_grab_device opened grab_ok h)) = grabbed_fds h).
Proof.
  intros Hf. unfold open_and_grab_device.
  destruct (Z.ltb_spec opened 0) as [Hn|Hp].
  - right. cbn [fst snd]. auto.
  - destruct grab_ok; cbn [negb].
    + left. auto.
    + right. cbn [fst snd close_fd open_fds grabbed_fds].
      rewrite remove_fresh by auto. auto.
Qed.

(** X15. [find_open_and_grab_device] is all or nothing.  It returns a
    descriptor only when the device is found, the [open] succeeds and the grab
    is granted, and that descriptor is then open and grabbed; in every other
    case it returns -1 and leaves no descriptor behind: one that was opened
    and could not be grabbed has been closed again. *)
Theorem find_open_and_grab_is_all_or_nothing (located : bool) (opened : Z)
    (grab_ok : bool) (h : host) :
  (0 <= opened -> ~ In opened (open_fds h)) ->
  let r := find_open_and_grab_device located opened grab_ok h in
  (0 <= fst r <-> located = true /\ 0 <= opened /\ grab_ok = true) /\
  (0 <= fst r ->
   fst r = opened /\
   open_fds (snd r) = opened :: open_fds h /\
   grabbed_fds (snd r) = opened :: grabbed_fds h) /\
  (fst r < 0 ->
   fst r = -1 /\ open_fds (snd r) = open_fds h /\ grabbed_fds (snd r) = grabbed_fds h).
Proof.
  intros Hf r. subst r. unfold find_open_and_grab_device.
  destruct located; cbn [negb].
  - destruct (open_and_grab_cases opened grab_ok h Hf) as [(Hp & Hg & E)|(Hc & E & O & G)].
    + rewrite E. cbn [fst snd open_fds grabbed_fds].
      repeat split; try assumption; try reflexivity; lia.
    + rewrite E, O, G.
      repeat split; try reflexivity; try lia.
      intros (_ & Hp & Hg). destruct Hc as [Hc|Hc]; [lia|congruence].
  - cbn [fst snd]. repeat split; try reflexivity; lia.
Qed.

Lemma find_open_and_grab_is_all_or_nothing_witness :
  let r := find_open_and_grab_device true 7 false (mk_host [3; 4] [3]) in
  fst r = -1 /\ open_fds (snd r) = [3; 4] /\ grabbed_fds (snd r) = [3].
Proof.
  assert (F : 0 <= 7 -> ~ In 7 (open_fds (mk_host [3; 4] [3])))
    by (intros _ [H|[H|[]]]; discriminate H).
  destruct (find_open_and_grab_is_all_or_nothing true 7 false (mk_host [3; 4] [3]) F)
    as (_ & _ & N).
  exact (N eq_refl).
Defined.

Lemma release_held (fd : Z) (h : host) (others gothers : list Z) :
  open_fds h = held fd ++ others ->
  grabbed_fds h = held fd ++ gothers ->
  (0 <= fd -> ~ In fd others /\ ~ In fd gothers) ->
  open_fds (release_and_close_device fd h) = others /\
  grabbed_fds (release_and_close_device fd h) = gothers.
Proof.
  intros O G F. unfold release_and_close_device, held in *.
  destruct (Z.leb_spec 0 fd) as [Hp|Hn].
  - destruct (Z.ltb_spec fd 0); [lia|]. destruct (F Hp) as [F1 F2].
    cbn [close_fd ungrab_fd open_fds grabbed_fds app] in *.
    rewrite O, G, !remove_fresh by assumption. auto.
  - destruct (Z.ltb_spec fd 0); [|lia]. cbn [app] in *. auto.
Qed.

Lemma reopen_step_holds (located : bool) (opened : Z) (grab_ok : bool)
    (fd : Z) (h : host) (others gothers : list Z) :
  open_fds h = held fd ++ others ->
  grabbed_fds h = held fd ++ gothers ->
  (0 <= fd -> ~ In fd others /\ ~ In fd gothers) ->
  (0 <= opened -> ~ In opened others /\ ~ In opened gothers) ->
  let r := reopen_device_host located opened grab_ok (fd, h) in
  open_fds (snd (snd r)) = held (fst (snd r)) ++ others /\
  grabbed_fds (snd (snd r)) = held (fst (snd r)) ++ gothers /\
  (0 <= fst (snd r) -> ~ In (fst (snd r)) others /\ ~ In (fst (snd r)) gothers) /\
  (fst r = 0 <-> 0 <= fst (snd r)) /\ (fst r = -1 <-> fst (snd r) < 0).
Proof.
  intros O G F Fo r. subst r. unfold reopen_device_host.
  destruct (release_held fd h others gothers O G F) as [O1 G1].
  set (h1 := release_and_close_device fd h) in *.
  assert (Ff : 0 <= opened -> ~ In opened (open_fds h1))
    by (intros Hp; rewrite O1; now apply Fo).
  unfold find_open_and_grab_device.
  destruct located; cbn [negb].
  - destruct (open_and_grab_cases opened grab_ok h1 Ff) as [(Hp & Hg & E)|(Hc & E & O2 & G2)].
    + rewrite E. destruct (Z.ltb_spec opened 0); [lia|].
      cbn [fst snd open_fds grabbed_fds]. unfold held.
      destruct (Z.ltb_spec opened 0); [lia|]. cbn [app]. rewrite O1, G1.
      repeat split; try reflexivity; try lia; try (now apply Fo).
    + destruct (open_and_grab_device opened grab_ok h1) as [fd' h2]. cbn [fst snd] in *.
      subst fd'. cbn [Z.ltb Z.compare fst snd]. unfold held. cbn [Z.ltb Z.compare app].
      rewrite O2, G2, O1, G1. repeat split; try reflexivity; try lia.
  - cbn [Z.ltb Z.compare fst snd]. unfold held. cbn [Z.ltb Z.compare app].
    repeat split; try assumption; try reflexivity; try lia.
Qed.

(** X16. A producer thread never holds more than one descriptor across its
    reconnections.  If the thread's descriptor, when it has one, is open and
    grabbed, and [open] only returns descriptors that are not open, then after
    any number of reopen attempts, successful or not, the descriptors open
    and grabbed in the process are those of the other threads plus the one
    the thread ends with, if any: each old descriptor has been released and
    closed before the next is opened. *)
Theorem reopen_never_leaks (attempts : list (bool * Z * bool)) (fd : Z) (h : host)
    (others gothers : list Z) :
  open_fds h = held fd ++ others ->
  grabbed_fds h = held fd ++ gothers ->
  (0 <= fd -> ~ In fd others /\ ~ In fd gothers) ->
  Forall (fun a => 0 <= snd (fst a) ->
                   ~ In (snd (fst a)) others /\ ~ In (snd (fst a)) gothers) attempts ->
  let r := reopen_attempts attempts (fd, h) in
  open_fds (snd r) = held (fst r) ++ others /\
  grabbed_fds (snd r) = held (fst r) ++ gothers /\
  (length (held (fst r)) <= 1)%nat.
Proof.
  revert fd h. induction attempts as [|[[located opened] grab_ok] attempts IH];
    intros fd h O G F Hall r; subst r; cbn [reopen_attempts].
  - cbn [fst snd]. split; [exact O|]. split; [exact G|].
    unfold held. destruct (fd <? 0); cbn; lia.
  - inversion Hall as [|? ? Ho Hrest]; subst. cbn [fst snd] in Ho.
    destruct (reopen_step_holds located opened grab_ok fd h others gothers O G F Ho)
      as (O1 & G1 & F1 & _).
    destruct (reopen_device_host located opened grab_ok (fd, h)) as [rc [fd1 h1]].
    cbn [fst snd] in *. now apply IH.
Qed.

Lemma reopen_never_leaks_witness :
  let r := reopen_attempts [(true, 5, false); (false, 5, true); (true, 5, true)]
                           (5, mk_host [5; 3] [5; 3]) in
  fst r = 5 /\ open_fds (snd r) = [5; 3] /\ grabbed_fds (snd r) = [5; 3].
Proof.
  assert (F : forall x : Z, x = 5 -> 0 <= x -> ~ In x [3] /\ ~ In x [3])
    by (intros x -> _; split; intros [H|[]]; discriminate H).
  destruct (reopen_never_leaks [(true, 5, false); (false, 5, true); (true, 5, true)]
              5 (mk_host [5; 3] [5; 3]) [3] [3] eq_refl eq_refl (F 5 eq_refl))
    as (O & G & _).
  { repeat (constructor; [exact (F 5 eq_refl)|]). constructor. }
  split; [reflexivity|]. split; [exact O|exact G].
Defined.

(** The return code of [reopen_device] on the descriptors is the one the
    thread's loop tests. *)
Lemma reopen_device_host_rc (located : bool) (opened : Z) (grab_ok : bool)
    (fdh : Z * host) (t : thread) :
  fst (reopen_device_host located opened grab_ok fdh)
  = snd (reopen_device (fst (snd (reopen_device_host located opened grab_ok fdh))) t).
Proof.
  unfold reopen_device_host, reopen_device. destruct fdh as [fd h].
  destruct (find_open_and_grab_device located opened grab_ok (release_and_close_device fd h))
    as [fd' h2].
  destruct (fd' <? 0) eqn:E; cbn [fst snd]; now rewrite E.
Qed.

(** ** Start-up, call by call *)

(** X17. [main] gives back what it took.  Whenever [main] returns before
    the joins, every [/dev/uinput] descriptor it had opened has been closed and
    the semaphore, if it had been initialised, has been destroyed; when it
    reaches the joins it holds the two virtual devices and the semaphore.  The
    threads are started in the order output, input, mouse, so a producer
    never runs before the consumer has been created.  The outcome is the one
    of [main]. *)
Theorem main_gives_back_what_it_took (env : startup_env) :
  snd (main_calls env) = snd (main env) /\
  (forall c, snd (main_calls env) = Returned c ->
             c = 1 /\ still_held (fst (main_calls env)) [] = []) /\
  (snd (main_calls env) = Supervising ->
   still_held (fst (main_calls env)) [] = [VirtualG502; VirtualKeyboard; Semaphore] /\
   started (fst (main_calls env)) = [KeyboardOutput; KeyboardInput; MouseIO]) /\
  (exists n, started (fst (main_calls env))
             = firstn n [KeyboardOutput; KeyboardInput; MouseIO]).
Proof.
  unfold main_calls, main.
  repeat match goal with
         | |- context [negb ?b] =>
             destruct b; cbn [negb fst snd];
             [|split; [reflexivity|]; split; [intros c [= <-]; split; reflexivity|];
               split; [discriminate|];
               first [ now exists 0%nat | now exists 1%nat | now exists 2%nat ]]
         end.
  split; [reflexivity|]. split; [discriminate|]. split; [split; reflexivity|].
  now exists 3%nat.
Qed.

(** ** Key codes of the virtual keyboard *)

Lemma keybit_loop_in (fuel : nat) (start c : Z) :
  In c (keybit_loop fuel start) <-> start <= c < Z.min 255 (start + Z.of_nat fuel).
Proof.
  revert start. induction fuel as [|fuel IH]; intros start; cbn [keybit_loop].
  - cbn [In]. lia.
  - destruct (Z.ltb_spec start 255).
    + cbn [In]. rewrite IH. lia.
    + cbn [In]. lia.
Qed.

(** X18. The loop of lines 512-514 enables exactly the key codes 0 to 254 on
    the virtual keyboard (255 is not among them).  Both codes the mouse thread
    substitutes for a side button are enabled there: the event it pushes has
    an enabled code, whichever button it was. *)
Theorem virtual_keyboard_key_codes (ev : input_event) (d d' : daemon) :
  ring_wf (ring d) ->
  type ev = EV_KEY ->
  code ev = BTN_SIDE \/ code ev = BTN_EXTRA ->
  mouse_event ev d = Running d' ->
  (forall c, In c kb_key_codes <-> 0 <= c < 255) /\
  exists e,
    pending (ring d') = pending (ring d) ++ [e] /\
    type e = EV_KEY /\ In (code e) kb_key_codes.
Proof.
  intros Hwf T C E.
  assert (K : forall c, In c kb_key_codes <-> 0 <= c < 255).
  { intros c. unfold kb_key_codes. rewrite keybit_loop_in. lia. }
  split; [exact K|].
  assert (E' : exists k, (k = KEY_LEFTSHIFT \/ k = KEY_LEFTCTRL) /\
                         mouse_event ev d = to_keyboard (with_code ev k) d).
  { unfold mouse_event. rewrite T. cbn [Z.eqb EV_KEY Pos.eqb].
    destruct C as [C|C]; rewrite C; cbn; eauto. }
  destruct E' as (k & Hk & E1). rewrite E1 in E.
  destruct (to_keyboard_inv _ d d' Hwf E) as (_ & P & _).
  exists (with_code ev k). split; [exact P|]. cbn [with_code type code].
  split; [exact T|]. rewrite K.
  unfold KEY_LEFTSHIFT, KEY_LEFTCTRL in *. destruct Hk; lia.
Qed.

Lemma virtual_keyboard_key_codes_witness :
  exists d' e,
    mouse_event (mk_event 1 EV_KEY BTN_EXTRA 1) daemon_init = Running d' /\
    pending (ring d') = [e] /\ In (code e) kb_key_codes.
Proof.
  assert (W : ring_wf (ring daemon_init)) by (unfold ring_wf; cbn; lia).
  destruct (mouse_event (mk_event 1 EV_KEY BTN_EXTRA 1) daemon_init) as [d'|c] eqn:E.
  - destruct (virtual_keyboard_key_codes (mk_event 1 EV_KEY BTN_EXTRA 1) daemon_init d'
                W eq_refl (or_intror eq_refl) E) as (_ & e & P & _ & I).
    exists d', e. split; [reflexivity|]. split; [exact P|exact I].
  - vm_compute in E. discriminate E.
Defined.
